(** * Nexus chat server: session, room and message-routing engine

  A shallow embedding of [src/server/server.py].  The module-level globals
  [db], [clients] and [room_users] become one explicit [state]; every
  function that reads or writes them becomes a computation in a small
  state/output/exception monad [M].  One handler thread per connection is
  kept in a thread table, and the server advances by handling one incoming
  record (or one transport failure) at a time.

  Left out: [save_data()], which writes [db] to the data file after every
  change, and [log]; the [addr] and [thread] fields of a session, which are
  never read; field values of the wrong JSON type.

  Scope.  Text is a [string] of bytes, and the helpers of [Text] are
  Python's [str] methods on ASCII text ([Text.is_ascii]); there [print] in
  [log] and [encode] in [hash_pw] cannot fail either.  A statement that
  depends on how text of the client's choosing is trimmed, lower-cased,
  cut or measured has a [Text.is_ascii] hypothesis on the fields it reads,
  unless its other hypotheses fix that text.  The order in which Python iterates a
  dict or a set is not modelled: [elements] and [map_to_list] stand for one
  enumeration, and a statement about a list that the server sends is up to
  its order ([≡ₚ]).  The server advances by one record at a time; the two
  critical sections of the AUTH block are taken apart in the last part,
  where authentications overlap. *)

From Stdlib Require Import ZArith Lia Ascii String.
From stdpp Require Import gmap strings list fin_maps.

Local Open Scope string_scope.
Local Open Scope list_scope.
Local Open Scope stdpp_scope.
Local Open Scope Z_scope.

(** ** Text helpers

  Python [str] methods used by the server, over ASCII text: [strip] removes
  the characters for which [str.isspace] holds in the ASCII range, [lower]
  maps [A-Z] to [a-z], [len] and [prefix] count bytes.  Characters above
  127 are left untouched; on text with such characters Python's methods
  work on code points and differ (they lower-case accented letters, strip
  U+00A0, count a two-byte character once), which is why [is_ascii] marks
  the text on which this module is used as Python's. *)
Module Text.

(** [s.isascii()] *)
Fixpoint is_ascii (s : string) : bool :=
  match s with
  | EmptyString => true
  | String c s' => (nat_of_ascii c <? 128)%nat && is_ascii s'
  end.

Definition is_space (c : ascii) : bool :=
  let n := nat_of_ascii c in
  ((9 <=? n)%nat && (n <=? 13)%nat) || ((28 <=? n)%nat && (n <=? 32)%nat).

Fixpoint lstrip (s : string) : string :=
  match s with
  | EmptyString => EmptyString
  | String c s' => if is_space c then lstrip s' else s
  end.

Fixpoint rstrip (s : string) : string :=
  match s with
  | EmptyString => EmptyString
  | String c s' =>
      match rstrip s' with
      | EmptyString => if is_space c then EmptyString else String c EmptyString
      | r => String c r
      end
  end.

(** [s.strip()] *)
Definition strip (s : string) : string := rstrip (lstrip s).

Definition lower_char (c : ascii) : ascii :=
  let n := nat_of_ascii c in
  if ((65 <=? n)%nat && (n <=? 90)%nat) then ascii_of_nat (n + 32) else c.

(** [s.lower()] *)
Fixpoint lower (s : string) : string :=
  match s with
  | EmptyString => EmptyString
  | String c s' => String (lower_char c) (lower s')
  end.

(** [s.replace(" ", "-")] *)
Fixpoint spaces_to_hyphens (s : string) : string :=
  match s with
  | EmptyString => EmptyString
  | String c s' =>
      String (if Ascii.eqb c " "%char then "-"%char else c) (spaces_to_hyphens s')
  end.

(** [s[:n]] for a non-negative literal [n] *)
Fixpoint prefix (n : nat) (s : string) : string :=
  match n, s with
  | O, _ => EmptyString
  | _, EmptyString => EmptyString
  | S n', String c s' => String c (prefix n' s')
  end.

(** [len(s)] *)
Definition len (s : string) : Z := Z.of_nat (String.length s).

(** Truthiness of a string: [not s] holds exactly for the empty string. *)
Definition is_empty (s : string) : bool :=
  match s with EmptyString => true | _ => false end.

(** [sorted([a, b])]: code-point order, stable on ties. *)
Definition sorted2 (a b : string) : string * string :=
  if String.leb a b then (a, b) else (b, a).

Fixpoint replicate_char (n : nat) (c : ascii) : string :=
  match n with O => EmptyString | S n' => String c (replicate_char n' c) end.

End Text.

(** ** Python list slices [l[i:]] *)

Section Slices.
Context {A : Type}.

(** Start index of [l[i:]]: a negative [i] counts from the end and is
    clipped at 0, a non-negative one is clipped at [len(l)]. *)
Definition slice_start (i : Z) (n : nat) : nat :=
  if i <? 0 then Z.to_nat (Z.max (Z.of_nat n + i) 0)
  else Z.to_nat (Z.min i (Z.of_nat n)).

Definition slice_from (i : Z) (l : list A) : list A :=
  drop (slice_start i (length l)) l.
End Slices.

(** ** Data model *)

(** [db["users"][name]] *)
Record user := User { u_pw : string; u_joined : string; u_bio : string }.

(** A room-history entry [{"from", "text", "ts"}]. *)
Record message := Message { m_from : string; m_text : string; m_ts : string }.

(** A DM-history entry [{"from", "to", "text", "ts", "full_ts"}]. *)
Record dm_entry := DmEntry {
  d_from : string; d_to : string; d_text : string; d_ts : string; d_full_ts : string
}.

(** [db["rooms"][name]] *)
Record room := Room { r_topic : string; r_history : list message; r_owner : string }.

(** The persisted document [db]. *)
Record document := Document {
  users : gmap string user;
  rooms : gmap string room;
  dm_history : gmap string (list dm_entry)
}.

(** A connection handle: the socket object of one accepted connection. *)
Definition conn_id := nat.
Bind Scope nat_scope with conn_id.

(** [clients[name]]: the handle and the current room (the [addr] and
    [thread] fields are never read). *)
Record session := Session { s_conn : conn_id; s_room : string }.

(** The three module-level globals. *)
Record state := State {
  db : document;
  clients : gmap string session;
  room_users : gmap string (gset string)
}.

(** [load_data()] when no data file exists. *)
Definition default_document : document :=
  {| users := ∅;
     rooms := <["general" := Room "General chat for everyone" [] "system"]>
             (<["random" := Room "Random topics" [] "system"]>
             (<["tech" := Room "Technology discussions" [] "system"]> ∅));
     dm_history := ∅ |}.

(** The clock, read through [ts()] and [full_ts()]. *)
Record clock := Clock { now_ts : string; now_full_ts : string }.

(** *** Records received from a client *)

(** The [limit] field of a [history] record after [int(...)]. *)
Inductive limit_field :=
  | LimAbsent
  | LimInt (z : Z)
  | LimInvalid.

(** A decoded JSON object; a field that is absent is [None]. *)
Record packet := Packet {
  p_type : option string;
  p_action : option string;
  p_username : option string;
  p_password : option string;
  p_text : option string;
  p_room : option string;
  p_name : option string;
  p_topic : option string;
  p_to : option string;
  p_with : option string;
  p_limit : limit_field;
  p_user : option string;
  p_bio : option string
}.

Definition empty_packet : packet :=
  Packet None None None None None None None None None None LimAbsent None None.

(** [pkt.get(key, dflt)] *)
Definition get_or (dflt : string) (f : option string) : string := default dflt f.

(** *** Records sent to a client *)

(** The [msg] of a negative [auth] record. *)
Inductive auth_error :=
  | ShortUsername      (* "Username must be >= 2 characters." *)
  | UsernameTaken      (* "Username already taken." *)
  | UserNotFound       (* "User not found." *)
  | WrongPassword      (* "Wrong password." *)
  | AlreadyLoggedIn    (* "Already logged in from another session." *)
  | UnknownAction.     (* "Unknown action." *)

(** The [msg] of a [system] record. *)
Inductive notice :=
  | RoomDoesNotExist (r : string)        (* "Room 'r' does not exist." *)
  | AlreadyInRoom (r : string)           (* "You are already in #r." *)
  | LeftRoom (u r : string)              (* "<- u left #r" *)
  | JoinedRoom (u r : string)            (* "-> u joined #r" *)
  | MessageTooLong                       (* "Message too long (max 1000 chars)." *)
  | RoomNameTooShort                     (* "Room name must be >= 2 characters." *)
  | RoomAlreadyExists (r : string)       (* "Room #r already exists." *)
  | RoomNotFound (r : string)            (* "Room #r not found." *)
  | OnlyOwnerCanDelete                   (* "Only the owner can delete a room." *)
  | CannotDeleteDefault                  (* "Cannot delete default rooms." *)
  | RoomWasDeleted (r u : string)        (* "Room #r was deleted by u." *)
  | CannotDmYourself                     (* "You can't DM yourself." *)
  | TargetOffline (u : string)           (* "u is offline. Message saved." *)
  | BioUpdated                           (* "Bio updated." *)
  | NoSuchUser (u : string)              (* "User 'u' not found." *)
  | CameOnline (u : string)              (* "u has come online." *)
  | WentOffline (u : string).            (* "u went offline." *)

(** One element of [room_list_payload()]. *)
Record room_info := RoomInfo {
  ri_name : string; ri_topic : string; ri_users : nat; ri_owner : string
}.

Inductive server_packet :=
  | SAuthFail (why : auth_error)
  | SAuthOk (username : string) (rms : list room_info) (online : list string)
  | SJoined (rm topic : string) (history : list message) (members : list string)
  | SMsg (rm : string) (m : message)
  | SDm (d : dm_entry)
  | SSystem (n : notice)
  | SRoomCreated (rm topic owner : string)
  | SRooms (rms : list room_info)
  | SOnline (online : list string)
  | SHistory (rm : string) (messages : list message)
  | SDmHistory (peer : string) (messages : list dm_entry)
  | SWhois (target joined bio : string) (online : bool) (rm : option string)
  | SPong.

(** What a handler does to the outside: [send(conn, pkt)] and
    [conn.close()]. *)
Inductive effect :=
  | Send (c : conn_id) (p : server_packet)
  | Close (c : conn_id).

#[global] Instance auth_error_eq_dec : EqDecision auth_error.
Proof. solve_decision. Defined.
#[global] Instance notice_eq_dec : EqDecision notice.
Proof. solve_decision. Defined.
#[global] Instance message_eq_dec : EqDecision message.
Proof. solve_decision. Defined.
#[global] Instance dm_entry_eq_dec : EqDecision dm_entry.
Proof. solve_decision. Defined.
#[global] Instance room_info_eq_dec : EqDecision room_info.
Proof. solve_decision. Defined.
#[global] Instance server_packet_eq_dec : EqDecision server_packet.
Proof. solve_decision. Defined.
#[global] Instance effect_eq_dec : EqDecision effect.
Proof. solve_decision. Defined.

(** ** The handler monad

  A computation reads and writes the globals, emits effects in order and
  either returns or raises a Python exception ([KeyError], [ValueError]);
  what it wrote and emitted before raising stays. *)

Inductive outcome (A : Type) :=
  | Returned (a : A) (s : state) (out : list effect)
  | Raised (s : state) (out : list effect).
Arguments Returned {A} a s out.
Arguments Raised {A} s out.

Definition M (A : Type) : Type := state → outcome A.

Definition final_state {A} (o : outcome A) : state :=
  match o with Returned _ s _ => s | Raised s _ => s end.

Definition emitted {A} (o : outcome A) : list effect :=
  match o with Returned _ _ out => out | Raised _ out => out end.

Definition has_raised {A} (o : outcome A) : bool :=
  match o with Returned _ _ _ => false | Raised _ _ => true end.

Definition ret {A} (a : A) : M A := λ s, Returned a s [].

Definition bind {A B} (m : M A) (k : A → M B) : M B := λ s,
  match m s with
  | Returned a s1 out1 =>
      match k a s1 with
      | Returned b s2 out2 => Returned b s2 (out1 ++ out2)
      | Raised s2 out2 => Raised s2 (out1 ++ out2)
      end
  | Raised s1 out1 => Raised s1 out1
  end.

#[global] Instance M_ret : MRet M := @ret.
#[global] Instance M_bind : MBind M := λ A B k m, bind m k.

Definition raise {A} : M A := λ s, Raised s [].
Definition get_state : M state := λ s, Returned s s [].
Definition modify (f : state → state) : M unit := λ s, Returned tt (f s) [].
Definition emit (out : list effect) : M unit := λ s, Returned tt s out.

(** [send(conn, pkt)] *)
Definition send (c : conn_id) (p : server_packet) : M unit := emit [Send c p].
Definition close (c : conn_id) : M unit := emit [Close c].

(** ** Helpers *)

Definition with_db (f : document → document) (s : state) : state :=
  {| db := f (db s); clients := clients s; room_users := room_users s |}.

Definition with_rooms (f : gmap string room → gmap string room) (d : document) : document :=
  {| users := users d; rooms := f (rooms d); dm_history := dm_history d |}.

Definition with_users (f : gmap string user → gmap string user) (d : document) : document :=
  {| users := f (users d); rooms := rooms d; dm_history := dm_history d |}.

Definition with_dm_history
    (f : gmap string (list dm_entry) → gmap string (list dm_entry)) (d : document) : document :=
  {| users := users d; rooms := rooms d; dm_history := f (dm_history d) |}.

Definition with_clients (f : gmap string session → gmap string session) (s : state) : state :=
  {| db := db s; clients := f (clients s); room_users := room_users s |}.

Definition with_room_users
    (f : gmap string (gset string) → gmap string (gset string)) (s : state) : state :=
  {| db := db s; clients := clients s; room_users := f (room_users s) |}.

(** [room_users[rm]] of the [defaultdict(set)]: a missing key reads as the
    empty set. *)
Definition members (s : state) (rm : string) : gset string :=
  default ∅ (room_users s !! rm).

(** [clients[username]]; a missing key is a [KeyError]. *)
Definition session_of (username : string) : M session := λ s,
  match clients s !! username with
  | Some info => Returned info s []
  | None => Raised s []
  end.

(** The loop shared by [broadcast_room] and [broadcast_all]: skip the
    excluded name, look the session up again, send if it is still there. *)
Fixpoint deliver_to (s : state) (targets : list string) (pkt : server_packet)
    (exclude : option string) : list effect :=
  match targets with
  | [] => []
  | uname :: rest =>
      (if decide (exclude = Some uname) then []
       else match clients s !! uname with
            | Some info => [Send (s_conn info) pkt]
            | None => []
            end) ++ deliver_to s rest pkt exclude
  end.

(** [broadcast_room(room, pkt, exclude)]; the targets are the snapshot
    [list(room_users.get(room, []))], in the set's iteration order. *)
Definition broadcast_room (rm : string) (pkt : server_packet) (exclude : option string)
    : M unit :=
  s ← get_state; emit (deliver_to s (elements (members s rm)) pkt exclude).

(** [online_list()]: the keys of [clients].  Python lists them in the
    order the sessions were inserted; [elements] stands for that list up to
    its order. *)
Definition online_list (s : state) : list string := elements (dom (clients s)).

(** [broadcast_all(pkt, exclude)] *)
Definition broadcast_all (pkt : server_packet) (exclude : option string) : M unit :=
  s ← get_state; emit (deliver_to s (online_list s) pkt exclude).

(** [room_list_payload()]; the rooms come in the order of the dict, for
    which [map_to_list] stands up to the order. *)
Definition room_list_payload (s : state) : list room_info :=
  (λ nd : string * room,
     RoomInfo nd.1 (r_topic nd.2) (size (members s nd.1)) (r_owner nd.2))
  <$> map_to_list (rooms (db s)).

Definition ROOM_CAP : Z := 500.
Definition DM_CAP : Z := 200.

(** The history after [h.append(entry)] and the cap test of
    [append_history]: beyond 500 entries keep [h[-500:]]. *)
Definition push_room_history (h : list message) (entry : message) : list message :=
  let h1 := h ++ [entry] in
  if ROOM_CAP <? Z.of_nat (length h1) then slice_from (- ROOM_CAP) h1 else h1.

(** [append_history(room, entry)]; [db["rooms"][room]] is a [KeyError] for
    a room that is not in the document. *)
Definition append_history (rm : string) (entry : message) : M unit :=
  s ← get_state;
  match rooms (db s) !! rm with
  | None => raise
  | Some r =>
      modify (with_db (with_rooms
        (<[rm := Room (r_topic r) (push_room_history (r_history r) entry) (r_owner r)]>)))
  end.

(** ** Actions *)

(** The critical section of [_join_room]: leave the old room's set, enter
    the new one, record the new room in the session. *)
Definition move_member (username : string) (info : session) (room_name : string)
    (s : state) : state :=
  let old_room := s_room info in
  let s1 := with_room_users (λ ru, <[old_room := members s old_room ∖ {[username]}]> ru) s in
  let s2 := with_room_users (λ ru, <[room_name := members s1 room_name ∪ {[username]}]> ru) s1 in
  with_clients (<[username := Session (s_conn info) room_name]>) s2.

(** [_join_room(username, conn, room_name, silent)].  The [users] of the
    [joined] record are [list(room_users[room_name])], in the iteration
    order of the set; [elements] stands for that list up to its order. *)
Definition _join_room (username : string) (conn : conn_id) (room_name : string)
    (silent : bool) : M unit :=
  s ← get_state;
  match rooms (db s) !! room_name with
  | None => send conn (SSystem (RoomDoesNotExist room_name))
  | Some r =>
      info ← session_of username;
      let old_room := s_room info in
      if decide (old_room = room_name) then
        send conn (SSystem (AlreadyInRoom room_name))
      else
        modify (move_member username info room_name);;
        (if silent then ret tt
         else broadcast_room old_room (SSystem (LeftRoom username old_room)) (Some username));;
        broadcast_room room_name (SSystem (JoinedRoom username room_name)) (Some username);;
        s' ← get_state;
        send conn (SJoined room_name (r_topic r) (slice_from (-50) (r_history r))
                     (elements (members s' room_name)))
  end.

(** [_handle_msg(username, conn, pkt)] *)
Definition _handle_msg (username : string) (conn : conn_id) (pkt : packet) (now : clock)
    : M unit :=
  info ← session_of username;
  let rm := s_room info in
  let text := Text.strip (get_or "" (p_text pkt)) in
  if Text.is_empty text then ret tt
  else if 1000 <? Text.len text then send conn (SSystem MessageTooLong)
  else
    let entry := Message username text (now_ts now) in
    append_history rm entry;;
    broadcast_room rm (SMsg rm entry) None.

(** [_create_room(username, conn, pkt)].  Between storing the room and
    telling everyone, the source calls [log] with the username and the
    name; its [print] cannot fail on ASCII text and writes nothing that is
    modelled, so it is left out here and statements about an accepted
    [create_room] take the name as ASCII. *)
Definition _create_room (username : string) (conn : conn_id) (pkt : packet) : M unit :=
  let name := Text.spaces_to_hyphens (Text.lower (Text.strip (get_or "" (p_name pkt)))) in
  let topic := Text.prefix 200 (Text.strip (get_or "" (p_topic pkt))) in
  if Text.is_empty name || (Text.len name <? 2) then
    send conn (SSystem RoomNameTooShort)
  else
    s ← get_state;
    match rooms (db s) !! name with
    | Some _ => send conn (SSystem (RoomAlreadyExists name))
    | None =>
        modify (with_db (with_rooms (<[name := Room topic [] username]>)));;
        broadcast_all (SRoomCreated name topic username) None;;
        _join_room username conn name false
    end.

(** The eviction loop of [_delete_room]. *)
Fixpoint evict_all (evicted : list string) : M unit :=
  match evicted with
  | [] => ret tt
  | uname :: rest =>
      s ← get_state;
      match clients s !! uname with
      | Some info => _join_room uname (s_conn info) "general" false
      | None => ret tt
      end;;
      evict_all rest
  end.

Definition default_rooms : list string := ["general"; "random"; "tech"].

(** [_delete_room(username, conn, pkt)] *)
Definition _delete_room (username : string) (conn : conn_id) (pkt : packet) : M unit :=
  let name := Text.lower (Text.strip (get_or "" (p_name pkt))) in
  s ← get_state;
  match rooms (db s) !! name with
  | None => send conn (SSystem (RoomNotFound name))
  | Some r =>
      if decide (r_owner r ≠ username) then send conn (SSystem OnlyOwnerCanDelete)
      else if decide (name ∈ default_rooms) then send conn (SSystem CannotDeleteDefault)
      else
        evict_all (elements (members s name));;
        modify (with_db (with_rooms (delete name)));;
        broadcast_all (SSystem (RoomWasDeleted name username)) None
  end.

(** [":".join(sorted([a, b]))] *)
Definition dm_key (a b : string) : string :=
  let ab := Text.sorted2 a b in ab.1 +:+ ":" +:+ ab.2.

(** The thread after [setdefault(key, []).append(entry)] and the cap test of
    [_handle_dm]: beyond 200 entries keep [h[-200:]]. *)
Definition push_dm_history (h : list dm_entry) (entry : dm_entry) : list dm_entry :=
  let h1 := h ++ [entry] in
  if DM_CAP <? Z.of_nat (length h1) then slice_from (- DM_CAP) h1 else h1.

(** [_handle_dm(username, conn, pkt)] *)
Definition _handle_dm (username : string) (conn : conn_id) (pkt : packet) (now : clock)
    : M unit :=
  let target := Text.lower (Text.strip (get_or "" (p_to pkt))) in
  let text := Text.strip (get_or "" (p_text pkt)) in
  if Text.is_empty target || Text.is_empty text then ret tt
  else if decide (target = username) then send conn (SSystem CannotDmYourself)
  else
    s ← get_state;
    let target_info := clients s !! target in
    let entry := DmEntry username target text (now_ts now) (now_full_ts now) in
    let key := dm_key username target in
    modify (with_db (with_dm_history
      (λ dh, <[key := push_dm_history (default [] (dh !! key)) entry]> dh)));;
    send conn (SDm entry);;
    match target_info with
    | Some ti => send (s_conn ti) (SDm entry)
    | None => send conn (SSystem (TargetOffline target))
    end.

(** [_send_history(username, conn, pkt)] *)
Definition _send_history (username : string) (conn : conn_id) (pkt : packet) : M unit :=
  rm ← match p_room pkt with
       | Some r => if Text.is_empty r then info ← session_of username; ret (s_room info) else ret r
       | None => info ← session_of username; ret (s_room info)
       end;
  requested ← match p_limit pkt with
              | LimAbsent => ret 50
              | LimInt z => ret z
              | LimInvalid => raise
              end;
  let limit := Z.min requested 200 in
  s ← get_state;
  match rooms (db s) !! rm with
  | None => send conn (SSystem (RoomNotFound rm))
  | Some r => send conn (SHistory rm (slice_from (- limit) (r_history r)))
  end.

(** [_send_dm_history(username, conn, pkt)] *)
Definition _send_dm_history (username : string) (conn : conn_id) (pkt : packet) : M unit :=
  let target := Text.lower (Text.strip (get_or "" (p_with pkt))) in
  let key := dm_key username target in
  s ← get_state;
  let msgs := slice_from (-50) (default [] (dm_history (db s) !! key)) in
  send conn (SDmHistory target msgs).

(** [_whois(username, conn, pkt)]; the room of an offline target (a dash
    in the source) is [None]. *)
Definition _whois (username : string) (conn : conn_id) (pkt : packet) : M unit :=
  let target := Text.lower (Text.strip (get_or "" (p_user pkt))) in
  s ← get_state;
  match users (db s) !! target with
  | None => send conn (SSystem (NoSuchUser target))
  | Some u =>
      let rm := s_room <$> clients s !! target in
      send conn (SWhois target (u_joined u) (u_bio u) (bool_decide (is_Some rm)) rm)
  end.

(** The [set_bio] branch of the message loop. *)
Definition set_bio (username : string) (conn : conn_id) (pkt : packet) : M unit :=
  let bio := Text.prefix 200 (get_or "" (p_bio pkt)) in
  s ← get_state;
  match users (db s) !! username with
  | None => raise
  | Some u =>
      modify (with_db (with_users (<[username := User (u_pw u) (u_joined u) bio]>)));;
      send conn (SSystem BioUpdated)
  end.

(** [_disconnect(username, conn)]; [username] is [None] when the handler
    never authenticated. *)
Definition drop_session (username : string) (s : state) : state :=
  let rm := default "general" (s_room <$> clients s !! username) in
  with_clients (delete username)
    (with_room_users (λ ru, <[rm := members s rm ∖ {[username]}]> ru) s).

Definition _disconnect (username : option string) (conn : conn_id) : M unit :=
  match username with
  | Some u =>
      modify (drop_session u);;
      broadcast_all (SSystem (WentOffline u)) None
  | None => ret tt
  end;;
  close conn.

(** One turn of the message loop of [handle_client]: the [if]/[elif] chain
    on the record's [type].  The chain has no final [else]. *)
Definition dispatch (username : string) (conn : conn_id) (pkt : packet) (now : clock)
    : M unit :=
  let t := p_type pkt in
  if decide (t = Some "msg") then _handle_msg username conn pkt now
  else if decide (t = Some "join") then _join_room username conn (get_or "general" (p_room pkt)) true
  else if decide (t = Some "create_room") then _create_room username conn pkt
  else if decide (t = Some "delete_room") then _delete_room username conn pkt
  else if decide (t = Some "dm") then _handle_dm username conn pkt now
  else if decide (t = Some "history") then _send_history username conn pkt
  else if decide (t = Some "dm_history") then _send_dm_history username conn pkt
  else if decide (t = Some "rooms") then
    s ← get_state; send conn (SRooms (room_list_payload s))
  else if decide (t = Some "online") then
    s ← get_state; send conn (SOnline (online_list s))
  else if decide (t = Some "whois") then _whois username conn pkt
  else if decide (t = Some "set_bio") then set_bio username conn pkt
  else if decide (t = Some "ping") then send conn SPong
  else ret tt.

(** The record kinds the chain of [dispatch] has a branch for. *)
Definition handled_types : list string :=
  ["msg"; "join"; "create_room"; "delete_room"; "dm"; "history"; "dm_history";
   "rooms"; "online"; "whois"; "set_bio"; "ping"].

(** ** Names for what the handlers compute *)

(** The text [_handle_msg] works with. *)
Definition msg_text (pkt : packet) : string := Text.strip (get_or "" (p_text pkt)).

(** The names [_handle_dm] and [_send_dm_history] work with. *)
Definition dm_target (pkt : packet) : string := Text.lower (Text.strip (get_or "" (p_to pkt))).
Definition dm_peer (pkt : packet) : string := Text.lower (Text.strip (get_or "" (p_with pkt))).

(** The stored thread between [a] and [b]. *)
Definition dm_thread (s : state) (a b : string) : list dm_entry :=
  default [] (dm_history (db s) !! dm_key a b).

(** The name [_delete_room] works with. *)
Definition delete_target (pkt : packet) : string :=
  Text.lower (Text.strip (get_or "" (p_name pkt))).

(** The room a [history] record asks about: the [room] field, or the
    recorded room when the field is absent or empty. *)
Definition history_room (pkt : packet) (info : session) : string :=
  match p_room pkt with
  | Some r => if Text.is_empty r then s_room info else r
  | None => s_room info
  end.

(** The name the AUTH block works with. *)
Definition auth_name (auth : packet) : string :=
  Text.lower (Text.strip (get_or "" (p_username auth))).

(** The test on the name that opens the AUTH block, passed. *)
Definition name_ok (uname : string) : Prop :=
  Text.is_empty uname || (Text.len uname <? 2) = false.

(** No blank at the front. *)
Definition starts_clean (s : string) : Prop :=
  match s with EmptyString => True | String c _ => Text.is_space c = false end.

(** A name is in the form the handlers look names up in. *)
Definition normalized (name : string) : Prop := Text.lower (Text.strip name) = name.

(** The [n] most recent entries of [l], oldest first. *)
Definition most_recent {A} (n : nat) (l : list A) : list A := drop (length l - n) l.

(** The entries answered for a requested limit [z]. *)
Definition history_answer (z : Z) (h : list message) : list message :=
  if 0 <? z then most_recent (Z.to_nat (Z.min z 200)) h
  else drop (Z.to_nat (- z)) h.

(** The notice a [delete_room] aimed at a default room is answered with. *)
Definition default_room_notice (s : state) (requester name : string) : notice :=
  match rooms (db s) !! name with
  | None => RoomNotFound name
  | Some r =>
      if decide (r_owner r = requester) then CannotDeleteDefault else OnlyOwnerCanDelete
  end.

(** The notice [_join_room] answers the automatic join with. *)
Definition auto_join_notice (s : state) : notice :=
  match rooms (db s) !! "general" with
  | Some _ => AlreadyInRoom "general"
  | None => RoomDoesNotExist "general"
  end.

(** The globals after [entry] went into the history of [rm]. *)
Definition with_message (rm : string) (r : room) (entry : message) (s : state) : state :=
  with_db (with_rooms
    (<[rm := Room (r_topic r) (push_room_history (r_history r) entry) (r_owner r)]>)) s.

(** The globals after [entry] went into the thread under [key]. *)
Definition with_dm (key : string) (entry : dm_entry) (s : state) : state :=
  with_db (with_dm_history
    (λ dh, <[key := push_dm_history (default [] (dh !! key)) entry]> dh)) s.

(** ** The connection handler *)

Section Handler.

(** [hash_pw]: SHA-256 of the password, as a hex string.  The call of
    [pw.encode()] it starts with fails on text that UTF-8 cannot encode (a
    lone surrogate); it cannot fail on ASCII text, for which this total
    function stands. *)
Variable hash_pw : string → string.

(** A negative [auth] record followed by [conn.close(); return]. *)
Definition reject (conn : conn_id) (why : auth_error) : M (option string) :=
  send conn (SAuthFail why);; close conn;; ret None.

(** The AUTH block of [handle_client] up to [username = uname]: the result
    is the authenticated name, or [None] after an early [return]. *)
Definition authenticate (conn : conn_id) (auth : packet) (now : clock)
    : M (option string) :=
  let action := p_action auth in
  let uname := Text.lower (Text.strip (get_or "" (p_username auth))) in
  let pw := get_or "" (p_password auth) in
  if Text.is_empty uname || (Text.len uname <? 2) then reject conn ShortUsername
  else if decide (action = Some "register") then
    s ← get_state;
    match users (db s) !! uname with
    | Some _ => reject conn UsernameTaken
    | None =>
        modify (with_db (with_users (<[uname := User (hash_pw pw) (now_full_ts now) ""]>)));;
        ret (Some uname)
    end
  else if decide (action = Some "login") then
    s ← get_state;
    match users (db s) !! uname with
    | None => reject conn UserNotFound
    | Some u =>
        if decide (u_pw u ≠ hash_pw pw) then reject conn WrongPassword
        else if decide (is_Some (clients s !! uname)) then reject conn AlreadyLoggedIn
        else ret (Some uname)
    end
  else reject conn UnknownAction.

(** The rest of the AUTH block: create the session with room "general",
    acknowledge, join "general", notify the others. *)
Definition open_session (username : string) (conn : conn_id) : M unit :=
  modify (with_clients (<[username := Session conn "general"]>));;
  s ← get_state;
  send conn (SAuthOk username (room_list_payload s) (online_list s));;
  _join_room username conn "general" false;;
  broadcast_all (SSystem (CameOnline username)) (Some username).

(** The server: the globals and the live handler threads, each with its
    local [conn] (the key) and [username]. *)
Record world := World { globals : state; threads : gmap conn_id string }.

(** [db = load_data()] and the empty runtime state. *)
Definition boot (d : document) : world :=
  {| globals := State d ∅ ∅; threads := ∅ |}.

Inductive event :=
  | Connect (c : conn_id) (auth : packet) (now : clock)
      (* a new connection delivers its first record *)
  | Receive (c : conn_id) (pkt : packet) (now : clock)
      (* [recv_pkt()] returns a record in the message loop *)
  | Lost (c : conn_id).
      (* [recv_pkt()] raises: peer closed, reset, or undecodable JSON; before
         the first record was read when [c] has no thread yet *)

(** Run the [finally] clause after the handler of [username] stopped. *)
Definition finish (username : option string) (conn : conn_id) (s : state)
    (out : list effect) : state * list effect :=
  let o := _disconnect username conn s in (final_state o, out ++ emitted o).

(** [handle_client] from the first record to the start of the loop, run
    without another thread in between.  The source tests the name in one
    critical section and inserts the session in another; the two halves are
    [auth_checks] and [auth_opens] below, and the last part of the file
    lets other threads run between them. *)
Definition handle_connect (w : world) (c : conn_id) (auth : packet) (now : clock)
    : world * list effect :=
  match authenticate c auth now (globals w) with
  | Raised s out =>
      let r := finish None c s out in (World r.1 (threads w), r.2)
  | Returned None s out =>
      let r := finish None c s out in (World r.1 (threads w), r.2)
  | Returned (Some username) s out =>
      match open_session username c s with
      | Returned _ s' out' => (World s' (<[c := username]> (threads w)), out ++ out')
      | Raised s' out' =>
          let r := finish (Some username) c s' (out ++ out') in
          (World r.1 (threads w), r.2)
      end
  end.



(** One turn of the message loop in the thread of [c]. *)
Definition handle_receive (w : world) (c : conn_id) (username : string) (pkt : packet)
    (now : clock) : world * list effect :=
  match dispatch username c pkt now (globals w) with
  | Returned _ s out => (World s (threads w), out)
  | Raised s out =>
      let r := finish (Some username) c s out in
      (World r.1 (delete c (threads w)), r.2)
  end.

(** The handler thread of [c] ends on a transport or framing error. *)
Definition handle_lost (w : world) (c : conn_id) (username : string)
    : world * list effect :=
  let r := finish (Some username) c (globals w) [] in
  (World r.1 (delete c (threads w)), r.2).

(** A connection fails before it delivered its first record. *)
Definition handle_refused (w : world) (c : conn_id) : world * list effect :=
  let r := finish None c (globals w) [] in (World r.1 (threads w), r.2).

(** One step of the server; [None] when the event cannot happen in [w]. *)
Definition step (w : world) (ev : event) : option (world * list effect) :=
  match ev with
  | Connect c auth now =>
      match threads w !! c with
      | None => Some (handle_connect w c auth now)
      | Some _ => None
      end
  | Receive c pkt now =>
      username ← threads w !! c; Some (handle_receive w c username pkt now)
  | Lost c =>
      match threads w !! c with
      | Some username => Some (handle_lost w c username)
      | None => Some (handle_refused w c)
      end
  end.

(** Run a sequence of events, collecting what was sent. *)
Fixpoint run (w : world) (evs : list event) : option (world * list effect) :=
  match evs with
  | [] => Some (w, [])
  | ev :: rest =>
      match step w ev with
      | None => None
      | Some (w1, out1) =>
          match run w1 rest with
          | None => None
          | Some (w2, out2) => Some (w2, out1 ++ out2)
          end
      end
  end.

(** The worlds the server can be in after starting from document [d]. *)
Inductive reachable (d : document) : world → Prop :=
  | reachable_boot : reachable d (boot d)
  | reachable_step w ev w' out :
      reachable d w → step w ev = Some (w', out) → reachable d w'.

(** The three ways [authenticate] can end. *)
Inductive auth_result (s : state) (c : conn_id) (auth : packet) (now : clock)
    : outcome (option string) → Prop :=
  | auth_rejected why :
      (why = AlreadyLoggedIn →
         p_action auth = Some "login" ∧ is_Some (clients s !! auth_name auth) ∧
         ∃ usr, users (db s) !! auth_name auth = Some usr ∧
                u_pw usr = hash_pw (get_or "" (p_password auth))) →
      auth_result s c auth now (Returned None s [Send c (SAuthFail why); Close c])
  | auth_registered :
      name_ok (auth_name auth) →
      p_action auth = Some "register" →
      users (db s) !! auth_name auth = None →
      auth_result s c auth now
        (Returned (Some (auth_name auth))
           (with_db (with_users
              (<[auth_name auth :=
                   User (hash_pw (get_or "" (p_password auth))) (now_full_ts now) ""]>)) s)
           [])
  | auth_logged_in usr :
      name_ok (auth_name auth) →
      p_action auth = Some "login" →
      users (db s) !! auth_name auth = Some usr →
      u_pw usr = hash_pw (get_or "" (p_password auth)) →
      clients s !! auth_name auth = None →
      auth_result s c auth now (Returned (Some (auth_name auth)) s []).

End Handler.

(** ** Primitive updates of the message loop

    Every write a [dispatch] turn makes to the globals is one of these. *)

Inductive update : state → state → Prop :=
  | upd_move s u info rm :
      clients s !! u = Some info → s_room info ≠ rm → is_Some (rooms (db s) !! rm) →
      update s (move_member u info rm s)
  | upd_append s rm r e :
      rooms (db s) !! rm = Some r →
      update s (with_db (with_rooms
        (<[rm := Room (r_topic r) (push_room_history (r_history r) e) (r_owner r)]>)) s)
  | upd_create s name topic owner :
      rooms (db s) !! name = None →
      update s (with_db (with_rooms (<[name := Room topic [] owner]>)) s)
  | upd_delete s name :
      name ∉ default_rooms →
      update s (with_db (with_rooms (delete name)) s)
  | upd_dm s key e :
      update s (with_db (with_dm_history
        (λ dh, <[key := push_dm_history (default [] (dh !! key)) e]> dh)) s)
  | upd_bio s u usr bio :
      users (db s) !! u = Some usr →
      update s (with_db (with_users (<[u := User (u_pw usr) (u_joined usr) bio]>)) s).

Definition evolves {A} (m : M A) : Prop := ∀ s, rtc update s (final_state (m s)).

(** ** Invariants *)

Definition conn_of (s : state) : gmap string conn_id := s_conn <$> clients s.

(** The thread of connection [c] runs for [u] exactly when the session of
    [u] holds the handle [c]. *)
Definition sessions_match (w : world) : Prop :=
  ∀ c u, threads w !! c = Some u ↔ conn_of (globals w) !! u = Some c.

(** Whoever is online has an account, under a trimmed, lower-case name that
    passed the test of the AUTH block. *)
Definition accounts_cover (s : state) : Prop :=
  ∀ u, is_Some (clients s !! u) →
       is_Some (users (db s) !! u) ∧ name_ok u ∧ normalized u.

Definition consistent (w : world) : Prop :=
  sessions_match w ∧ accounts_cover (globals w).

(** What a turn of the message loop leaves alone: who is online on which
    handle, and the accounts that exist. *)
Definition quiet (s s' : state) : Prop :=
  conn_of s' = conn_of s ∧
  ∀ u, is_Some (users (db s) !! u) → is_Some (users (db s') !! u).


(** The session of a username is the one its handler thread opened. *)
Definition registry_agrees (w : world) : Prop :=
  ∀ c u, threads w !! c = Some u ↔ ∃ rm, clients (globals w) !! u = Some (Session c rm).

(** Every stored history is within its cap. *)
Definition caps_ok (d : document) : Prop :=
  (∀ rm r, rooms d !! rm = Some r → Z.of_nat (length (r_history r)) ≤ ROOM_CAP) ∧
  (∀ key h, dm_history d !! key = Some h → Z.of_nat (length h) ≤ DM_CAP).

(** Whoever is in a room's membership set is online with that room
    recorded in the session. *)
Definition members_located (s : state) : Prop :=
  ∀ rm u, u ∈ members s rm → ∃ c, clients s !! u = Some (Session c rm).

(** The recorded room and the membership sets agree for everyone online:
    [u] is in the set of the recorded room and in no other. *)
Definition rooms_agree (s : state) : Prop :=
  ∀ u info, clients s !! u = Some info → ∀ rm, u ∈ members s rm ↔ rm = s_room info.

(** ** Sample traffic *)

Module Sample.

(** A stand-in for SHA-256 where a concrete function is needed. *)
Definition toy_hash (pw : string) : string := "sha256:" +:+ pw.

Definition noon : clock := Clock "12:00" "2026-01-01 12:00:00".

Definition register_pkt (u pw : string) : packet :=
  Packet None (Some "register") (Some u) (Some pw)
    None None None None None None LimAbsent None None.

Definition login_pkt (u pw : string) : packet :=
  Packet None (Some "login") (Some u) (Some pw)
    None None None None None None LimAbsent None None.

Definition typed (t : string) : packet :=
  Packet (Some t) None None None None None None None None None LimAbsent None None.

Definition msg_pkt (text : string) : packet :=
  Packet (Some "msg") None None None (Some text) None None None None None LimAbsent None None.

Definition join_pkt (rm : string) : packet :=
  Packet (Some "join") None None None None (Some rm) None None None None LimAbsent None None.

Definition delete_room_pkt (name : string) : packet :=
  Packet (Some "delete_room") None None None None None (Some name)
    None None None LimAbsent None None.

Definition dm_pkt (to text : string) : packet :=
  Packet (Some "dm") None None None (Some text) None None None (Some to) None
    LimAbsent None None.

Definition dm_history_pkt (peer : string) : packet :=
  Packet (Some "dm_history") None None None None None None None None (Some peer)
    LimAbsent None None.

Definition history_pkt (limit : Z) : packet :=
  Packet (Some "history") None None None None None None None None None
    (LimInt limit) None None.

(** A fresh server after [alice] registered on connection 1. *)
Definition alice_account (hash_pw : string → string) : user :=
  User (hash_pw "pw1") "2026-01-01 12:00:00" "".

Definition alice_online (hash_pw : string → string) : world :=
  {| globals :=
       {| db := with_users (<["alice" := alice_account hash_pw]>) default_document;
          clients := {["alice" := Session 1 "general"]};
          room_users := ∅ |};
     threads := {[1%nat := "alice"]} |}.

(** What connection 1 receives when [alice] registers on a fresh server. *)
Definition alice_welcome : list effect :=
  [Send 1 (SAuthOk "alice"
     [RoomInfo "general" "General chat for everyone" 0 "system";
      RoomInfo "random" "Random topics" 0 "system";
      RoomInfo "tech" "Technology discussions" 0 "system"]
     ["alice"]);
   Send 1 (SSystem (AlreadyInRoom "general"))].

Definition said (text : string) : message := Message "alice" text "12:00".

(** [alice_online] after [alice] sent the given room messages. *)
Definition alice_after (hash_pw : string → string) (texts : list string) : world :=
  {| globals :=
       with_db (with_rooms
         (<["general" := Room "General chat for everyone" (said <$> texts) "system"]>))
         (globals (alice_online hash_pw));
     threads := threads (alice_online hash_pw) |}.

(** [alice_online] after [bob] registered on connection 2. *)
Definition bob_account (hash_pw : string → string) : user :=
  User (hash_pw "pw2") "2026-01-01 12:00:00" "".

Definition both_online (hash_pw : string → string) : world :=
  {| globals :=
       {| db := with_users (<["bob" := bob_account hash_pw]>)
                  (with_users (<["alice" := alice_account hash_pw]>) default_document);
          clients := <["bob" := Session 2 "general"]> {["alice" := Session 1 "general"]};
          room_users := ∅ |};
     threads := <[2%nat := "bob"]> {[1%nat := "alice"]} |}.

(** [alice_online] after a user who picked the name "system" registered on
    connection 7. *)
Definition system_online (hash_pw : string → string) : world :=
  {| globals :=
       {| db := with_users (<["system" := User (hash_pw "pw7") "2026-01-01 12:00:00" ""]>)
                  (with_users (<["alice" := alice_account hash_pw]>) default_document);
          clients := <["system" := Session 7 "general"]> {["alice" := Session 1 "general"]};
          room_users := ∅ |};
     threads := <[7%nat := "system"]> {[1%nat := "alice"]} |}.

(** [bob] writes to [alice]. *)
Definition greeting_pkt : packet := dm_pkt "Alice" " hi ".
Definition greeting : dm_entry := DmEntry "bob" "alice" "hi" "12:00" "2026-01-01 12:00:00".

(** A room message of 1001 characters. *)
Definition long_pkt : packet := msg_pkt (Text.replicate_char 1001 "a").

(** The room "general" with three messages of [alice]. *)
Definition three_said : room :=
  Room "General chat for everyone" (said <$> ["one"; "two"; "three"]) "system".

End Sample.

(** ** Stated properties the code does not have *)

(** C6 as stated, at one request: the request is answered "Cannot delete
    default rooms.". *)
Definition answered_protected (s : state) (requester : string) (c : conn_id)
    (pkt : packet) : Prop :=
  emitted (_delete_room requester c pkt s) = [Send c (SSystem CannotDeleteDefault)].

(** C7 as stated, at one record: handling it ends the handler thread of the
    connection. *)
Definition terminates_connection (hash_pw : string → string) (w : world) (c : conn_id)
    (pkt : packet) (now : clock) : Prop :=
  ∃ w' out, step hash_pw w (Receive c pkt now) = Some (w', out) ∧ threads w' !! c = None.

(** C9 as stated, at one record: the sender is sent a [system] notice. *)
Definition sender_notified (hash_pw : string → string) (w : world) (c : conn_id)
    (pkt : packet) (now : clock) : Prop :=
  ∃ w' out n, step hash_pw w (Receive c pkt now) = Some (w', out) ∧
              Send c (SSystem n) ∈ out.

(** C10 as stated, at one request: the answer is the whole stored history
    of the requester's room. *)
Definition answered_whole_history (s : state) (u : string) (c : conn_id) (pkt : packet)
    : Prop :=
  ∀ info r, clients s !! u = Some info → rooms (db s) !! s_room info = Some r →
    emitted (_send_history u c pkt s) = [Send c (SHistory (s_room info) (r_history r))].

(** ** Framing of incoming records *)

Definition newline : ascii := "010"%char.

(** [buf.split("\n", 1)] when ["\n" in buf]: the text before the first
    newline and the text after it; [None] when [buf] has no newline. *)
Fixpoint split_line (buf : string) : option (string * string) :=
  match buf with
  | EmptyString => None
  | String c rest =>
      if Ascii.eqb c newline then Some (EmptyString, rest)
      else match split_line rest with
           | Some (line, tail) => Some (String c line, tail)
           | None => None
           end
  end.

(** How a call of [recv_pkt] ends. *)
Inductive received :=
  | Line (line buf : string) (pending : list string)
      (* the line handed to [json.loads], the new [buf], the chunks not read *)
  | ConnectionLost
      (* [conn.recv] returned the empty string: [ConnectionError] *)
  | Blocked (buf : string).
      (* no newline so far and the peer has sent nothing more *)

(** [recv_pkt()] of [handle_client], up to [json.loads]: [chunks] are the
    successive results of [conn.recv(BUFFER).decode()]. *)
Fixpoint recv_pkt (buf : string) (chunks : list string) {struct chunks} : received :=
  match split_line buf with
  | Some (line, rest) => Line line rest chunks
  | None =>
      match chunks with
      | [] => Blocked buf
      | chunk :: more =>
          if Text.is_empty chunk then ConnectionLost
          else recv_pkt (buf +:+ chunk) more
      end
  end.

(** All the chunks, glued. *)
Fixpoint glue (chunks : list string) : string :=
  match chunks with
  | [] => EmptyString
  | chunk :: more => chunk +:+ glue more
  end.

(** ["\n" in buf] *)
Fixpoint has_newline (buf : string) : bool :=
  match buf with
  | EmptyString => false
  | String c rest => Ascii.eqb c newline || has_newline rest
  end.

(** ** Text the client chooses

    On ASCII text the helpers of [Text] are Python's, [print] in [log] can
    encode what it is given and [encode] in [hash_pw] cannot fail. *)

(** The field, when present, is ASCII text. *)
Definition ascii_field (f : option string) : Prop := Text.is_ascii (get_or "" f) = true.

(** Every text field of the record is ASCII text. *)
Definition ascii_packet (pkt : packet) : Prop :=
  ascii_field (p_type pkt) ∧ ascii_field (p_action pkt) ∧ ascii_field (p_username pkt) ∧
  ascii_field (p_password pkt) ∧ ascii_field (p_text pkt) ∧ ascii_field (p_room pkt) ∧
  ascii_field (p_name pkt) ∧ ascii_field (p_topic pkt) ∧ ascii_field (p_to pkt) ∧
  ascii_field (p_with pkt) ∧ ascii_field (p_user pkt) ∧ ascii_field (p_bio pkt).

(** ** Further invariants *)

(** The recorded room of everyone online is a room of the document. *)
Definition sessions_in_rooms (s : state) : Prop :=
  ∀ u info, clients s !! u = Some info → is_Some (rooms (db s) !! s_room info).

(** Whoever is recorded in a room other than "general" is in that room's
    membership set. *)
Definition listed_unless_general (s : state) : Prop :=
  ∀ u info, clients s !! u = Some info → s_room info ≠ "general" →
            u ∈ members s (s_room info).

Definition has_general (d : document) : Prop := is_Some (rooms d !! "general").

Definition good (s : state) : Prop :=
  members_located s ∧ listed_unless_general s ∧ sessions_in_rooms s ∧ has_general (db s).

(** The writes of the message loop other than the removal of a room. *)
Inductive grow : state → state → Prop :=
  | grow_move s u info rm :
      clients s !! u = Some info → s_room info ≠ rm → is_Some (rooms (db s) !! rm) →
      grow s (move_member u info rm s)
  | grow_append s rm r e :
      rooms (db s) !! rm = Some r →
      grow s (with_message rm r e s)
  | grow_create s name topic owner :
      rooms (db s) !! name = None →
      grow s (with_db (with_rooms (<[name := Room topic [] owner]>)) s)
  | grow_dm s key e :
      grow s (with_dm key e s)
  | grow_bio s u usr bio :
      users (db s) !! u = Some usr →
      grow s (with_db (with_users (<[u := User (u_pw usr) (u_joined usr) bio]>)) s).

Definition grows {A} (m : M A) : Prop := ∀ s, rtc grow s (final_state (m s)).

(** The globals after [_join_room]. *)
Definition joined_state (username room_name : string) (s : state) : state :=
  match rooms (db s) !! room_name, clients s !! username with
  | Some _, Some info =>
      if decide (s_room info = room_name) then s else move_member username info room_name s
  | _, _ => s
  end.

(** One turn of the eviction loop of [_delete_room]. *)
Definition evicted_one (uname : string) (s : state) : state :=
  match clients s !! uname with
  | Some _ => joined_state uname "general" s
  | None => s
  end.

(** What [_join_room] sends when it moves [username] from the recorded room
    of [info] to [room_name]; [s'] are the globals after the move. *)
Definition join_effects (username : string) (conn : conn_id) (info : session)
    (room_name : string) (r : room) (silent : bool) (s' : state) : list effect :=
  (if silent then []
   else deliver_to s' (elements (members s' (s_room info)))
          (SSystem (LeftRoom username (s_room info))) (Some username))
  ++ deliver_to s' (elements (members s' room_name))
       (SSystem (JoinedRoom username room_name)) (Some username)
  ++ [Send conn (SJoined room_name (r_topic r) (slice_from (-50) (r_history r))
                   (elements (members s' room_name)))].

(** The name and the topic [_create_room] works with. *)
Definition create_target (pkt : packet) : string :=
  Text.spaces_to_hyphens (Text.lower (Text.strip (get_or "" (p_name pkt)))).
Definition create_topic (pkt : packet) : string :=
  Text.prefix 200 (Text.strip (get_or "" (p_topic pkt))).

(** The name [_whois] works with. *)
Definition whois_target (pkt : packet) : string :=
  Text.lower (Text.strip (get_or "" (p_user pkt))).

(** The globals after [_create_room] stored the new room. *)
Definition with_room (name topic owner : string) (s : state) : state :=
  with_db (with_rooms (<[name := Room topic [] owner]>)) s.

(** ** More sample traffic *)

Module Scenes.

Definition tech_room : room := Room "Technology discussions" [] "system".

Definition create_room_pkt (name topic : string) : packet :=
  Packet (Some "create_room") None None None None None (Some name) (Some topic)
    None None LimAbsent None None.

Definition whois_pkt (target : string) : packet :=
  Packet (Some "whois") None None None None None None None None None LimAbsent
    (Some target) None.

Definition set_bio_pkt (bio : string) : packet :=
  Packet (Some "set_bio") None None None None None None None None None LimAbsent
    None (Some bio).

(** A [history] record without a room: [limit] absent, and not an integer. *)
Definition plain_history_pkt : packet := Sample.typed "history".
Definition bad_history_pkt : packet :=
  Packet (Some "history") None None None None None None None None None LimInvalid
    None None.

(** [alice] and [bob] register, [alice] creates "Book Club", [bob] joins
    it. *)
Definition club_events : list event :=
  [Connect 1 (Sample.register_pkt "alice" "pw1") Sample.noon;
   Connect 2 (Sample.register_pkt "bob" "pw2") Sample.noon;
   Receive 1 (create_room_pkt "Book Club" " Reading together ") Sample.noon;
   Receive 2 (Sample.join_pkt "book-club") Sample.noon].

Definition club : world :=
  default (boot default_document)
    (fst <$> run Sample.toy_hash (boot default_document) club_events).

Definition club_room : room := Room "Reading together" [] "alice".


(** [bob] leaves "book-club" for "tech" and comes back. *)
Definition to_tech_pkt : packet := Sample.join_pkt "tech".
Definition to_club_pkt : packet := Sample.join_pkt "book-club".


(** [alice] opens a room and removes it again. *)
Definition open_attic_pkt : packet := create_room_pkt " Attic " "dusty".
Definition close_attic_pkt : packet := Sample.delete_room_pkt "ATTIC".

(** A [ping] line and the start of the next line, arriving in three
    pieces. *)
Definition pieces : list string := ["pi"; "ng" +:+ String newline "po"; "ng"].

(** [alice] and [bob] were online and the connection of [alice] was
    lost. *)
Definition bob_alone : world :=
  default (boot default_document)
    (fst <$> step Sample.toy_hash (Sample.both_online Sample.toy_hash) (Lost 1)).

(** [alice] drops out, somebody tries to register her name again, she logs
    in again and sets her bio. *)
Definition takeover_events : list event :=
  [Lost 1;
   Connect 3 (Sample.register_pkt " Alice " "other") Sample.noon;
   Connect 4 (Sample.login_pkt "alice" "pw1") Sample.noon;
   Receive 4 (set_bio_pkt "back again") Sample.noon].

End Scenes.

(** Two records of one account: the same credential and joined-at. *)
Definition same_account (usr usr' : user) : Prop :=
  u_pw usr' = u_pw usr ∧ u_joined usr' = u_joined usr.

(** The document has the account [usr] of [u], up to its bio. *)
Definition holds_account (u : string) (usr : user) (s : state) : Prop :=
  ∃ usr', users (db s) !! u = Some usr' ∧ same_account usr usr'.

(** A [history] record whose [limit] the call of [int] rejects. *)
Definition bad_history (pkt : packet) : Prop :=
  p_type pkt = Some "history" ∧ p_limit pkt = LimInvalid.

(** Writing to a socket, as opposed to closing it. *)
Definition is_send (e : effect) : Prop :=
  match e with Send _ _ => True | Close _ => False end.

(** A handler that closes no connection. *)
Definition sends_only {A} (m : M A) : Prop := ∀ s e, e ∈ emitted (m s) → is_send e.

(** [int(pkt.get("limit", 50))] of [_send_history]; [None] when [int]
    raises. *)
Definition history_limit (pkt : packet) : option Z :=
  match p_limit pkt with
  | LimAbsent => Some 50
  | LimInt z => Some z
  | LimInvalid => None
  end.

(** A handler that keeps [Q] true of the globals. *)
Definition keeps (Q : state → Prop) {A} (m : M A) : Prop :=
  ∀ s, Q s → Q (final_state (m s)).

(** A name without a blank and without an upper-case letter: what
    [lower()] and [replace(" ", "-")] leave alone. *)
Definition plain_name (rm : string) : Prop :=
  Text.spaces_to_hyphens (Text.lower rm) = rm.

(** Every room of the document has a plain name. *)
Definition names_plain (d : document) : Prop :=
  ∀ rm, is_Some (rooms d !! rm) → plain_name rm.

Definition rooms_plain (s : state) : Prop := names_plain (db s).

(** The sessions whose recorded room is [rm]. *)
Definition sessions_in (s : state) (rm : string) : gmap string session :=
  filter (λ kv : string * session, s_room kv.2 = rm) (clients s).

(** ** Authentications that overlap

    The AUTH block tests whether the name is online in one critical section
    (lines 175-178) and inserts the session in another (lines 184-185); the
    test of a [register] (lines 161-164) is in none.  Here the two halves of
    [handle_connect] are steps of their own, and any other thread may run
    between them.  The turns of the message loop and the end of a thread
    stay whole, as in [step]. *)


      (* [recv_pkt()] raises *)

Section Overlap.
Variable hash_pw : string → string.










End Overlap.


Module Race.




End Race.

(** * Properties *)

(** ** Proof tools *)

Ltac handler_unfold :=
  unfold mbind, M_bind, bind, mret, M_ret, ret, raise, get_state, modify, send, close, emit,
    session_of, broadcast_room, broadcast_all; simpl.

Lemma evolves_bind_at {A B} (m : M A) (k : A → M B) s :
  rtc update s (final_state (m s)) →
  (∀ a s1 out, m s = Returned a s1 out → rtc update s1 (final_state (k a s1))) →
  rtc update s (final_state ((m ≫= k) s)).
Proof.
  intros Hm Hk. unfold mbind, M_bind, bind.
  destruct (m s) as [a s1 o1|s1 o1] eqn:E; simpl in *; [|done].
  specialize (Hk a s1 o1 eq_refl).
  destruct (k a s1); simpl in *; by etrans.
Qed.

Lemma evolves_bind {A B} (m : M A) (k : A → M B) :
  evolves m → (∀ a, evolves (k a)) → evolves (m ≫= k).
Proof. intros Hm Hk s. apply evolves_bind_at; [apply Hm|]. intros. apply Hk. Qed.

Lemma join_room_evolves u c rm silent : evolves (_join_room u c rm silent).
Proof.
  intros s. unfold _join_room. handler_unfold.
  destruct (rooms (db s) !! rm) as [r|] eqn:Hr; simpl; [|done].
  destruct (clients s !! u) as [info|] eqn:Hu; simpl; [|done].
  case_decide; simpl; [done|].
  destruct silent; simpl; apply rtc_once; by constructor.
Qed.

Lemma append_history_evolves rm e : evolves (append_history rm e).
Proof.
  intros s. unfold append_history. handler_unfold.
  destruct (rooms (db s) !! rm) eqn:Hr; simpl; [|done].
  apply rtc_once. by constructor.
Qed.

Lemma read_only_evolves {A} (m : M A) :
  (∀ s, final_state (m s) = s) → evolves m.
Proof. intros H s. by rewrite H. Qed.

Lemma broadcast_room_evolves rm pkt ex : evolves (broadcast_room rm pkt ex).
Proof. by apply read_only_evolves. Qed.

Lemma broadcast_all_evolves pkt ex : evolves (broadcast_all pkt ex).
Proof. by apply read_only_evolves. Qed.

Lemma send_evolves c p : evolves (send c p).
Proof. by apply read_only_evolves. Qed.

Lemma ret_evolves {A} (a : A) : evolves (mret a : M A).
Proof. by apply read_only_evolves. Qed.

Lemma session_of_evolves u : evolves (session_of u).
Proof. apply read_only_evolves. intros s. unfold session_of. by destruct (clients s !! u). Qed.

Lemma handle_msg_evolves u c pkt now : evolves (_handle_msg u c pkt now).
Proof.
  unfold _handle_msg. apply evolves_bind; [apply session_of_evolves|]. intros info.
  destruct (Text.is_empty _); [apply ret_evolves|].
  destruct (1000 <? _); [apply send_evolves|].
  apply evolves_bind; [apply append_history_evolves|]. intros _.
  apply broadcast_room_evolves.
Qed.

Lemma create_room_evolves u c pkt : evolves (_create_room u c pkt).
Proof.
  unfold _create_room.
  destruct (_ || _); [apply send_evolves|].
  intros s. apply evolves_bind_at; [apply rtc_refl|]. intros s0 s1 out [= <- <- _].
  destruct (rooms (db s) !! _) eqn:Hr; [apply send_evolves|].
  apply evolves_bind_at; [apply rtc_once; exact (upd_create _ _ _ _ Hr)|]. intros _ s2 _ _.
  apply evolves_bind; [apply broadcast_all_evolves|]. intros _.
  apply join_room_evolves.
Qed.

Lemma evict_all_evolves l : evolves (evict_all l).
Proof.
  induction l as [|u l IH]; [apply ret_evolves|]. simpl.
  apply evolves_bind; [by apply read_only_evolves|]. intros s0.
  apply evolves_bind; [|intros _; apply IH].
  destruct (clients s0 !! u); [apply join_room_evolves|apply ret_evolves].
Qed.

Lemma delete_room_evolves u c pkt : evolves (_delete_room u c pkt).
Proof.
  unfold _delete_room.
  apply evolves_bind; [by apply read_only_evolves|]. intros s0.
  destruct (rooms (db s0) !! _); [|apply send_evolves].
  case_decide; [apply send_evolves|].
  case_decide; [apply send_evolves|].
  apply evolves_bind; [apply evict_all_evolves|]. intros _.
  apply evolves_bind; [|intros _; apply broadcast_all_evolves].
  intros s. apply rtc_once. by apply upd_delete.
Qed.

Lemma handle_dm_evolves u c pkt now : evolves (_handle_dm u c pkt now).
Proof.
  unfold _handle_dm.
  destruct (_ || _); [apply ret_evolves|].
  case_decide; [apply send_evolves|].
  apply evolves_bind; [by apply read_only_evolves|]. intros s0.
  apply evolves_bind; [intros s; apply rtc_once; apply upd_dm|]. intros _.
  apply evolves_bind; [apply send_evolves|]. intros _.
  destruct (clients s0 !! _); apply send_evolves.
Qed.

Lemma send_history_evolves u c pkt : evolves (_send_history u c pkt).
Proof.
  apply read_only_evolves. intros s. unfold _send_history. handler_unfold.
  destruct (p_room pkt) as [r|]; [destruct (Text.is_empty r)|]; simpl;
    destruct (clients s !! u); simpl; try done;
    destruct (p_limit pkt); simpl; try done;
    destruct (rooms (db s) !! _); done.
Qed.

Lemma set_bio_evolves u c pkt : evolves (set_bio u c pkt).
Proof.
  intros s. unfold set_bio. handler_unfold.
  destruct (users (db s) !! u) eqn:Hu; simpl; [|done].
  apply rtc_once. by constructor.
Qed.

Lemma whois_evolves u c pkt : evolves (_whois u c pkt).
Proof.
  apply read_only_evolves. intros s. unfold _whois. handler_unfold.
  by destruct (users (db s) !! _).
Qed.

Lemma dispatch_evolves u c pkt now : evolves (dispatch u c pkt now).
Proof.
  unfold dispatch.
  repeat (case_decide;
    [first [ apply handle_msg_evolves | apply join_room_evolves | apply create_room_evolves
           | apply delete_room_evolves | apply handle_dm_evolves | apply send_history_evolves
           | by apply read_only_evolves | apply whois_evolves | apply set_bio_evolves ] |]).
  apply ret_evolves.
Qed.

(** ** Trimming and lower-casing *)

Example strip_both_ends : Text.strip "  Book Club 	" = "Book Club".
Proof. reflexivity. Qed.

Example room_name_normal_form :
  Text.spaces_to_hyphens (Text.lower (Text.strip " Book Club ")) = "book-club".
Proof. reflexivity. Qed.

Example sorted2_orders : Text.sorted2 "bob" "alice" = ("alice", "bob").
Proof. reflexivity. Qed.

Example slice_last_two : slice_from (-2) [1; 2; 3] = [2; 3].
Proof. reflexivity. Qed.

Example slice_beyond_length : slice_from (-5) [1; 2; 3] = [1; 2; 3].
Proof. reflexivity. Qed.

Example slice_minus_zero : slice_from (- 0) [1; 2; 3] = [1; 2; 3].
Proof. reflexivity. Qed.

Example slice_positive_start : slice_from 1 [1; 2; 3] = [2; 3].
Proof. reflexivity. Qed.

Lemma is_space_lower_char c : Text.is_space (Text.lower_char c) = Text.is_space c.
Proof. destruct c as [[] [] [] [] [] [] [] []]; reflexivity. Qed.

Lemma lower_char_idem c : Text.lower_char (Text.lower_char c) = Text.lower_char c.
Proof. destruct c as [[] [] [] [] [] [] [] []]; reflexivity. Qed.

Lemma lower_idem s : Text.lower (Text.lower s) = Text.lower s.
Proof. induction s as [|c s IH]; simpl; [done|]. by rewrite lower_char_idem, IH. Qed.

Lemma lstrip_lower s : Text.lstrip (Text.lower s) = Text.lower (Text.lstrip s).
Proof.
  induction s as [|c s IH]; simpl; [done|].
  rewrite is_space_lower_char. by destruct (Text.is_space c).
Qed.

Lemma rstrip_lower s : Text.rstrip (Text.lower s) = Text.lower (Text.rstrip s).
Proof.
  induction s as [|c s IH]; simpl; [done|].
  rewrite IH, is_space_lower_char.
  destruct (Text.rstrip s); simpl; [by destruct (Text.is_space c)|done].
Qed.

Lemma strip_lower s : Text.strip (Text.lower s) = Text.lower (Text.strip s).
Proof. unfold Text.strip. by rewrite lstrip_lower, rstrip_lower. Qed.

Lemma lstrip_starts_clean s : starts_clean (Text.lstrip s).
Proof. induction s as [|c s IH]; simpl; [done|]. by destruct (Text.is_space c) eqn:E. Qed.

Lemma lstrip_clean s : starts_clean s → Text.lstrip s = s.
Proof. destruct s as [|c s]; simpl; [done|]. by intros ->. Qed.

Lemma rstrip_starts_clean s : starts_clean s → starts_clean (Text.rstrip s).
Proof.
  destruct s as [|c s]; simpl; [done|]. intros Hc.
  destruct (Text.rstrip s); simpl; [by rewrite Hc|done].
Qed.

Lemma rstrip_idem s : Text.rstrip (Text.rstrip s) = Text.rstrip s.
Proof.
  induction s as [|c s IH]; simpl; [done|].
  destruct (Text.rstrip s) as [|c' r] eqn:E.
  - destruct (Text.is_space c) eqn:Hc; simpl; [done|]. by rewrite Hc.
  - change (Text.rstrip (String c (String c' r))) with
      (match Text.rstrip (String c' r) with
       | EmptyString => if Text.is_space c then EmptyString else String c EmptyString
       | r' => String c r'
       end).
    by rewrite IH.
Qed.

Lemma strip_idem s : Text.strip (Text.strip s) = Text.strip s.
Proof.
  unfold Text.strip.
  rewrite (lstrip_clean (Text.rstrip (Text.lstrip s)))
    by apply rstrip_starts_clean, lstrip_starts_clean.
  apply rstrip_idem.
Qed.

Lemma lower_strip_normalized s : normalized (Text.lower (Text.strip s)).
Proof. unfold normalized. by rewrite strip_lower, strip_idem, lower_idem. Qed.

(** ** Authentication *)

Section Authentication.
Variable hash_pw : string → string.

Lemma authenticate_result s c auth now :
  auth_result hash_pw s c auth now (authenticate hash_pw c auth now s).
Proof.
  unfold authenticate, reject. fold (auth_name auth). handler_unfold.
  destruct (_ || _) eqn:Hname; [by constructor|].
  case_decide as Hreg.
  { destruct (users (db s) !! auth_name auth) eqn:Hu; simpl; [by constructor|].
    by apply auth_registered. }
  case_decide as Hlog; [|by constructor].
  destruct (users (db s) !! auth_name auth) as [usr|] eqn:Hu; simpl; [|by constructor].
  case_decide as Hpw; simpl; [by constructor|].
  case_decide as Hon; simpl.
  - constructor. intros _. eauto.
  - eapply auth_logged_in; eauto. by apply eq_None_not_Some.
Qed.

Lemma open_session_result username c s :
  let s1 := with_clients (<[username := Session c "general"]>) s in
  open_session username c s =
    Returned tt s1
      ([Send c (SAuthOk username (room_list_payload s1) (online_list s1));
        Send c (SSystem (auto_join_notice s))]
       ++ deliver_to s1 (online_list s1) (SSystem (CameOnline username)) (Some username)).
Proof.
  unfold open_session, _join_room, auto_join_notice. handler_unfold.
  destruct (rooms (db s) !! "general") eqn:Hr; simpl; [|reflexivity].
  rewrite lookup_insert_eq. reflexivity.
Qed.

End Authentication.

(** ** Sessions and handler threads *)

Lemma quiet_refl s : quiet s s.
Proof. by split. Qed.

Lemma quiet_trans s1 s2 s3 : quiet s1 s2 → quiet s2 s3 → quiet s1 s3.
Proof. intros [E1 U1] [E2 U2]. split; [by rewrite E2|auto]. Qed.

Lemma update_quiet s s' : update s s' → quiet s s'.
Proof.
  destruct 1 as [s u info rm Hu _ _| | | | |s u usr bio Hu]; split; simpl; try done.
  - unfold conn_of. simpl. rewrite fmap_insert. simpl. apply insert_id.
    by rewrite lookup_fmap, Hu.
  - intros u'. destruct (decide (u' = u)) as [->|Hne].
    + by rewrite lookup_insert_eq.
    + by rewrite lookup_insert_ne.
Qed.

Lemma evolution_quiet s s' : rtc update s s' → quiet s s'.
Proof.
  induction 1 as [|s1 s2 s3 H _ IH]; [apply quiet_refl|].
  eapply quiet_trans; [by apply update_quiet|done].
Qed.

Lemma disconnect_named u c s :
  _disconnect (Some u) c s =
    Returned tt (drop_session u s)
      (deliver_to (drop_session u s) (online_list (drop_session u s))
         (SSystem (WentOffline u)) None ++ [Close c]).
Proof. reflexivity. Qed.

Lemma disconnect_anonymous c s : _disconnect None c s = Returned tt s [Close c].
Proof. reflexivity. Qed.

Lemma conn_of_drop u s : conn_of (drop_session u s) = delete u (conn_of s).
Proof. unfold conn_of, drop_session. simpl. by rewrite fmap_delete. Qed.

Lemma online_conn_of s u : is_Some (clients s !! u) ↔ is_Some (conn_of s !! u).
Proof. unfold conn_of. rewrite lookup_fmap. symmetry. apply fmap_is_Some. Qed.

Lemma accounts_cover_quiet s s' : accounts_cover s → quiet s s' → accounts_cover s'.
Proof.
  intros Hc [Hq Hus] u Hon. apply online_conn_of in Hon. rewrite Hq in Hon.
  apply online_conn_of, Hc in Hon as [Hacc Hok]. auto.
Qed.

Lemma consistent_drop w c u s :
  consistent w → threads w !! c = Some u → quiet (globals w) s →
  consistent (World (drop_session u s) (delete c (threads w))).
Proof.
  intros [Hm Hc] Hcu Hquiet. unfold sessions_match in Hm. split.
  - destruct Hquiet as [Hq _].
    intros c' u'. simpl. rewrite conn_of_drop, Hq.
    destruct (decide (c' = c)) as [->|Hne].
    + rewrite lookup_delete_eq. split; [done|].
      destruct (decide (u' = u)) as [->|Hu]; [by rewrite lookup_delete_eq|].
      rewrite lookup_delete_ne by done. intros H. apply Hm in H. congruence.
    + rewrite lookup_delete_ne by done. rewrite Hm.
      destruct (decide (u' = u)) as [->|Hu]; [|by rewrite lookup_delete_ne].
      rewrite lookup_delete_eq. apply Hm in Hcu. split; [congruence|done].
  - pose proof (accounts_cover_quiet _ _ Hc Hquiet) as Hc'.
    intros u'. simpl. intros Hon.
    destruct (decide (u' = u)) as [->|Hu].
    + rewrite lookup_delete_eq in Hon. by destruct Hon.
    + rewrite lookup_delete_ne in Hon by done. by apply Hc'.
Qed.

Lemma consistent_quiet w s :
  consistent w → quiet (globals w) s → consistent (World s (threads w)).
Proof.
  intros [Hm Hc] Hquiet. split.
  - destruct Hquiet as [Hq _]. intros c u. simpl. rewrite Hq. apply Hm.
  - by eapply accounts_cover_quiet.
Qed.

Lemma consistent_open w c u s :
  consistent w → threads w !! c = None → clients (globals w) !! u = None →
  clients s = clients (globals w) → is_Some (users (db s) !! u) → name_ok u →
  normalized u →
  (∀ u', is_Some (users (db (globals w)) !! u') → is_Some (users (db s) !! u')) →
  consistent (World (with_clients (<[u := Session c "general"]>) s) (<[c := u]> (threads w))).
Proof.
  intros [Hm Hc] Hfree Hoff Hcl Hacc Hok Hnorm Hus. unfold sessions_match in Hm. split.
  - intros c' u'. unfold conn_of. simpl. rewrite fmap_insert, Hcl. simpl.
    fold (conn_of (globals w)).
    destruct (decide (c' = c)) as [->|Hne].
    + rewrite lookup_insert_eq.
      destruct (decide (u' = u)) as [->|Hu]; [by rewrite lookup_insert_eq|].
      rewrite lookup_insert_ne by done. split; [congruence|].
      intros H. apply Hm in H. congruence.
    + rewrite lookup_insert_ne by done. rewrite Hm.
      destruct (decide (u' = u)) as [->|Hu]; [|by rewrite lookup_insert_ne].
      rewrite lookup_insert_eq. unfold conn_of. rewrite lookup_fmap, Hoff. simpl.
      split; [done|congruence].
  - intros u'. simpl. destruct (decide (u' = u)) as [->|Hu]; [done|].
    rewrite lookup_insert_ne by done. rewrite Hcl. intros H.
    destruct (Hc u' H) as (? & ? & ?). auto.
Qed.

Section Reachability.
Variable hash_pw : string → string.

Lemma connect_rejected w c auth now why :
  authenticate hash_pw c auth now (globals w)
    = Returned None (globals w) [Send c (SAuthFail why); Close c] →
  handle_connect hash_pw w c auth now
    = (w, [Send c (SAuthFail why); Close c; Close c]).
Proof. intros H. unfold handle_connect. rewrite H. by destruct w. Qed.

Lemma connect_accepted w c auth now s1 :
  authenticate hash_pw c auth now (globals w) = Returned (Some (auth_name auth)) s1 [] →
  handle_connect hash_pw w c auth now
    = (World (with_clients (<[auth_name auth := Session c "general"]>) s1)
         (<[c := auth_name auth]> (threads w)),
       emitted (open_session (auth_name auth) c s1)).
Proof.
  intros H. unfold handle_connect. rewrite H.
  by rewrite open_session_result.
Qed.

Lemma connect_consistent w c auth now :
  consistent w → threads w !! c = None →
  consistent (handle_connect hash_pw w c auth now).1.
Proof.
  intros Hw Hc. unfold handle_connect.
  destruct (authenticate_result hash_pw (globals w) c auth now)
    as [why _|Hok Hact Hnew|usr Hok Hact Husr Hpw Hoff].
  - destruct w; apply Hw.
  - rewrite open_session_result. simpl.
    apply (consistent_open w c (auth_name auth)); try done;
      try apply lower_strip_normalized.
    + destruct (clients (globals w) !! auth_name auth) eqn:Hon; [|done].
      destruct Hw as [_ Hacc]. destruct (Hacc (auth_name auth)) as [[? Hx] _]; [by eexists|].
      congruence.
    + simpl. by rewrite lookup_insert_eq.
    + intros u'. simpl. destruct (decide (u' = auth_name auth)) as [->|Hne].
      * by rewrite lookup_insert_eq.
      * by rewrite lookup_insert_ne.
  - rewrite open_session_result. simpl.
    apply (consistent_open w c (auth_name auth)); try done.
    apply lower_strip_normalized.
Qed.

Lemma receive_consistent w c u pkt now :
  consistent w → threads w !! c = Some u →
  consistent (handle_receive w c u pkt now).1.
Proof.
  intros Hw Hc. unfold handle_receive.
  pose proof (dispatch_evolves u c pkt now (globals w)) as Hev.
  apply evolution_quiet in Hev.
  destruct (dispatch u c pkt now (globals w)); simpl in *.
  - by apply consistent_quiet.
  - by apply consistent_drop.
Qed.

Lemma lost_consistent w c u :
  consistent w → threads w !! c = Some u → consistent (handle_lost w c u).1.
Proof. intros Hw Hc. apply consistent_drop; [done..|apply quiet_refl]. Qed.

Lemma step_consistent w ev w' out :
  consistent w → step hash_pw w ev = Some (w', out) → consistent w'.
Proof.
  intros Hw. destruct ev as [c auth now|c pkt now|c]; simpl;
    destruct (threads w !! c) as [u|] eqn:Hc; simpl; try done;
    intros H; apply (inj Some) in H; apply (f_equal fst) in H; simpl in H; subst w'.
  - by apply connect_consistent.
  - by apply receive_consistent.
  - by apply lost_consistent.
  - by destruct w.
Qed.

Lemma reachable_consistent d w : reachable hash_pw d w → consistent w.
Proof.
  induction 1 as [|w ev w' out _ IH Hstep].
  - split; [|by intros u [? ?]]. intros c u. unfold conn_of. simpl.
    by rewrite fmap_empty, !lookup_empty.
  - by eapply step_consistent.
Qed.

End Reachability.

(** ** Agreement of sessions and handlers *)

Section SingleSession.
Variable hash_pw : string → string.

Lemma authenticate_online s c auth now usr :
  name_ok (auth_name auth) →
  p_action auth = Some "login" →
  users (db s) !! auth_name auth = Some usr →
  u_pw usr = hash_pw (get_or "" (p_password auth)) →
  is_Some (clients s !! auth_name auth) →
  authenticate hash_pw c auth now s
    = Returned None s [Send c (SAuthFail AlreadyLoggedIn); Close c].
Proof.
  intros Hok Hact Husr Hpw Hon. unfold authenticate, reject.
  fold (auth_name auth). unfold name_ok in Hok. rewrite Hok, Hact.
  handler_unfold. rewrite Husr. simpl.
  repeat case_decide; simpl; congruence.
Qed.

Lemma sessions_match_registry w : sessions_match w → registry_agrees w.
Proof.
  intros Hm c u. rewrite (Hm c u). unfold conn_of. rewrite lookup_fmap.
  destruct (clients (globals w) !! u) as [[c' rm]|]; simpl.
  - split; [intros [= ->]; eauto|intros [? [= -> _]]; done].
  - split; [done|intros [? ?]; done].
Qed.


End SingleSession.

(** ** History caps *)

Lemma slice_from_negative {A} (k : Z) (l : list A) :
  0 < k → slice_from (- k) l = most_recent (Z.to_nat k) l.
Proof.
  intros Hk. unfold slice_from, most_recent, slice_start.
  destruct (- k <? 0) eqn:E; [|lia]. f_equal. lia.
Qed.

Lemma most_recent_length {A} (n : nat) (l : list A) :
  length (most_recent n l) = (n `min` length l)%nat.
Proof. unfold most_recent. rewrite length_drop. lia. Qed.

Lemma most_recent_all {A} (n : nat) (l : list A) :
  (length l ≤ n)%nat → most_recent n l = l.
Proof. intros H. unfold most_recent. by replace (length l - n)%nat with 0%nat by lia. Qed.

Lemma push_room_history_recent h e :
  push_room_history h e = most_recent 500 (h ++ [e]).
Proof.
  unfold push_room_history, ROOM_CAP.
  destruct (500 <? _) eqn:E.
  - by rewrite slice_from_negative.
  - symmetry. apply most_recent_all. lia.
Qed.

Lemma push_dm_history_recent h e :
  push_dm_history h e = most_recent 200 (h ++ [e]).
Proof.
  unfold push_dm_history, DM_CAP.
  destruct (200 <? _) eqn:E.
  - by rewrite slice_from_negative.
  - symmetry. apply most_recent_all. lia.
Qed.

Lemma update_caps s s' : update s s' → caps_ok (db s) → caps_ok (db s').
Proof.
  destruct 1 as [| s rm r e Hr | s name topic owner Hn | s name Hn | s key e |];
    intros [Hrooms Hdms]; try done; split; simpl; try done.
  - intros rm' r'. destruct (decide (rm' = rm)) as [->|Hne].
    + rewrite lookup_insert_eq. intros [= <-]. simpl.
      rewrite push_room_history_recent, most_recent_length. unfold ROOM_CAP. lia.
    + rewrite lookup_insert_ne by done. apply Hrooms.
  - intros rm' r'. destruct (decide (rm' = name)) as [->|Hne].
    + rewrite lookup_insert_eq. intros [= <-]. simpl. unfold ROOM_CAP. lia.
    + rewrite lookup_insert_ne by done. apply Hrooms.
  - intros rm' r'. destruct (decide (rm' = name)) as [->|Hne].
    + by rewrite lookup_delete_eq.
    + rewrite lookup_delete_ne by done. apply Hrooms.
  - intros key' h'. destruct (decide (key' = key)) as [->|Hne].
    + rewrite lookup_insert_eq. intros [= <-].
      rewrite push_dm_history_recent, most_recent_length. unfold DM_CAP. lia.
    + rewrite lookup_insert_ne by done. apply Hdms.
Qed.

Lemma evolution_caps s s' : rtc update s s' → caps_ok (db s) → caps_ok (db s').
Proof. induction 1; eauto using update_caps. Qed.

Section StateInvariants.
Variable hash_pw : string → string.
Variable P : state → Prop.

(** [P] survives every write the server makes. *)
Hypothesis P_update : ∀ s s', update s s' → P s → P s'.
Hypothesis P_register : ∀ s uname usr,
  users (db s) !! uname = None → P s → P (with_db (with_users (<[uname := usr]>)) s).
Hypothesis P_open : ∀ s u c,
  clients s !! u = None → P s → P (with_clients (<[u := Session c "general"]>) s).
Hypothesis P_drop : ∀ s u, P s → P (drop_session u s).

Lemma evolution_invariant s s' : rtc update s s' → P s → P s'.
Proof. induction 1; eauto. Qed.

Lemma connect_invariant w c auth now :
  consistent w → P (globals w) → P (globals (handle_connect hash_pw w c auth now).1).
Proof.
  intros [_ Hacc] Hw. unfold handle_connect.
  destruct (authenticate_result hash_pw (globals w) c auth now)
    as [why _|Hok Hact Hnew|usr Hok Hact Husr Hpw Hoff]; [done|..];
    rewrite open_session_result; simpl.
  - apply P_open; [|by apply P_register]. simpl.
    destruct (clients (globals w) !! auth_name auth) eqn:Hon; [|done].
    destruct (Hacc (auth_name auth)) as [[? Hx] _]; [by eexists|]. congruence.
  - by apply P_open.
Qed.

Lemma receive_invariant w c u pkt now :
  P (globals w) → P (globals (handle_receive w c u pkt now).1).
Proof.
  intros Hw. unfold handle_receive.
  pose proof (dispatch_evolves u c pkt now (globals w)) as Hev.
  apply evolution_invariant in Hev; [|done].
  destruct (dispatch u c pkt now (globals w)); simpl in *; auto.
Qed.

Lemma step_invariant w ev w' out :
  consistent w → P (globals w) → step hash_pw w ev = Some (w', out) → P (globals w').
Proof.
  intros Hcons Hw. destruct ev as [c auth now|c pkt now|c]; simpl;
    destruct (threads w !! c) as [u|] eqn:Hc; simpl; try done;
    intros H; apply (inj Some) in H; apply (f_equal fst) in H; simpl in H; subst w'.
  - by apply connect_invariant.
  - by apply receive_invariant.
  - by apply P_drop.
  - done.
Qed.

(** Induction over the reachable worlds for a property of the globals. *)
Lemma reachable_invariant d w :
  P (State d ∅ ∅) → reachable hash_pw d w → P (globals w).
Proof.
  intros Hd. induction 1 as [|w ev w' out Hr IH Hstep]; [done|].
  eapply step_invariant; eauto using reachable_consistent.
Qed.

End StateInvariants.

Lemma reachable_caps hash_pw d w :
  caps_ok d → reachable hash_pw d w → caps_ok (db (globals w)).
Proof.
  intros Hd. apply (reachable_invariant hash_pw (λ s, caps_ok (db s)));
    [exact update_caps|done..].
Qed.

(** ** Delivery *)

Lemma deliver_to_sound s targets pkt exclude e :
  e ∈ deliver_to s targets pkt exclude →
  ∃ u info, u ∈ targets ∧ exclude ≠ Some u ∧ clients s !! u = Some info ∧
            e = Send (s_conn info) pkt.
Proof.
  induction targets as [|u rest IH]; simpl; [by intros ?%elem_of_nil|].
  rewrite elem_of_app. intros [He|He].
  - case_decide; [by apply elem_of_nil in He|].
    destruct (clients s !! u) as [info|] eqn:Hu; [|by apply elem_of_nil in He].
    apply list_elem_of_singleton in He. exists u, info. by rewrite elem_of_cons; auto.
  - destruct (IH He) as (u' & info & ? & ? & ? & ?). exists u', info.
    rewrite elem_of_cons. auto.
Qed.

Lemma deliver_to_complete s targets pkt exclude u info :
  u ∈ targets → exclude ≠ Some u → clients s !! u = Some info →
  Send (s_conn info) pkt ∈ deliver_to s targets pkt exclude.
Proof.
  intros Hin Hex Hu. induction targets as [|u' rest IH]; simpl; [by apply elem_of_nil in Hin|].
  rewrite elem_of_app. apply elem_of_cons in Hin as [<-|Hin]; [left|right; auto].
  case_decide; [done|]. rewrite Hu. apply list_elem_of_singleton. done.
Qed.

Lemma deliver_to_same_clients s s' targets pkt exclude :
  clients s' = clients s →
  deliver_to s' targets pkt exclude = deliver_to s targets pkt exclude.
Proof. intros E. induction targets as [|u rest IH]; simpl; [done|]. by rewrite E, IH. Qed.

Lemma deliver_to_nobody s pkt exclude : deliver_to s [] pkt exclude = [].
Proof. reflexivity. Qed.

(** ** Membership sets and recorded rooms *)

Lemma members_insert s rm X rm' :
  members (with_room_users (<[rm := X]>) s) rm' = if decide (rm' = rm) then X else members s rm'.
Proof.
  unfold members. simpl. case_decide as H; [subst; by rewrite lookup_insert_eq|].
  by rewrite lookup_insert_ne.
Qed.

Lemma members_move u info rm s rm' :
  s_room info ≠ rm →
  members (move_member u info rm s) rm' =
    if decide (rm' = rm) then members s rm ∪ {[u]}
    else if decide (rm' = s_room info) then members s (s_room info) ∖ {[u]}
    else members s rm'.
Proof.
  intros Hne. unfold move_member.
  change (members (with_clients ?f ?x) rm') with (members x rm').
  rewrite !members_insert. repeat case_decide; try done; congruence.
Qed.

Lemma members_drop u s rm' :
  members (drop_session u s) rm' =
    let rm := default "general" (s_room <$> clients s !! u) in
    if decide (rm' = rm) then members s rm ∖ {[u]} else members s rm'.
Proof.
  unfold drop_session.
  change (members (with_clients ?f ?x) rm') with (members x rm').
  by rewrite members_insert.
Qed.

Lemma update_members_located s s' : update s s' → members_located s → members_located s'.
Proof.
  destruct 1 as [s u info rm Hu Hne _| | | | |]; try done.
  intros Hloc rm' u'. rewrite members_move by done. simpl.
  destruct (decide (u' = u)) as [->|Hu'].
  - rewrite lookup_insert_eq. repeat case_decide; subst.
    + eauto.
    + intros [_ Hn]%elem_of_difference. destruct Hn. by apply elem_of_singleton.
    + intros [c Hc]%Hloc. rewrite Hu in Hc. injection Hc as ->. done.
  - rewrite lookup_insert_ne by done. repeat case_decide; subst.
    + intros [?|Heq%elem_of_singleton]%elem_of_union; [by apply Hloc|done].
    + intros [? _]%elem_of_difference. by apply Hloc.
    + apply Hloc.
Qed.

Lemma open_members_located s u c :
  clients s !! u = None → members_located s →
  members_located (with_clients (<[u := Session c "general"]>) s).
Proof.
  intros Hoff Hloc rm u'.
  change (members (with_clients ?f ?x) rm) with (members x rm). simpl.
  intros [c' Hc']%Hloc. exists c'. rewrite lookup_insert_ne; [done|congruence].
Qed.

Lemma drop_members_located s u : members_located s → members_located (drop_session u s).
Proof.
  intros Hloc rm u'. rewrite members_drop. simpl.
  destruct (decide (u' = u)) as [->|Hu'].
  - case_decide as Hrm.
    + intros [_ Hn]%elem_of_difference. destruct Hn. by apply elem_of_singleton.
    + intros [c Hc]%Hloc. rewrite Hc in Hrm. done.
  - rewrite lookup_delete_ne by done. case_decide; subst.
    + intros [? _]%elem_of_difference. by apply Hloc.
    + apply Hloc.
Qed.

Lemma reachable_members_located hash_pw d w :
  reachable hash_pw d w → members_located (globals w).
Proof.
  apply (reachable_invariant hash_pw members_located).
  - exact update_members_located.
  - done.
  - exact open_members_located.
  - exact drop_members_located.
  - intros rm u. unfold members. simpl. rewrite lookup_empty. set_solver.
Qed.

(** ** Room messages *)

Lemma handle_msg_empty u c pkt now s info :
  clients s !! u = Some info → msg_text pkt = "" →
  _handle_msg u c pkt now s = Returned tt s [].
Proof.
  intros Hu Ht. unfold _handle_msg. fold (msg_text pkt). rewrite Ht.
  handler_unfold. by rewrite Hu.
Qed.

Lemma handle_msg_too_long u c pkt now s info :
  clients s !! u = Some info → 1000 < Text.len (msg_text pkt) →
  _handle_msg u c pkt now s = Returned tt s [Send c (SSystem MessageTooLong)].
Proof.
  intros Hu Ht. unfold _handle_msg. fold (msg_text pkt).
  assert (Text.is_empty (msg_text pkt) = false) as ->.
  { destruct (msg_text pkt); [unfold Text.len in Ht; simpl in Ht; lia|done]. }
  assert ((1000 <? Text.len (msg_text pkt)) = true) as -> by lia.
  handler_unfold. by rewrite Hu.
Qed.

Lemma handle_msg_accepted u c pkt now s info r :
  clients s !! u = Some info → rooms (db s) !! s_room info = Some r →
  msg_text pkt ≠ "" → Text.len (msg_text pkt) ≤ 1000 →
  let entry := Message u (msg_text pkt) (now_ts now) in
  _handle_msg u c pkt now s =
    Returned tt (with_message (s_room info) r entry s)
      (deliver_to s (elements (members s (s_room info)))
         (SMsg (s_room info) entry) None).
Proof.
  intros Hu Hr Hne Hlen. unfold _handle_msg, append_history. fold (msg_text pkt).
  assert (Text.is_empty (msg_text pkt) = false) as -> by by destruct (msg_text pkt).
  assert ((1000 <? Text.len (msg_text pkt)) = false) as -> by lia.
  handler_unfold. rewrite Hu. simpl. rewrite Hr. simpl. f_equal.
  by apply deliver_to_same_clients.
Qed.

(** ** Records of an unhandled kind *)

Lemma dispatch_unhandled u c pkt now s :
  (∀ t, p_type pkt = Some t → t ∉ handled_types) →
  dispatch u c pkt now s = Returned tt s [].
Proof.
  intros Hunk. unfold dispatch.
  repeat (case_decide as H;
    [exfalso; eapply Hunk; [exact H|unfold handled_types; set_solver]|clear H]).
  reflexivity.
Qed.

(** ** Deleting a default room *)

Lemma delete_default_room requester c pkt s :
  delete_target pkt ∈ default_rooms →
  _delete_room requester c pkt s =
    Returned tt s [Send c (SSystem (default_room_notice s requester (delete_target pkt)))].
Proof.
  intros Hdef. unfold _delete_room, default_room_notice. fold (delete_target pkt).
  handler_unfold. destruct (rooms (db s) !! delete_target pkt) as [r|]; [|done].
  repeat case_decide; try done; congruence.
Qed.

(** ** Room history requests *)

Lemma slice_from_nonnegative {A} (k : Z) (l : list A) :
  0 ≤ k → slice_from k l = drop (Z.to_nat k) l.
Proof.
  intros Hk. unfold slice_from, slice_start.
  destruct (k <? 0) eqn:E; [lia|].
  destruct (decide (k ≤ Z.of_nat (length l))) as [Hle|Hgt].
  - f_equal. lia.
  - rewrite !drop_ge by lia. done.
Qed.

Lemma send_history_answer u c pkt s info r z :
  clients s !! u = Some info → p_limit pkt = LimInt z →
  rooms (db s) !! history_room pkt info = Some r →
  _send_history u c pkt s =
    Returned tt s [Send c (SHistory (history_room pkt info) (history_answer z (r_history r)))].
Proof.
  intros Hu Hlim Hr. unfold _send_history, history_room in *. rewrite Hlim.
  assert (slice_from (- Z.min z 200) (r_history r) = history_answer z (r_history r)) as Hans.
  { unfold history_answer. destruct (0 <? z) eqn:E.
    - apply slice_from_negative. lia.
    - replace (Z.min z 200) with z by lia. apply slice_from_nonnegative. lia. }
  handler_unfold.
  destruct (p_room pkt) as [rm|]; [destruct (Text.is_empty rm)|]; simpl;
    rewrite ?Hu; simpl; rewrite Hr; simpl; by rewrite Hans.
Qed.

(** ** Direct messages *)

Lemma sorted2_comm a b : a ≠ b → Text.sorted2 a b = Text.sorted2 b a.
Proof.
  intros Hne. unfold Text.sorted2.
  destruct (String.leb a b) eqn:Hab, (String.leb b a) eqn:Hba; try done.
  - by destruct Hne; apply String.leb_antisym.
  - destruct (String.leb_total a b); congruence.
Qed.

Lemma dm_key_comm a b : dm_key a b = dm_key b a.
Proof.
  destruct (decide (a = b)) as [->|Hne]; [done|].
  unfold dm_key. by rewrite sorted2_comm.
Qed.

Lemma dm_thread_comm s a b : dm_thread s a b = dm_thread s b a.
Proof. unfold dm_thread. by rewrite dm_key_comm. Qed.

Lemma send_dm_history_answer u c pkt s :
  _send_dm_history u c pkt s =
    Returned tt s [Send c (SDmHistory (dm_peer pkt) (slice_from (-50) (dm_thread s u (dm_peer pkt))))].
Proof. reflexivity. Qed.

Lemma handle_dm_accepted u c pkt now s :
  dm_target pkt ≠ "" → msg_text pkt ≠ "" → dm_target pkt ≠ u →
  let entry := DmEntry u (dm_target pkt) (msg_text pkt) (now_ts now) (now_full_ts now) in
  _handle_dm u c pkt now s =
    Returned tt (with_dm (dm_key u (dm_target pkt)) entry s)
      (Send c (SDm entry) ::
       match clients s !! dm_target pkt with
       | Some ti => [Send (s_conn ti) (SDm entry)]
       | None => [Send c (SSystem (TargetOffline (dm_target pkt)))]
       end).
Proof.
  intros Ht Hx Hself. unfold _handle_dm. fold (dm_target pkt) (msg_text pkt).
  assert (Text.is_empty (dm_target pkt) = false) as -> by by destruct (dm_target pkt).
  assert (Text.is_empty (msg_text pkt) = false) as -> by by destruct (msg_text pkt).
  simpl. case_decide; [done|]. handler_unfold.
  by destruct (clients s !! dm_target pkt).
Qed.

Lemma dm_thread_with_dm s a b entry :
  dm_thread (with_dm (dm_key a b) entry s) a b = push_dm_history (dm_thread s a b) entry.
Proof. unfold dm_thread, with_dm. simpl. by rewrite lookup_insert_eq. Qed.

Lemma online_names_normalized hash_pw d w c u :
  reachable hash_pw d w → threads w !! c = Some u → normalized u.
Proof.
  intros Hw Hc. apply reachable_consistent in Hw as [Hm Hacc].
  apply Hm in Hc. apply Hacc, online_conn_of. by rewrite Hc.
Qed.

(** Two users who are online ask for their common thread by each other's
    name and are sent the same entries. *)
Lemma dm_history_views_agree hash_pw d w ca cb a b now :
  reachable hash_pw d w → threads w !! ca = Some a → threads w !! cb = Some b →
  ∃ msgs,
    step hash_pw w (Receive ca (Sample.dm_history_pkt b) now)
      = Some (w, [Send ca (SDmHistory b msgs)]) ∧
    step hash_pw w (Receive cb (Sample.dm_history_pkt a) now)
      = Some (w, [Send cb (SDmHistory a msgs)]).
Proof.
  intros Hw Ha Hb.
  pose proof (online_names_normalized _ _ _ _ _ Hw Ha) as Hna.
  pose proof (online_names_normalized _ _ _ _ _ Hw Hb) as Hnb.
  exists (slice_from (-50) (dm_thread (globals w) a b)).
  split; simpl; [rewrite Ha|rewrite Hb]; simpl; unfold handle_receive, dispatch;
    repeat (rewrite decide_False by done); rewrite decide_True by done;
    rewrite send_dm_history_answer; unfold dm_peer; simpl.
  - rewrite Hnb. by destruct w.
  - rewrite Hna, (dm_thread_comm _ b a). by destruct w.
Qed.

(** The key is the two names joined by a colon, and names may contain
    colons: two different pairs can share a thread. *)
Example dm_key_shared_by_two_pairs : dm_key "ann:bob" "cy" = dm_key "ann" "bob:cy".
Proof. reflexivity. Qed.

(** ** Sample worlds *)

Section SampleWorlds.
Variable hash_pw : string → string.

Lemma alice_registers :
  step hash_pw (boot default_document)
    (Connect 1 (Sample.register_pkt "alice" "pw1") Sample.noon)
  = Some (Sample.alice_online hash_pw, Sample.alice_welcome).
Proof. vm_compute. reflexivity. Qed.

Lemma alice_online_reachable :
  reachable hash_pw default_document (Sample.alice_online hash_pw).
Proof. eapply reachable_step; [apply reachable_boot|apply alice_registers]. Qed.

Lemma alice_says_hello :
  step hash_pw (Sample.alice_online hash_pw) (Receive 1 (Sample.msg_pkt "hello") Sample.noon)
  = Some (Sample.alice_after hash_pw ["hello"], []).
Proof. vm_compute. reflexivity. Qed.

Lemma alice_says_three :
  run hash_pw (Sample.alice_online hash_pw)
    [Receive 1 (Sample.msg_pkt "one") Sample.noon;
     Receive 1 (Sample.msg_pkt "two") Sample.noon;
     Receive 1 (Sample.msg_pkt "three") Sample.noon]
  = Some (Sample.alice_after hash_pw ["one"; "two"; "three"], []).
Proof. vm_compute. reflexivity. Qed.

Lemma run_reachable d w evs w' out :
  reachable hash_pw d w → run hash_pw w evs = Some (w', out) →
  reachable hash_pw d w'.
Proof.
  revert w out. induction evs as [|ev rest IH]; simpl; intros w out Hw.
  - by intros [= <- _].
  - destruct (step hash_pw w ev) as [[w1 out1]|] eqn:Hstep; [|done].
    destruct (run hash_pw w1 rest) as [[w2 out2]|] eqn:Hrun; [|done].
    intros [= <- _]. eapply IH; [|done]. by eapply reachable_step.
Qed.

Lemma alice_after_three_reachable :
  reachable hash_pw default_document (Sample.alice_after hash_pw ["one"; "two"; "three"]).
Proof. eapply run_reachable; [apply alice_online_reachable|apply alice_says_three]. Qed.

Lemma bob_registers :
  step hash_pw (Sample.alice_online hash_pw)
    (Connect 2 (Sample.register_pkt "bob" "pw2") Sample.noon)
  = Some (Sample.both_online hash_pw,
          [Send 2 (SAuthOk "bob"
             [RoomInfo "general" "General chat for everyone" 0 "system";
              RoomInfo "random" "Random topics" 0 "system";
              RoomInfo "tech" "Technology discussions" 0 "system"]
             ["alice"; "bob"]);
           Send 2 (SSystem (AlreadyInRoom "general"));
           Send 1 (SSystem (CameOnline "bob"))]).
Proof. vm_compute. reflexivity. Qed.

Lemma both_online_reachable :
  reachable hash_pw default_document (Sample.both_online hash_pw).
Proof. eapply reachable_step; [apply alice_online_reachable|apply bob_registers]. Qed.

Lemma system_registers :
  fst <$> step hash_pw (Sample.alice_online hash_pw)
            (Connect 7 (Sample.register_pkt "System" "pw7") Sample.noon)
  = Some (Sample.system_online hash_pw).
Proof. vm_compute. reflexivity. Qed.

Lemma system_online_reachable :
  reachable hash_pw default_document (Sample.system_online hash_pw).
Proof.
  pose proof system_registers as Hstep.
  destruct (step hash_pw (Sample.alice_online hash_pw)
              (Connect 7 (Sample.register_pkt "System" "pw7") Sample.noon))
    as [[w out]|] eqn:E; [|done].
  injection Hstep as <-. eapply reachable_step; [apply alice_online_reachable|exact E].
Qed.

(** Once both have joined "tech" the usual way, a message of [alice] reaches
    [bob] and comes back to her. *)
Example tech_room_echo :
  match run hash_pw (boot default_document)
          [Connect 1 (Sample.register_pkt "alice" "pw1") Sample.noon;
           Connect 2 (Sample.register_pkt "bob" "pw2") Sample.noon;
           Receive 1 (Sample.join_pkt "tech") Sample.noon;
           Receive 2 (Sample.join_pkt "tech") Sample.noon] with
  | Some (w, _) =>
      snd <$> step hash_pw w (Receive 1 (Sample.msg_pkt "hello") Sample.noon)
  | None => None
  end
  = Some [Send 1 (SMsg "tech" (Sample.said "hello"));
          Send 2 (SMsg "tech" (Sample.said "hello"))].
Proof. vm_compute. reflexivity. Qed.

End SampleWorlds.

(** ** The automatic join after authentication *)

Lemma connect_membership_unchanged hash_pw w c auth now :
  room_users (globals (handle_connect hash_pw w c auth now).1) = room_users (globals w).
Proof.
  unfold handle_connect.
  destruct (authenticate_result hash_pw (globals w) c auth now); try done;
    by rewrite open_session_result.
Qed.

Lemma open_session_sends_no_joined username c s c' rm topic h us :
  Send c' (SJoined rm topic h us) ∉ emitted (open_session username c s).
Proof.
  rewrite open_session_result. unfold emitted.
  intros [Hin|Hin]%elem_of_app.
  - apply elem_of_cons in Hin as [?|Hin]; [done|].
    apply elem_of_cons in Hin as [?|Hin]; [done|]. by apply elem_of_nil in Hin.
  - by apply deliver_to_sound in Hin as (? & ? & _ & _ & _ & ?).
Qed.

Lemma connect_sends_no_joined hash_pw w c auth now c' rm topic h us :
  Send c' (SJoined rm topic h us) ∉ (handle_connect hash_pw w c auth now).2.
Proof.
  pose proof (authenticate_result hash_pw (globals w) c auth now) as Hres.
  inversion Hres as [why _ E| _ _ _ E|usr _ _ _ _ _ E]; symmetry in E.
  - rewrite (connect_rejected _ _ _ _ _ _ E). unfold snd.
    intros Hin. repeat (apply elem_of_cons in Hin as [?|Hin]; [done|]).
    by apply elem_of_nil in Hin.
  - unfold handle_connect. rewrite E.
    pose proof (open_session_sends_no_joined (auth_name auth) c
      (with_db (with_users (<[auth_name auth :=
         User (hash_pw (get_or "" (p_password auth))) (now_full_ts now) ""]>)) (globals w))
      c' rm topic h us) as Hno.
    destruct (open_session _ _ _) eqn:Eo; [|by rewrite open_session_result in Eo].
    unfold snd, emitted in *. by rewrite app_nil_l.
  - unfold handle_connect. rewrite E.
    pose proof (open_session_sends_no_joined (auth_name auth) c (globals w)
      c' rm topic h us) as Hno.
    destruct (open_session _ _ _) eqn:Eo; [|by rewrite open_session_result in Eo].
    unfold snd, emitted in *. by rewrite app_nil_l.
Qed.

(** C1.  The automatic join after a successful authentication does not
    happen: the session is created with room "general" already recorded, so
    [_join_room] takes its "already in the room" exit.  When [alice]
    registers on a fresh server she is recorded in "general", yet the
    membership set of "general" stays empty and she is sent the notice
    "You are already in #general." and no [joined] record. *)
Theorem auto_join_skips_membership (hash_pw : string → string) :
  (step hash_pw (boot default_document)
     (Connect 1 (Sample.register_pkt "alice" "pw1") Sample.noon)
   = Some (Sample.alice_online hash_pw, Sample.alice_welcome)) ∧
  (clients (globals (Sample.alice_online hash_pw)) !! "alice" = Some (Session 1 "general")) ∧
  ("alice" ∉ members (globals (Sample.alice_online hash_pw)) "general") ∧
  (Send 1 (SSystem (AlreadyInRoom "general")) ∈ Sample.alice_welcome) ∧
  (∀ rm topic h us, Send 1 (SJoined rm topic h us) ∉ Sample.alice_welcome).
Proof.
  split; [apply alice_registers|]. split; [reflexivity|]. split; [|split].
  - unfold members. change (room_users _) with (∅ : gmap string (gset string)).
    rewrite lookup_empty. apply not_elem_of_empty.
  - unfold Sample.alice_welcome. apply elem_of_cons. right. apply elem_of_cons. by left.
  - intros rm topic h us Hin. unfold Sample.alice_welcome in Hin.
    apply elem_of_cons in Hin as [Hin|Hin]; [discriminate Hin|].
    apply elem_of_cons in Hin as [Hin|Hin]; [discriminate Hin|].
    by apply elem_of_nil in Hin.
Qed.

(** C2.  The recorded room and the membership sets do not always agree:
    right after [alice] registered she is online with "general" recorded,
    but she is in no membership set. *)
Theorem fresh_session_outside_membership (hash_pw : string → string) :
  reachable hash_pw default_document (Sample.alice_online hash_pw) ∧
  ¬ rooms_agree (globals (Sample.alice_online hash_pw)).
Proof.
  split; [apply alice_online_reachable|].
  intros Hagree.
  assert ("alice" ∈ members (globals (Sample.alice_online hash_pw)) "general") as Hin.
  { eapply (Hagree "alice" (Session 1 "general")); reflexivity. }
  unfold members in Hin. change (room_users _) with (∅ : gmap string (gset string)) in Hin.
  rewrite lookup_empty in Hin. by apply not_elem_of_empty in Hin.
Qed.

(** The half of the agreement that does hold: a member of a room's set is
    online and has that room recorded. *)
Lemma members_are_located hash_pw d w rm u :
  reachable hash_pw d w → u ∈ members (globals w) rm →
  ∃ c, clients (globals w) !! u = Some (Session c rm).
Proof. intros Hw. by apply (reachable_members_located hash_pw d w). Qed.

(** An accepted room message goes into the history of the sender's
    recorded room and is sent to everyone in that room's membership set. *)
Lemma room_message_fanout hash_pw d w c u info r pkt now :
  reachable hash_pw d w → threads w !! c = Some u →
  clients (globals w) !! u = Some info →
  rooms (db (globals w)) !! s_room info = Some r →
  p_type pkt = Some "msg" → msg_text pkt ≠ "" → Text.len (msg_text pkt) ≤ 1000 →
  let entry := Message u (msg_text pkt) (now_ts now) in
  ∃ out,
    step hash_pw w (Receive c pkt now)
      = Some (World (with_message (s_room info) r entry (globals w)) (threads w), out) ∧
    (∀ u', u' ∈ members (globals w) (s_room info) →
       ∃ c', clients (globals w) !! u' = Some (Session c' (s_room info)) ∧
             Send c' (SMsg (s_room info) entry) ∈ out) ∧
    (∀ e, e ∈ out → ∃ u' c', u' ∈ members (globals w) (s_room info) ∧
       clients (globals w) !! u' = Some (Session c' (s_room info)) ∧
       e = Send c' (SMsg (s_room info) entry)).
Proof.
  intros Hw Hc Hu Hr Ht Hne Hlen entry. eexists. split; [|split].
  - simpl. rewrite Hc. simpl. unfold handle_receive, dispatch.
    rewrite decide_True by done.
    by rewrite (handle_msg_accepted u c pkt now (globals w) info r).
  - intros u' Hin. destruct (members_are_located _ _ _ _ _ Hw Hin) as [c' Hc'].
    exists c'. split; [done|].
    apply (deliver_to_complete _ _ _ _ u' (Session c' (s_room info))); [|done..].
    by apply elem_of_elements.
  - intros e (u' & info' & Hin & _ & Hu' & ->)%deliver_to_sound.
    apply elem_of_elements in Hin.
    destruct (members_are_located _ _ _ _ _ Hw Hin) as [c' Hc'].
    exists u', c'. rewrite Hu' in Hc'. injection Hc' as ->. done.
Qed.

(** The sender's own connection gets the record exactly when the sender is
    in the membership set of the recorded room. *)
Lemma sender_echo_iff_member hash_pw d w c u info r pkt now :
  reachable hash_pw d w → threads w !! c = Some u →
  clients (globals w) !! u = Some info →
  rooms (db (globals w)) !! s_room info = Some r →
  p_type pkt = Some "msg" → msg_text pkt ≠ "" → Text.len (msg_text pkt) ≤ 1000 →
  let entry := Message u (msg_text pkt) (now_ts now) in
  ∃ w' out,
    step hash_pw w (Receive c pkt now) = Some (w', out) ∧
    (Send c (SMsg (s_room info) entry) ∈ out ↔ u ∈ members (globals w) (s_room info)).
Proof.
  intros Hw Hc Hu Hr Ht Hne Hlen entry.
  destruct (room_message_fanout hash_pw d w c u info r pkt now Hw Hc Hu Hr Ht Hne Hlen)
    as (out & Hstep & Hall & Honly).
  pose proof (sessions_match_registry w (proj1 (reachable_consistent _ _ _ Hw))) as Hreg.
  eexists _, out. split; [exact Hstep|]. split.
  - intros (u' & c' & Hin & Hu' & [= <-])%Honly.
    assert (threads w !! c = Some u') as Hc' by (apply Hreg; eauto).
    congruence.
  - intros (c' & Hu' & Hin)%Hall.
    assert (threads w !! c' = Some u) as Hc' by (apply Hreg; eauto).
    apply Hreg in Hc as [rm Hcu]. rewrite Hu' in Hcu. by injection Hcu as ->.
Qed.

(** C3.  The sender does not always receive the echo of a room message:
    [alice], who has just registered and is recorded in "general" without
    being in its membership set, sends "hello"; the message goes into the
    history of "general" and no record is sent to anyone, her own
    connection included. *)
Theorem fresh_sender_gets_no_echo (hash_pw : string → string) :
  step hash_pw (Sample.alice_online hash_pw) (Receive 1 (Sample.msg_pkt "hello") Sample.noon)
  = Some (Sample.alice_after hash_pw ["hello"], []) ∧
  r_history <$> rooms (db (globals (Sample.alice_after hash_pw ["hello"]))) !! "general"
  = Some [Message "alice" "hello" "12:00"].
Proof. split; [apply alice_says_hello|reflexivity]. Qed.

(** A second [login] as [alice] while she is online. *)
Example second_login_refused (hash_pw : string → string) :
  step hash_pw (Sample.alice_online hash_pw)
    (Connect 2 (Sample.login_pkt "alice" "pw1") Sample.noon)
  = Some (Sample.alice_online hash_pw,
          [Send 2 (SAuthFail AlreadyLoggedIn); Close 2; Close 2]).
Proof.
  unfold step. change (threads _ !! 2%nat) with (@None string).
  erewrite connect_rejected; [done|].
  apply (authenticate_online hash_pw _ 2 _ _ (Sample.alice_account hash_pw)); try done.
Qed.

(** C5.  Started from a document whose histories are within the caps, the
    server keeps every room history at 500 entries or fewer and every DM
    thread at 200 or fewer; an append keeps exactly the most recent entries
    of the extended history, in arrival order. *)
Theorem history_caps (hash_pw : string → string) (d : document) (w : world) :
  caps_ok d → reachable hash_pw d w →
  caps_ok (db (globals w)) ∧
  (∀ h e, push_room_history h e = most_recent 500 (h ++ [e])) ∧
  (∀ h e, push_dm_history h e = most_recent 200 (h ++ [e])).
Proof.
  intros Hd Hw. split; [by eapply reachable_caps|].
  split; [apply push_room_history_recent|apply push_dm_history_recent].
Qed.

Lemma default_document_caps : caps_ok default_document.
Proof.
  split.
  - intros rm r. unfold default_document. simpl.
    rewrite !lookup_insert, lookup_empty.
    repeat case_decide; intros [= <-]; simpl; unfold ROOM_CAP; lia.
  - intros key h. simpl. by rewrite lookup_empty.
Qed.

Lemma history_caps_witness :
  caps_ok default_document ∧
  reachable Sample.toy_hash default_document
    (Sample.alice_after Sample.toy_hash ["one"; "two"; "three"]) ∧
  (caps_ok (db (globals (Sample.alice_after Sample.toy_hash ["one"; "two"; "three"]))) ∧
   (∀ h e, push_room_history h e = most_recent 500 (h ++ [e])) ∧
   (∀ h e, push_dm_history h e = most_recent 200 (h ++ [e]))).
Proof.
  split; [apply default_document_caps|]. split; [apply alice_after_three_reachable|].
  apply (history_caps Sample.toy_hash default_document).
  - apply default_document_caps.
  - apply alice_after_three_reachable.
Defined.

(** The oldest entry leaves a full room history. *)
Example full_history_evicts_oldest (old new : message) (rest : list message) :
  length rest = 499%nat →
  push_room_history (old :: rest) new = rest ++ [new].
Proof.
  intros Hlen. rewrite push_room_history_recent. unfold most_recent.
  rewrite length_app. simpl. rewrite Hlen. reflexivity.
Qed.

(** [alice], who does not own "general", asks to delete it and is told that
    only the owner can delete a room. *)
Lemma stranger_not_answered_protected :
  ¬ answered_protected (globals (Sample.alice_online Sample.toy_hash)) "alice" 1
      (Sample.delete_room_pkt "general").
Proof.
  unfold answered_protected.
  rewrite delete_default_room by (vm_compute; apply elem_of_cons; by left).
  vm_compute. discriminate.
Qed.

(** C6, amended.  A [delete_room] aimed at "general", "random" or "tech"
    never removes the room: the globals stay as they were and the requester
    gets one notice, which is "Cannot delete default rooms." when the
    requester is the recorded owner of the room, "Only the owner can delete
    a room." for any other requester, and "Room #... not found." when the
    document has no such room. *)
Theorem default_room_never_deleted (s : state) (requester : string) (c : conn_id)
    (pkt : packet) :
  delete_target pkt ∈ default_rooms →
  _delete_room requester c pkt s =
    Returned tt s [Send c (SSystem (default_room_notice s requester (delete_target pkt)))] ∧
  (∀ r, rooms (db s) !! delete_target pkt = Some r →
     default_room_notice s requester (delete_target pkt)
     = if decide (r_owner r = requester) then CannotDeleteDefault else OnlyOwnerCanDelete) ∧
  (rooms (db s) !! delete_target pkt = None →
     default_room_notice s requester (delete_target pkt) = RoomNotFound (delete_target pkt)).
Proof.
  intros Hdef. split; [by apply delete_default_room|].
  unfold default_room_notice. split.
  - by intros r ->.
  - by intros ->.
Qed.

Lemma default_room_never_deleted_witness :
  delete_target (Sample.delete_room_pkt " General ") ∈ default_rooms ∧
  _delete_room "system" 7 (Sample.delete_room_pkt " General ")
      (globals (Sample.system_online Sample.toy_hash))
  = Returned tt (globals (Sample.system_online Sample.toy_hash))
      [Send 7 (SSystem CannotDeleteDefault)].
Proof.
  assert (delete_target (Sample.delete_room_pkt " General ") ∈ default_rooms) as Hdef
    by (vm_compute; apply elem_of_cons; by left).
  split; [exact Hdef|].
  destruct (default_room_never_deleted (globals (Sample.system_online Sample.toy_hash))
              "system" 7 (Sample.delete_room_pkt " General ") Hdef) as [Hrun _].
  exact Hrun.
Defined.

Lemma step_unhandled hash_pw w c u pkt now :
  threads w !! c = Some u →
  (∀ t, p_type pkt = Some t → t ∉ handled_types) →
  step hash_pw w (Receive c pkt now) = Some (w, []).
Proof.
  intros Hc Hunk. simpl. rewrite Hc. simpl. unfold handle_receive.
  rewrite dispatch_unhandled by done. by destruct w.
Qed.

Lemma bogus_unhandled : ∀ t, p_type (Sample.typed "bogus") = Some t → t ∉ handled_types.
Proof.
  intros t [= <-] Hin. unfold handled_types in Hin.
  repeat (apply elem_of_cons in Hin as [Hin|Hin]; [discriminate Hin|]).
  by apply elem_of_nil in Hin.
Qed.

(** A record of type "bogus" leaves the connection of [alice] open. *)
Lemma unknown_tag_keeps_connection :
  ¬ terminates_connection Sample.toy_hash (Sample.alice_online Sample.toy_hash) 1
      (Sample.typed "bogus") Sample.noon.
Proof.
  intros (w' & out & Hstep & Hgone).
  rewrite (step_unhandled _ _ 1 "alice") in Hstep; [|done|apply bogus_unhandled].
  injection Hstep as <- _. done.
Qed.

(** C7, amended.  A record whose type is none of "msg", "join",
    "create_room", "delete_room", "dm", "history", "dm_history", "rooms",
    "online", "whois", "set_bio", "ping" (or that has no type) is skipped:
    nothing is sent, nothing changes, and the handler thread keeps
    running. *)
Theorem unhandled_record_ignored (hash_pw : string → string) (w : world) (c : conn_id)
    (u : string) (pkt : packet) (now : clock) :
  threads w !! c = Some u →
  (∀ t, p_type pkt = Some t → t ∉ handled_types) →
  dispatch u c pkt now (globals w) = Returned tt (globals w) [] ∧
  step hash_pw w (Receive c pkt now) = Some (w, []).
Proof.
  intros Hc Hunk. split; [by apply dispatch_unhandled|by eapply step_unhandled].
Qed.

Lemma quit_unhandled : ∀ t, p_type (Sample.typed "quit") = Some t → t ∉ handled_types.
Proof.
  intros t [= <-] Hin. unfold handled_types in Hin.
  repeat (apply elem_of_cons in Hin as [Hin|Hin]; [discriminate Hin|]).
  by apply elem_of_nil in Hin.
Qed.

Lemma unhandled_record_ignored_witness :
  threads (Sample.alice_online Sample.toy_hash) !! 1%nat = Some "alice" ∧
  (∀ t, p_type (Sample.typed "quit") = Some t → t ∉ handled_types) ∧
  step Sample.toy_hash (Sample.alice_online Sample.toy_hash)
    (Receive 1 (Sample.typed "quit") Sample.noon)
  = Some (Sample.alice_online Sample.toy_hash, []).
Proof.
  split; [reflexivity|]. split; [apply quit_unhandled|].
  apply (unhandled_record_ignored Sample.toy_hash (Sample.alice_online Sample.toy_hash)
           1 "alice" (Sample.typed "quit") Sample.noon); [reflexivity|apply quit_unhandled].
Defined.



(** A message of three blanks is dropped without a word to the sender. *)
Lemma blank_message_not_notified :
  ¬ sender_notified Sample.toy_hash (Sample.alice_online Sample.toy_hash) 1
      (Sample.msg_pkt "   ") Sample.noon.
Proof.
  intros (w' & out & n & Hstep & Hin).
  assert (step Sample.toy_hash (Sample.alice_online Sample.toy_hash)
            (Receive 1 (Sample.msg_pkt "   ") Sample.noon)
          = Some (Sample.alice_online Sample.toy_hash, [])) as Hblank
    by (vm_compute; reflexivity).
  rewrite Hblank in Hstep. injection Hstep as _ <-.
  by apply elem_of_nil in Hin.
Qed.

(** C9, amended.  A room message whose text is empty after trimming is
    dropped silently: nothing is sent, not even a notice.  A text longer
    than 1000 characters is answered with the notice "Message too long (max
    1000 chars).".  In both cases the world (histories, sessions, handler
    threads) is unchanged.  The length is stated for ASCII text, where the
    bytes [Text.len] counts are the characters [len] counts. *)
Theorem rejected_message_changes_nothing (hash_pw : string → string) (d : document)
    (w : world) (c : conn_id) (u : string) (pkt : packet) (now : clock) :
  reachable hash_pw d w → threads w !! c = Some u → p_type pkt = Some "msg" →
  (msg_text pkt = "" → step hash_pw w (Receive c pkt now) = Some (w, [])) ∧
  (Text.is_ascii (get_or "" (p_text pkt)) = true → 1000 < Text.len (msg_text pkt) →
     step hash_pw w (Receive c pkt now) = Some (w, [Send c (SSystem MessageTooLong)])).
Proof.
  intros Hw Hc Ht.
  assert (∃ info, clients (globals w) !! u = Some info) as [info Hu].
  { apply reachable_consistent in Hw as [Hm _]. apply Hm in Hc.
    unfold conn_of in Hc. rewrite lookup_fmap in Hc.
    destruct (clients (globals w) !! u); [eauto|done]. }
  split; [intros Htext|intros _ Htext]; simpl; rewrite Hc; simpl;
    unfold handle_receive, dispatch; rewrite decide_True by done.
  - rewrite (handle_msg_empty u c pkt now (globals w) info) by done. by destruct w.
  - rewrite (handle_msg_too_long u c pkt now (globals w) info) by done. by destruct w.
Qed.

Lemma rejected_message_changes_nothing_witness :
  (reachable Sample.toy_hash default_document (Sample.alice_online Sample.toy_hash) ∧
   threads (Sample.alice_online Sample.toy_hash) !! 1%nat = Some "alice" ∧
   p_type Sample.long_pkt = Some "msg" ∧
   Text.is_ascii (get_or "" (p_text Sample.long_pkt)) = true ∧
   1000 < Text.len (msg_text Sample.long_pkt)) ∧
  step Sample.toy_hash (Sample.alice_online Sample.toy_hash)
    (Receive 1 Sample.long_pkt Sample.noon)
  = Some (Sample.alice_online Sample.toy_hash, [Send 1 (SSystem MessageTooLong)]).
Proof.
  assert (1000 < Text.len (msg_text Sample.long_pkt)) as Hlong by (vm_compute; reflexivity).
  assert (Text.is_ascii (get_or "" (p_text Sample.long_pkt)) = true) as Hascii
    by (vm_compute; reflexivity).
  split.
  { split; [apply alice_online_reachable|]. split; [reflexivity|].
    split; [reflexivity|]. split; [exact Hascii|exact Hlong]. }
  destruct (rejected_message_changes_nothing Sample.toy_hash default_document
              (Sample.alice_online Sample.toy_hash) 1 "alice" Sample.long_pkt Sample.noon
              (alice_online_reachable _) eq_refl eq_refl) as [_ Htoo].
  exact (Htoo Hascii Hlong).
Defined.

(** With three messages stored, a limit of -1 is answered with the last
    two. *)
Lemma negative_limit_not_whole_history :
  ¬ answered_whole_history
      (globals (Sample.alice_after Sample.toy_hash ["one"; "two"; "three"])) "alice" 1
      (Sample.history_pkt (-1)).
Proof.
  intros Hall.
  specialize (Hall (Session 1 "general") Sample.three_said eq_refl eq_refl).
  vm_compute in Hall. discriminate Hall.
Qed.

(** C10, amended.  A [history] request with limit [z] is answered from the
    stored history [h] of the room: for a positive [z] with the most recent
    [min z 200] entries; for [z = 0] with all of [h] (up to 500 entries);
    for a negative [z] with [h] without its [-z] oldest entries, which is
    all of [h] only when [h] is empty. *)
Theorem history_limit_answer (s : state) (u : string) (c : conn_id) (pkt : packet)
    (info : session) (r : room) (z : Z) :
  clients s !! u = Some info → p_limit pkt = LimInt z →
  rooms (db s) !! history_room pkt info = Some r →
  ∃ msgs,
    _send_history u c pkt s = Returned tt s [Send c (SHistory (history_room pkt info) msgs)] ∧
    (0 < z → msgs = most_recent (Z.to_nat (Z.min z 200)) (r_history r) ∧
             Z.of_nat (length msgs) ≤ 200) ∧
    (z = 0 → msgs = r_history r) ∧
    (z < 0 → msgs = drop (Z.to_nat (- z)) (r_history r) ∧
             (msgs = r_history r → r_history r = [])).
Proof.
  intros Hu Hlim Hr. exists (history_answer z (r_history r)).
  split; [by apply send_history_answer|]. unfold history_answer.
  split; [|split]; intros Hz.
  - assert ((0 <? z) = true) as -> by lia. split; [done|].
    rewrite most_recent_length. lia.
  - subst z. done.
  - assert ((0 <? z) = false) as -> by lia. split; [done|].
    intros Heq. apply (f_equal length) in Heq. rewrite length_drop in Heq.
    destruct (r_history r); [done|]. simpl in Heq. lia.
Qed.

Lemma history_limit_answer_witness :
  (clients (globals (Sample.alice_after Sample.toy_hash ["one"; "two"; "three"])) !! "alice"
     = Some (Session 1 "general") ∧
   p_limit (Sample.history_pkt (-1)) = LimInt (-1) ∧
   rooms (db (globals (Sample.alice_after Sample.toy_hash ["one"; "two"; "three"])))
     !! history_room (Sample.history_pkt (-1)) (Session 1 "general")
     = Some Sample.three_said) ∧
  ∃ msgs,
    _send_history "alice" 1 (Sample.history_pkt (-1))
      (globals (Sample.alice_after Sample.toy_hash ["one"; "two"; "three"]))
    = Returned tt (globals (Sample.alice_after Sample.toy_hash ["one"; "two"; "three"]))
        [Send 1 (SHistory "general" msgs)] ∧
    msgs = [Sample.said "two"; Sample.said "three"].
Proof.
  split; [repeat split|].
  destruct (history_limit_answer
              (globals (Sample.alice_after Sample.toy_hash ["one"; "two"; "three"]))
              "alice" 1 (Sample.history_pkt (-1)) (Session 1 "general") Sample.three_said
              (-1) eq_refl eq_refl eq_refl)
    as (msgs & Hrun & _ & _ & Hneg).
  exists msgs. split; [exact Hrun|]. destruct Hneg as [-> _]; [lia|reflexivity].
Defined.

(** * Further properties *)

(** ** Joining a room *)

Lemma join_room_state u c rm silent s :
  final_state (_join_room u c rm silent s) = joined_state u rm s.
Proof.
  unfold _join_room, joined_state. handler_unfold.
  destruct (rooms (db s) !! rm) as [r|]; simpl; [|done].
  destruct (clients s !! u) as [info|]; simpl; [|done].
  case_decide; simpl; [done|]. by destruct silent.
Qed.

(** ** Writes that keep every room *)

Lemma grows_bind_at {A B} (m : M A) (k : A → M B) s :
  rtc grow s (final_state (m s)) →
  (∀ a s1 out, m s = Returned a s1 out → rtc grow s1 (final_state (k a s1))) →
  rtc grow s (final_state ((m ≫= k) s)).
Proof.
  intros Hm Hk. unfold mbind, M_bind, bind.
  destruct (m s) as [a s1 o1|s1 o1] eqn:E; simpl in *; [|done].
  specialize (Hk a s1 o1 eq_refl).
  destruct (k a s1); simpl in *; by etrans.
Qed.

Lemma grows_bind {A B} (m : M A) (k : A → M B) :
  grows m → (∀ a, grows (k a)) → grows (m ≫= k).
Proof. intros Hm Hk s. apply grows_bind_at; [apply Hm|]. intros. apply Hk. Qed.

Lemma read_only_grows {A} (m : M A) : (∀ s, final_state (m s) = s) → grows m.
Proof. intros H s. by rewrite H. Qed.

Lemma send_grows c p : grows (send c p).
Proof. by apply read_only_grows. Qed.

Lemma ret_grows {A} (a : A) : grows (mret a : M A).
Proof. by apply read_only_grows. Qed.

Lemma broadcast_room_grows rm pkt ex : grows (broadcast_room rm pkt ex).
Proof. by apply read_only_grows. Qed.

Lemma broadcast_all_grows pkt ex : grows (broadcast_all pkt ex).
Proof. by apply read_only_grows. Qed.

Lemma join_room_grows u c rm silent : grows (_join_room u c rm silent).
Proof.
  intros s. rewrite join_room_state. unfold joined_state.
  destruct (rooms (db s) !! rm) as [r|] eqn:Hr; [|done].
  destruct (clients s !! u) as [info|] eqn:Hu; [|done].
  case_decide; [done|]. apply rtc_once. apply grow_move; [done..|by rewrite Hr].
Qed.

Lemma append_history_grows rm e : grows (append_history rm e).
Proof.
  intros s. unfold append_history. handler_unfold.
  destruct (rooms (db s) !! rm) as [r|] eqn:Hr; simpl; [|done].
  apply rtc_once. exact (grow_append s rm r e Hr).
Qed.

Lemma handle_msg_grows u c pkt now : grows (_handle_msg u c pkt now).
Proof.
  unfold _handle_msg. apply grows_bind.
  { apply read_only_grows. intros s. unfold session_of. by destruct (clients s !! u). }
  intros info. destruct (Text.is_empty _); [apply ret_grows|].
  destruct (1000 <? _); [apply send_grows|].
  apply grows_bind; [apply append_history_grows|]. intros _. apply broadcast_room_grows.
Qed.

Lemma create_room_grows u c pkt : grows (_create_room u c pkt).
Proof.
  unfold _create_room. destruct (_ || _); [apply send_grows|].
  intros s. apply grows_bind_at; [apply rtc_refl|]. intros s0 s1 out [= <- <- _].
  destruct (rooms (db s) !! _) eqn:Hr; [apply send_grows|].
  apply grows_bind_at; [apply rtc_once; exact (grow_create _ _ _ _ Hr)|]. intros _ s2 _ _.
  apply grows_bind; [apply broadcast_all_grows|]. intros _. apply join_room_grows.
Qed.

Lemma handle_dm_grows u c pkt now : grows (_handle_dm u c pkt now).
Proof.
  unfold _handle_dm. destruct (_ || _); [apply ret_grows|].
  case_decide; [apply send_grows|].
  apply grows_bind; [by apply read_only_grows|]. intros s0.
  apply grows_bind; [intros s; apply rtc_once; apply grow_dm|]. intros _.
  apply grows_bind; [apply send_grows|]. intros _.
  destruct (clients s0 !! _); apply send_grows.
Qed.

Lemma set_bio_grows u c pkt : grows (set_bio u c pkt).
Proof.
  intros s. unfold set_bio. handler_unfold.
  destruct (users (db s) !! u) eqn:Hu; simpl; [|done].
  apply rtc_once. by constructor.
Qed.

Lemma evict_all_grows l : grows (evict_all l).
Proof.
  induction l as [|u l IH]; [apply ret_grows|]. simpl.
  apply grows_bind; [by apply read_only_grows|]. intros s0.
  apply grows_bind; [|intros _; apply IH].
  destruct (clients s0 !! u); [apply join_room_grows|apply ret_grows].
Qed.

(** ** The invariant [good] *)

Lemma grow_rooms_kept s s' rm :
  grow s s' → is_Some (rooms (db s) !! rm) → is_Some (rooms (db s') !! rm).
Proof.
  destruct 1 as [| s rm' r e Hr | s name topic owner Hn | |]; simpl; try done.
  - destruct (decide (rm = rm')) as [->|Hne];
      [by rewrite lookup_insert_eq|by rewrite lookup_insert_ne].
  - destruct (decide (rm = name)) as [->|Hne];
      [by rewrite lookup_insert_eq|by rewrite lookup_insert_ne].
Qed.

Lemma grow_update s s' : grow s s' → update s s'.
Proof.
  destruct 1; [by apply upd_move|by apply upd_append|by apply upd_create
              |apply upd_dm|by apply upd_bio].
Qed.

Lemma grow_good s s' : grow s s' → good s → good s'.
Proof.
  intros Hg (Hloc & Hlist & Hin & Hgen).
  split; [by eapply update_members_located; [apply grow_update|]|].
  assert (has_general (db s')) as Hgen' by by eapply grow_rooms_kept.
  destruct Hg as [s u info rm Hu Hne Hrm | s rm r e Hr | s name topic owner Hn | s key e
                 | s u usr bio Hu].
  - split; [|split; [|done]].
    + intros u' info'. unfold move_member at 1. simpl.
      destruct (decide (u' = u)) as [->|Hu'].
      * rewrite lookup_insert_eq. intros [= <-] _. simpl.
        rewrite members_move by done. rewrite decide_True by done.
        apply elem_of_union. right. by apply elem_of_singleton.
      * rewrite lookup_insert_ne by done. intros Hc Hng.
        rewrite members_move by done. pose proof (Hlist u' info' Hc Hng) as Hmem.
        repeat case_decide.
        -- apply elem_of_union. left. congruence.
        -- apply elem_of_difference. split; [congruence|]. by rewrite elem_of_singleton.
        -- done.
    + intros u' info'. unfold move_member. simpl.
      destruct (decide (u' = u)) as [->|Hu'].
      * rewrite lookup_insert_eq. by intros [= <-].
      * rewrite lookup_insert_ne by done. apply Hin.
  - split; [done|]. split; [|done]. intros u' info' Hc.
    eapply (grow_rooms_kept s); [exact (grow_append s rm r e Hr)|by eapply Hin].
  - split; [done|]. split; [|done]. intros u' info' Hc.
    eapply (grow_rooms_kept s); [exact (grow_create s name topic owner Hn)|by eapply Hin].
  - done.
  - done.
Qed.

Lemma growth_good s s' : rtc grow s s' → good s → good s'.
Proof. induction 1; eauto using grow_good. Qed.

(** ** The eviction loop *)

Lemma join_room_returns u c rm silent s :
  is_Some (clients s !! u) ∨ rooms (db s) !! rm = None →
  ∃ out, _join_room u c rm silent s = Returned tt (joined_state u rm s) out.
Proof.
  intros H. unfold _join_room, joined_state. handler_unfold.
  destruct (rooms (db s) !! rm) as [r|]; simpl; [|by eexists].
  destruct H as [[info ->]|?]; [|done]. simpl.
  case_decide; simpl; [by eexists|]. destruct silent; by eexists.
Qed.

Lemma evict_all_cons u l s :
  final_state (evict_all (u :: l) s) = final_state (evict_all l (evicted_one u s)) ∧
  has_raised (evict_all (u :: l) s) = has_raised (evict_all l (evicted_one u s)).
Proof.
  unfold evicted_one. simpl. unfold mbind, M_bind, bind, get_state.
  destruct (clients s !! u) as [info|] eqn:Hu.
  - destruct (join_room_returns u (s_conn info) "general" false s) as [out ->]; [by left; eexists|].
    by destruct (evict_all l (joined_state u "general" s)).
  - unfold mret, M_ret, ret. by destruct (evict_all l s).
Qed.

Lemma evicted_one_db u s : db (evicted_one u s) = db s.
Proof.
  unfold evicted_one, joined_state.
  destruct (clients s !! u) as [info|]; [|done].
  destruct (rooms (db s) !! "general"); [|done]. by case_decide.
Qed.

Lemma evicted_one_clients u s u' :
  has_general (db s) →
  clients (evicted_one u s) !! u' =
    (λ info, if decide (u' = u) then Session (s_conn info) "general" else info)
    <$> clients s !! u'.
Proof.
  intros [g Hg]. unfold evicted_one, joined_state. rewrite Hg.
  destruct (clients s !! u) as [info|] eqn:Hu.
  - case_decide as Hroom.
    + destruct (decide (u' = u)) as [->|Hne].
      * rewrite Hu. simpl. destruct info as [ci ri]. simpl in *. by rewrite Hroom.
      * by destruct (clients s !! u').
    + unfold move_member. simpl. destruct (decide (u' = u)) as [->|Hne].
      * by rewrite lookup_insert_eq, Hu.
      * rewrite lookup_insert_ne by done. by destruct (clients s !! u').
  - destruct (decide (u' = u)) as [->|Hne]; [by rewrite Hu|].
    by destruct (clients s !! u').
Qed.

Lemma evicted_one_general u s :
  has_general (db s) →
  members s "general" ⊆ members (evicted_one u s) "general" ∧
  (∀ info, clients s !! u = Some info → s_room info ≠ "general" →
           u ∈ members (evicted_one u s) "general").
Proof.
  intros [g Hg]. unfold evicted_one, joined_state. rewrite Hg.
  destruct (clients s !! u) as [info|] eqn:Hu; [|done].
  case_decide as Hroom.
  - split; [done|]. by intros ? [= <-].
  - split.
    + rewrite members_move by done. rewrite decide_True by done.
      apply union_subseteq_l.
    + intros ? _ _. rewrite members_move by done. rewrite decide_True by done.
      apply elem_of_union. right. by apply elem_of_singleton.
Qed.

Lemma evict_all_db l s : db (final_state (evict_all l s)) = db s.
Proof.
  revert s. induction l as [|u l IH]; intros s; [done|].
  destruct (evict_all_cons u l s) as [-> _]. by rewrite IH, evicted_one_db.
Qed.

Lemma evict_all_returns l s : has_raised (evict_all l s) = false.
Proof.
  revert s. induction l as [|u l IH]; intros s; [done|].
  destruct (evict_all_cons u l s) as [_ ->]. apply IH.
Qed.

Lemma evict_all_clients l s u' :
  has_general (db s) →
  clients (final_state (evict_all l s)) !! u' =
    (λ info, if decide (u' ∈ l) then Session (s_conn info) "general" else info)
    <$> clients s !! u'.
Proof.
  revert s. induction l as [|u l IH]; intros s Hg.
  - simpl. destruct (clients s !! u'); simpl; [|done].
    try done; try (case_decide as H; [by apply elem_of_nil in H|done]).
  - destruct (evict_all_cons u l s) as [-> _].
    rewrite IH by (by rewrite evicted_one_db). rewrite evicted_one_clients by done.
    destruct (clients s !! u') as [info|]; simpl; [|done]. f_equal.
    destruct (decide (u' = u)) as [->|Hne].
    + rewrite (decide_True (P := u ∈ u :: l)) by (apply elem_of_cons; auto).
      by case_decide.
    + destruct (decide (u' ∈ l)) as [Hin|Hnin].
      * rewrite decide_True; [done|]. apply elem_of_cons. auto.
      * rewrite decide_False; [done|]. rewrite elem_of_cons. tauto.
Qed.

Lemma evict_all_general l s :
  has_general (db s) →
  members s "general" ⊆ members (final_state (evict_all l s)) "general" ∧
  (∀ u info, u ∈ l → clients s !! u = Some info → s_room info ≠ "general" →
             u ∈ members (final_state (evict_all l s)) "general").
Proof.
  revert s. induction l as [|u l IH]; intros s Hg.
  - split; [done|]. by intros u info ?%elem_of_nil.
  - destruct (evict_all_cons u l s) as [-> _].
    assert (has_general (db (evicted_one u s))) as Hg' by by rewrite evicted_one_db.
    destruct (IH _ Hg') as [Hsub Hin]. destruct (evicted_one_general u s Hg) as [Hsub1 Hin1].
    split; [by etrans|].
    intros u' info [->|Hl]%elem_of_cons Hc Hroom.
    + apply Hsub. by eapply Hin1.
    + destruct (decide (u' = u)) as [->|Hne]; [apply Hsub; by eapply Hin1|].
      eapply (Hin u' info); [done| |done].
      rewrite evicted_one_clients by done. rewrite Hc. simpl. by rewrite decide_False.
Qed.

Lemma evict_all_good l s : good s → good (final_state (evict_all l s)).
Proof. intros Hs. eapply growth_good; [apply evict_all_grows|done]. Qed.

(** ** Removing a room *)

Lemma delete_room_run u c pkt s r :
  rooms (db s) !! delete_target pkt = Some r → r_owner r = u →
  delete_target pkt ∉ default_rooms →
  let s1 := final_state (evict_all (elements (members s (delete_target pkt))) s) in
  let s2 := with_db (with_rooms (delete (delete_target pkt))) s1 in
  ∃ out1,
    _delete_room u c pkt s =
      Returned tt s2
        (out1 ++ deliver_to s2 (online_list s2)
                   (SSystem (RoomWasDeleted (delete_target pkt) u)) None).
Proof.
  intros Hr Hown Hdef s1 s2. unfold _delete_room. fold (delete_target pkt).
  unfold mbind at 1. unfold M_bind, bind at 1. unfold get_state. rewrite Hr.
  rewrite decide_False by (intros ?; congruence). rewrite decide_False by done.
  unfold mbind, M_bind, bind.
  pose proof (evict_all_returns (elements (members s (delete_target pkt))) s) as Hret.
  subst s2 s1.
  destruct (evict_all (elements (members s (delete_target pkt))) s) as [[] s1 out1|];
    [|done].
  simpl. unfold modify, broadcast_all, get_state, emit. simpl. by exists out1.
Qed.

Lemma not_default_not_general name : name ∉ default_rooms → name ≠ "general".
Proof. intros Hn ->. apply Hn. unfold default_rooms. apply elem_of_cons. by left. Qed.

Lemma evicted_nobody_left name s u info :
  good s → name ≠ "general" →
  clients (final_state (evict_all (elements (members s name)) s)) !! u = Some info →
  s_room info ≠ name.
Proof.
  intros (Hloc & Hlist & Hin & Hgen) Hname.
  rewrite evict_all_clients by done.
  destruct (clients s !! u) as [info0|] eqn:Hu; simpl; [|done].
  case_decide as Hmem; intros [= <-]; simpl; [done|].
  intros Hroom. apply Hmem, elem_of_elements. rewrite <- Hroom.
  apply (Hlist u info0 Hu). congruence.
Qed.

Lemma delete_room_missing u c pkt s :
  rooms (db s) !! delete_target pkt = None →
  _delete_room u c pkt s = Returned tt s [Send c (SSystem (RoomNotFound (delete_target pkt)))].
Proof.
  intros Hr. unfold _delete_room. fold (delete_target pkt). handler_unfold. by rewrite Hr.
Qed.

Lemma delete_room_not_owner u c pkt s r :
  rooms (db s) !! delete_target pkt = Some r → r_owner r ≠ u →
  _delete_room u c pkt s = Returned tt s [Send c (SSystem OnlyOwnerCanDelete)].
Proof.
  intros Hr Hown. unfold _delete_room. fold (delete_target pkt). handler_unfold.
  rewrite Hr. by rewrite decide_True.
Qed.

Lemma delete_room_good u c pkt s : good s → good (final_state (_delete_room u c pkt s)).
Proof.
  intros Hs.
  destruct (rooms (db s) !! delete_target pkt) as [r|] eqn:Hr;
    [|by rewrite delete_room_missing].
  destruct (decide (r_owner r = u)) as [Hown|Hown];
    [|by rewrite (delete_room_not_owner u c pkt s r)].
  destruct (decide (delete_target pkt ∈ default_rooms)) as [Hdef|Hdef];
    [by rewrite delete_default_room|].
  destruct (delete_room_run u c pkt s r Hr Hown Hdef) as [out1 ->]. simpl.
  pose proof (not_default_not_general _ Hdef) as Hname.
  pose proof (evict_all_good (elements (members s (delete_target pkt))) s Hs)
    as (Hloc & Hlist & Hin & Hgen).
  split; [done|]. split; [done|]. split.
  - intros u' info' Hc. simpl. rewrite lookup_delete_ne; [by eapply Hin|].
    intros Heq. by eapply (evicted_nobody_left (delete_target pkt) s u' info').
  - unfold has_general. simpl. rewrite lookup_delete_ne; [done|].
    intros Heq. by apply Hname.
Qed.

Lemma send_history_read_only u c pkt s : final_state (_send_history u c pkt s) = s.
Proof.
  unfold _send_history. handler_unfold.
  destruct (p_room pkt) as [r|]; [destruct (Text.is_empty r)|]; simpl;
    destruct (clients s !! u); simpl; try done;
    destruct (p_limit pkt); simpl; try done;
    destruct (rooms (db s) !! _); done.
Qed.

Lemma whois_read_only u c pkt s : final_state (_whois u c pkt s) = s.
Proof. unfold _whois. handler_unfold. by destruct (users (db s) !! _). Qed.

Lemma dispatch_good u c pkt now s : good s → good (final_state (dispatch u c pkt now s)).
Proof.
  intros Hs. unfold dispatch.
  repeat (case_decide;
    [first [ by apply delete_room_good
           | eapply growth_good; [|exact Hs];
             first [ apply handle_msg_grows | apply join_room_grows | apply create_room_grows
                   | apply handle_dm_grows | apply set_bio_grows
                   | apply read_only_grows; apply send_history_read_only
                   | apply read_only_grows; apply whois_read_only
                   | apply read_only_grows; by intros ?
                   | apply send_grows ] ] |]).
  exact Hs.
Qed.

Lemma good_with_users f s : good s → good (with_db (with_users f) s).
Proof. by intros (? & ? & ? & ?). Qed.

Lemma good_open s u c :
  clients s !! u = None → good s → good (with_clients (<[u := Session c "general"]>) s).
Proof.
  intros Hoff (Hloc & Hlist & Hin & Hgen).
  split; [by apply open_members_located|]. split; [|split; [|done]].
  - intros u' info'. simpl. destruct (decide (u' = u)) as [->|Hne].
    + rewrite lookup_insert_eq. by intros [= <-].
    + rewrite lookup_insert_ne by done. apply Hlist.
  - intros u' info'. simpl. destruct (decide (u' = u)) as [->|Hne].
    + rewrite lookup_insert_eq. by intros [= <-].
    + rewrite lookup_insert_ne by done. apply Hin.
Qed.

Lemma good_drop s u : good s → good (drop_session u s).
Proof.
  intros (Hloc & Hlist & Hin & Hgen).
  split; [by apply drop_members_located|]. split; [|split; [|done]].
  - intros u' info'. simpl. destruct (decide (u' = u)) as [->|Hne].
    + by rewrite lookup_delete_eq.
    + rewrite lookup_delete_ne by done. intros Hc Hroom.
      rewrite members_drop. simpl. case_decide as Hrm; [|by apply Hlist].
      apply elem_of_difference. split; [rewrite <- Hrm; by apply Hlist|].
      by rewrite elem_of_singleton.
  - intros u' info'. simpl. destruct (decide (u' = u)) as [->|Hne].
    + by rewrite lookup_delete_eq.
    + rewrite lookup_delete_ne by done. apply Hin.
Qed.

Section GoodWorlds.
Variable hash_pw : string → string.

Lemma connect_good w c auth now :
  consistent w → good (globals w) → good (globals (handle_connect hash_pw w c auth now).1).
Proof.
  intros [_ Hacc] Hw. unfold handle_connect.
  destruct (authenticate_result hash_pw (globals w) c auth now)
    as [why _|Hok Hact Hnew|usr Hok Hact Husr Hpw Hoff]; [done|..];
    rewrite open_session_result; simpl.
  - apply good_open; [|by apply good_with_users]. simpl.
    destruct (clients (globals w) !! auth_name auth) eqn:Hon; [|done].
    destruct (Hacc (auth_name auth)) as [[? Hx] _]; [by eexists|]. congruence.
  - by apply good_open.
Qed.

Lemma receive_good w c u pkt now :
  good (globals w) → good (globals (handle_receive w c u pkt now).1).
Proof.
  intros Hw. unfold handle_receive.
  pose proof (dispatch_good u c pkt now (globals w) Hw) as Hd.
  destruct (dispatch u c pkt now (globals w)); simpl in *; [done|by apply good_drop].
Qed.

Lemma step_good w ev w' out :
  consistent w → good (globals w) → step hash_pw w ev = Some (w', out) → good (globals w').
Proof.
  intros Hcons Hw. destruct ev as [c auth now|c pkt now|c]; simpl;
    destruct (threads w !! c) as [u|] eqn:Hc; simpl; try done;
    intros H; apply (inj Some) in H; apply (f_equal fst) in H; simpl in H; subst w'.
  - by apply connect_good.
  - by apply receive_good.
  - by apply good_drop.
  - done.
Qed.

Lemma reachable_good d w : has_general d → reachable hash_pw d w → good (globals w).
Proof.
  intros Hd. induction 1 as [|w ev w' out Hr IH Hstep].
  - split; [|split; [|split; [|done]]].
    + intros rm u. unfold members. simpl. rewrite lookup_empty. simpl.
      by intros ?%not_elem_of_empty.
    + intros u info. simpl. by rewrite lookup_empty.
    + intros u info. simpl. by rewrite lookup_empty.
  - eapply step_good; eauto using reachable_consistent.
Qed.

End GoodWorlds.

(** ** Moving between rooms *)

Lemma move_member_clients u info rm s u' :
  clients (move_member u info rm s) !! u' =
    if decide (u' = u) then Some (Session (s_conn info) rm) else clients s !! u'.
Proof.
  unfold move_member. simpl. case_decide as H; [subst; apply lookup_insert_eq|].
  by rewrite lookup_insert_ne.
Qed.

Lemma join_room_moves u c rm silent s info r :
  clients s !! u = Some info → rooms (db s) !! rm = Some r → s_room info ≠ rm →
  _join_room u c rm silent s =
    Returned tt (move_member u info rm s)
      (join_effects u c info rm r silent (move_member u info rm s)).
Proof.
  intros Hu Hr Hne. unfold _join_room, join_effects. handler_unfold.
  rewrite Hr. simpl. rewrite Hu. simpl. rewrite decide_False by done.
  destruct silent; simpl; first [done | by rewrite <- app_assoc | by rewrite app_assoc].
Qed.

(** X1.  A join of an existing room other than the recorded one moves the
    user: the session records the new room, the user enters its membership
    set and leaves the old one, other sets and the document are untouched.
    The user is sent a [joined] record last, with the topic, the 50 most
    recent messages and the members of the room in some order.  Before it,
    every other member of the new room who has a session is told that the
    user joined, and - unless the join is silent - every other member of
    the old room that the user left; nothing else is sent. *)
Theorem join_moves_user (u : string) (c : conn_id) (rm : string) (silent : bool)
    (s : state) (info : session) (r : room) :
  clients s !! u = Some info → rooms (db s) !! rm = Some r → s_room info ≠ rm →
  ∃ s' notices us,
    _join_room u c rm silent s
      = Returned tt s'
          (notices ++ [Send c (SJoined rm (r_topic r) (most_recent 50 (r_history r)) us)]) ∧
    us ≡ₚ elements (members s' rm) ∧
    clients s' !! u = Some (Session (s_conn info) rm) ∧
    (∀ u', u' ≠ u → clients s' !! u' = clients s !! u') ∧
    members s' rm = members s rm ∪ {[u]} ∧
    members s' (s_room info) = members s (s_room info) ∖ {[u]} ∧
    (∀ rm', rm' ≠ rm → rm' ≠ s_room info → members s' rm' = members s rm') ∧
    db s' = db s ∧
    (∀ e, e ∈ notices ↔
       (∃ u' info', u' ≠ u ∧ u' ∈ members s rm ∧ clients s !! u' = Some info' ∧
                    e = Send (s_conn info') (SSystem (JoinedRoom u rm))) ∨
       (silent = false ∧
        ∃ u' info', u' ≠ u ∧ u' ∈ members s (s_room info) ∧ clients s !! u' = Some info' ∧
                    e = Send (s_conn info') (SSystem (LeftRoom u (s_room info))))).
Proof.
  intros Hu Hr Hne.
  set (s' := move_member u info rm s).
  assert (∀ u', u' ≠ u → clients s' !! u' = clients s !! u') as Hothers
    by (by intros u' Hu'; unfold s'; rewrite move_member_clients, decide_False).
  assert (members s' rm = members s rm ∪ {[u]}) as Hnew
    by (by unfold s'; rewrite members_move, decide_True).
  assert (members s' (s_room info) = members s (s_room info) ∖ {[u]}) as Hold.
  { unfold s'. rewrite members_move by done. rewrite decide_False by done.
    by rewrite decide_True. }
  exists s',
    ((if silent then []
      else deliver_to s' (elements (members s' (s_room info)))
             (SSystem (LeftRoom u (s_room info))) (Some u))
     ++ deliver_to s' (elements (members s' rm)) (SSystem (JoinedRoom u rm)) (Some u)),
    (elements (members s' rm)).
  split.
  { rewrite (join_room_moves u c rm silent s info r Hu Hr Hne). fold s'.
    unfold join_effects. by rewrite (slice_from_negative 50), <- app_assoc. }
  split; [done|].
  split; [by unfold s'; rewrite move_member_clients, decide_True|].
  split; [exact Hothers|]. split; [exact Hnew|]. split; [exact Hold|].
  split; [by intros rm' H1 H2; unfold s'; rewrite members_move, !decide_False|].
  split; [done|].
  intros e. rewrite elem_of_app. split.
  - intros [Hin|Hin].
    + destruct silent; [by apply elem_of_nil in Hin|]. right. split; [done|].
      apply deliver_to_sound in Hin as (u' & i' & Hm & Hex & Hc' & ->).
      assert (u' ≠ u) as Hne' by congruence.
      apply elem_of_elements in Hm. rewrite Hold in Hm. apply elem_of_difference in Hm as [Hm _].
      rewrite Hothers in Hc' by done. by exists u', i'.
    + left. apply deliver_to_sound in Hin as (u' & i' & Hm & Hex & Hc' & ->).
      assert (u' ≠ u) as Hne' by congruence.
      apply elem_of_elements in Hm. rewrite Hnew in Hm.
      apply elem_of_union in Hm as [Hm|Hm%elem_of_singleton]; [|done].
      rewrite Hothers in Hc' by done. by exists u', i'.
  - intros [(u' & i' & Hne' & Hm & Hc' & ->)|[-> (u' & i' & Hne' & Hm & Hc' & ->)]].
    + right. apply (deliver_to_complete s' _ _ (Some u) u' i').
      * apply elem_of_elements. rewrite Hnew. apply elem_of_union. by left.
      * congruence.
      * by rewrite Hothers.
    + left. apply (deliver_to_complete s' _ _ (Some u) u' i').
      * apply elem_of_elements. rewrite Hold. apply elem_of_difference.
        split; [done|]. by intros ?%elem_of_singleton.
      * congruence.
      * by rewrite Hothers.
Qed.

Lemma join_moves_user_witness :
  (clients (globals (Sample.alice_online Sample.toy_hash)) !! "alice"
     = Some (Session 1 "general") ∧
   rooms (db (globals (Sample.alice_online Sample.toy_hash))) !! "tech"
     = Some Scenes.tech_room ∧
   s_room (Session 1 "general") ≠ "tech") ∧
  ∃ s' notices us,
    _join_room "alice" 1 "tech" true (globals (Sample.alice_online Sample.toy_hash))
      = Returned tt s'
          (notices ++ [Send 1 (SJoined "tech" "Technology discussions" [] us)]) ∧
    us ≡ₚ ["alice"] ∧
    clients s' !! "alice" = Some (Session 1 "tech").
Proof.
  assert (s_room (Session 1 "general") ≠ "tech") as Hne by discriminate.
  split; [split; [reflexivity|split; [reflexivity|exact Hne]]|].
  destruct (join_moves_user "alice" 1 "tech" true
              (globals (Sample.alice_online Sample.toy_hash)) (Session 1 "general")
              Scenes.tech_room eq_refl eq_refl Hne)
    as (s' & notices & us & Hrun & Hus & Hc & _ & Hm & _).
  exists s', notices, us. split; [exact Hrun|]. split; [|exact Hc].
  rewrite Hus, Hm. reflexivity.
Defined.

(** X2.  A join is refused without any change when the room is not in the
    document ("Room '...' does not exist.") and when it is the recorded
    room of the user ("You are already in #...."); the requester gets that
    one notice and nobody else is told. *)
Theorem join_refused_changes_nothing (u : string) (c : conn_id) (rm : string)
    (silent : bool) (s : state) :
  (rooms (db s) !! rm = None →
     _join_room u c rm silent s = Returned tt s [Send c (SSystem (RoomDoesNotExist rm))]) ∧
  (∀ info, is_Some (rooms (db s) !! rm) → clients s !! u = Some info → s_room info = rm →
     _join_room u c rm silent s = Returned tt s [Send c (SSystem (AlreadyInRoom rm))]).
Proof.
  split.
  - intros Hr. unfold _join_room. handler_unfold. by rewrite Hr.
  - intros info [r Hr] Hu Hroom. unfold _join_room. handler_unfold.
    rewrite Hr. simpl. rewrite Hu. simpl. by rewrite decide_True.
Qed.

Lemma join_refused_changes_nothing_witness :
  (rooms (db (globals (Sample.alice_online Sample.toy_hash))) !! "cellar" = None ∧
   _join_room "alice" 1 "cellar" true (globals (Sample.alice_online Sample.toy_hash))
     = Returned tt (globals (Sample.alice_online Sample.toy_hash))
         [Send 1 (SSystem (RoomDoesNotExist "cellar"))]) ∧
  (is_Some (rooms (db (globals (Sample.alice_online Sample.toy_hash))) !! "general") ∧
   clients (globals (Sample.alice_online Sample.toy_hash)) !! "alice"
     = Some (Session 1 "general") ∧
   _join_room "alice" 1 "general" true (globals (Sample.alice_online Sample.toy_hash))
     = Returned tt (globals (Sample.alice_online Sample.toy_hash))
         [Send 1 (SSystem (AlreadyInRoom "general"))]).
Proof.
  assert (is_Some (rooms (db (globals (Sample.alice_online Sample.toy_hash))) !! "general"))
    as Hgen by (eexists; reflexivity).
  destruct (join_refused_changes_nothing "alice" 1 "cellar" true
              (globals (Sample.alice_online Sample.toy_hash))) as [Hmissing _].
  destruct (join_refused_changes_nothing "alice" 1 "general" true
              (globals (Sample.alice_online Sample.toy_hash))) as [_ Hsame].
  split; [split; [reflexivity|exact (Hmissing eq_refl)]|].
  split; [exact Hgen|]. split; [reflexivity|].
  exact (Hsame (Session 1 "general") Hgen eq_refl eq_refl).
Defined.

(** ** Opening a room *)

Lemma prefix_length n s : (String.length (Text.prefix n s) ≤ n)%nat.
Proof.
  revert s. induction n as [|n IH]; intros s; simpl; [lia|].
  destruct s as [|ch s]; simpl; [lia|]. specialize (IH s). lia.
Qed.

Lemma deliver_to_everyone s pkt u info :
  clients s !! u = Some info →
  Send (s_conn info) pkt ∈ deliver_to s (online_list s) pkt None.
Proof.
  intros Hu. apply (deliver_to_complete s _ pkt None u info); [|done..].
  unfold online_list. apply elem_of_elements, elem_of_dom. by eexists.
Qed.

(** X3.  Creating a room under a free name of two characters or more
    stores the room with the trimmed topic (200 characters at most), an
    empty history and the creator as owner, tells everyone online (the
    creator included) with a [room_created] record, and moves the creator
    into the new room, who is sent a [joined] record with an empty history
    and the members in some order last.  Stated for ASCII name, topic and
    username, where bytes are characters and [log] cannot fail. *)
Theorem create_room_opens_room (u : string) (c : conn_id) (pkt : packet) (s : state)
    (info : session) :
  Text.is_ascii u = true → ascii_field (p_name pkt) → ascii_field (p_topic pkt) →
  2 ≤ Text.len (create_target pkt) →
  rooms (db s) !! create_target pkt = None →
  clients s !! u = Some info → is_Some (rooms (db s) !! s_room info) →
  ∃ s' out us,
    _create_room u c pkt s = Returned tt s' out ∧
    rooms (db s') = <[create_target pkt := Room (create_topic pkt) [] u]> (rooms (db s)) ∧
    Text.len (create_topic pkt) ≤ 200 ∧
    users (db s') = users (db s) ∧ dm_history (db s') = dm_history (db s) ∧
    clients s' !! u = Some (Session (s_conn info) (create_target pkt)) ∧
    u ∈ members s' (create_target pkt) ∧
    (∀ u' info', clients s !! u' = Some info' →
       Send (s_conn info') (SRoomCreated (create_target pkt) (create_topic pkt) u) ∈ out) ∧
    last out = Some (Send c (SJoined (create_target pkt) (create_topic pkt) [] us)) ∧
    us ≡ₚ elements (members s' (create_target pkt)).
Proof.
  intros _ _ _ Hlen Hfree Hu [r0 Hr0].
  set (name := create_target pkt) in *. set (topic := create_topic pkt) in *.
  set (s1 := with_room name topic u s).
  assert (s_room info ≠ name) as Hne by (intros Heq; rewrite Heq in Hr0; congruence).
  assert (rooms (db s1) !! name = Some (Room topic [] u)) as Hr1
    by (simpl; apply lookup_insert_eq).
  exists (move_member u info name s1),
    (deliver_to s1 (online_list s1) (SRoomCreated name topic u) None
     ++ join_effects u c info name (Room topic [] u) false (move_member u info name s1)),
    (elements (members (move_member u info name s1) name)).
  split.
  { unfold _create_room. fold (create_target pkt) (create_topic pkt). fold name topic.
    assert (Text.is_empty name || (Text.len name <? 2) = false) as ->.
    { destruct name; [unfold Text.len in Hlen; simpl in Hlen; lia|]. simpl. lia. }
    unfold mbind at 1. unfold M_bind, bind at 1. unfold get_state. rewrite Hfree.
    unfold mbind, M_bind, bind. unfold modify at 1. fold (with_room name topic u s).
    fold s1. unfold broadcast_all, get_state, emit. simpl.
    rewrite (join_room_moves u c name false s1 info (Room topic [] u) Hu Hr1 Hne).
    reflexivity. }
  split; [done|].
  split; [unfold Text.len, topic, create_topic; pose proof (prefix_length 200
            (Text.strip (get_or "" (p_topic pkt)))); lia|].
  split; [done|]. split; [done|].
  split; [by rewrite move_member_clients, decide_True|].
  split.
  { rewrite members_move by done. rewrite decide_True by done.
    apply elem_of_union. right. by apply elem_of_singleton. }
  split.
  { intros u' info' Hu'. apply elem_of_app. left.
    by apply (deliver_to_everyone s1 _ u' info'). }
  split; [|done]. unfold join_effects. rewrite !app_assoc. by rewrite last_snoc.
Qed.

Lemma club_reachable : reachable Sample.toy_hash default_document Scenes.club.
Proof.
  assert (fst <$> run Sample.toy_hash (boot default_document) Scenes.club_events
          = Some Scenes.club) as Hrun by (vm_compute; reflexivity).
  destruct (run Sample.toy_hash (boot default_document) Scenes.club_events)
    as [[w out]|] eqn:E; [|done].
  injection Hrun as <-. eapply run_reachable; [apply reachable_boot|exact E].
Qed.

Lemma create_room_opens_room_witness :
  (Text.is_ascii "alice" = true ∧
   ascii_field (p_name (Scenes.create_room_pkt "Book Club" " Reading together ")) ∧
   ascii_field (p_topic (Scenes.create_room_pkt "Book Club" " Reading together ")) ∧
   2 ≤ Text.len (create_target (Scenes.create_room_pkt "Book Club" " Reading together ")) ∧
   rooms (db (globals (Sample.both_online Sample.toy_hash)))
     !! create_target (Scenes.create_room_pkt "Book Club" " Reading together ") = None ∧
   clients (globals (Sample.both_online Sample.toy_hash)) !! "alice"
     = Some (Session 1 "general") ∧
   is_Some (rooms (db (globals (Sample.both_online Sample.toy_hash)))
              !! s_room (Session 1 "general"))) ∧
  ∃ s' out,
    _create_room "alice" 1 (Scenes.create_room_pkt "Book Club" " Reading together ")
      (globals (Sample.both_online Sample.toy_hash)) = Returned tt s' out ∧
    rooms (db s') !! "book-club" = Some Scenes.club_room ∧
    clients s' !! "alice" = Some (Session 1 "book-club").
Proof.
  assert (2 ≤ Text.len (create_target (Scenes.create_room_pkt "Book Club" " Reading together ")))
    as Hlen by (vm_compute; discriminate).
  assert (is_Some (rooms (db (globals (Sample.both_online Sample.toy_hash)))
                     !! s_room (Session 1 "general"))) as Hgen by (eexists; reflexivity).
  split.
  { split; [reflexivity|]. split; [reflexivity|]. split; [reflexivity|].
    split; [exact Hlen|split; [reflexivity|split; [reflexivity|exact Hgen]]]. }
  destruct (create_room_opens_room "alice" 1
              (Scenes.create_room_pkt "Book Club" " Reading together ")
              (globals (Sample.both_online Sample.toy_hash)) (Session 1 "general")
              eq_refl eq_refl eq_refl Hlen eq_refl eq_refl Hgen)
    as (s' & out & us & Hrun & Hrooms & _ & _ & _ & Hc & _).
  exists s', out. split; [exact Hrun|]. split; [|exact Hc].
  rewrite Hrooms. reflexivity.
Defined.

(** X4.  Creating a room is refused without any change when the name has
    fewer than two characters after trimming ("Room name must be >= 2
    characters.") and when a room of that name exists ("Room #... already
    exists."): an existing room keeps its topic, owner and history. *)
Theorem create_room_refused_changes_nothing (u : string) (c : conn_id) (pkt : packet)
    (s : state) :
  (Text.len (create_target pkt) < 2 →
     _create_room u c pkt s = Returned tt s [Send c (SSystem RoomNameTooShort)]) ∧
  (2 ≤ Text.len (create_target pkt) → is_Some (rooms (db s) !! create_target pkt) →
     _create_room u c pkt s
       = Returned tt s [Send c (SSystem (RoomAlreadyExists (create_target pkt)))]).
Proof.
  unfold _create_room. fold (create_target pkt). split.
  - intros Hshort.
    assert (Text.is_empty (create_target pkt) || (Text.len (create_target pkt) <? 2) = true)
      as -> by (apply orb_true_iff; right; lia).
    reflexivity.
  - intros Hlen [r Hr].
    assert (Text.is_empty (create_target pkt) || (Text.len (create_target pkt) <? 2) = false)
      as ->.
    { destruct (create_target pkt); [unfold Text.len in Hlen; simpl in Hlen; lia|].
      simpl. lia. }
    handler_unfold. by rewrite Hr.
Qed.

Lemma create_room_refused_changes_nothing_witness :
  (Text.len (create_target (Scenes.create_room_pkt " x " "")) < 2 ∧
   _create_room "alice" 1 (Scenes.create_room_pkt " x " "")
       (globals (Sample.alice_online Sample.toy_hash))
   = Returned tt (globals (Sample.alice_online Sample.toy_hash))
       [Send 1 (SSystem RoomNameTooShort)]) ∧
  (2 ≤ Text.len (create_target (Scenes.create_room_pkt "TECH" "mine")) ∧
   is_Some (rooms (db (globals (Sample.alice_online Sample.toy_hash)))
              !! create_target (Scenes.create_room_pkt "TECH" "mine")) ∧
   _create_room "alice" 1 (Scenes.create_room_pkt "TECH" "mine")
       (globals (Sample.alice_online Sample.toy_hash))
   = Returned tt (globals (Sample.alice_online Sample.toy_hash))
       [Send 1 (SSystem (RoomAlreadyExists "tech"))]).
Proof.
  assert (Text.len (create_target (Scenes.create_room_pkt " x " "")) < 2) as Hshort
    by (vm_compute; reflexivity).
  assert (2 ≤ Text.len (create_target (Scenes.create_room_pkt "TECH" "mine"))) as Hlen
    by (vm_compute; discriminate).
  assert (is_Some (rooms (db (globals (Sample.alice_online Sample.toy_hash)))
                     !! create_target (Scenes.create_room_pkt "TECH" "mine"))) as Hex
    by (eexists; reflexivity).
  destruct (create_room_refused_changes_nothing "alice" 1 (Scenes.create_room_pkt " x " "")
              (globals (Sample.alice_online Sample.toy_hash))) as [H1 _].
  destruct (create_room_refused_changes_nothing "alice" 1 (Scenes.create_room_pkt "TECH" "mine")
              (globals (Sample.alice_online Sample.toy_hash))) as [_ H2].
  split; [split; [exact Hshort|exact (H1 Hshort)]|].
  split; [exact Hlen|]. split; [exact Hex|exact (H2 Hlen Hex)].
Defined.

(** ** Removing a room *)

Lemma step_receive hash_pw w c u pkt now s out :
  threads w !! c = Some u → dispatch u c pkt now (globals w) = Returned tt s out →
  step hash_pw w (Receive c pkt now) = Some (World s (threads w), out).
Proof. intros Hc Hd. simpl. rewrite Hc. simpl. unfold handle_receive. by rewrite Hd. Qed.

Lemma dispatch_delete_room u c pkt now s :
  p_type pkt = Some "delete_room" → dispatch u c pkt now s = _delete_room u c pkt s.
Proof. intros Ht. unfold dispatch. rewrite Ht. by repeat case_decide. Qed.

Lemma default_document_has_general : has_general default_document.
Proof. by eexists. Qed.

(** X5.  When its owner deletes a room that is not a default room, the room
    leaves the document, everyone who was in its membership set is recorded
    in "general" and is in the set of "general", nobody is left recorded in
    the deleted room, everyone else keeps their session, and everyone
    online is told that the room was deleted. *)
Theorem owner_deletes_room (hash_pw : string → string) (d : document) (w : world)
    (c : conn_id) (u : string) (pkt : packet) (now : clock) (r : room) :
  has_general d → reachable hash_pw d w → threads w !! c = Some u →
  p_type pkt = Some "delete_room" →
  rooms (db (globals w)) !! delete_target pkt = Some r → r_owner r = u →
  delete_target pkt ∉ default_rooms →
  ∃ w' out,
    step hash_pw w (Receive c pkt now) = Some (w', out) ∧
    threads w' = threads w ∧
    rooms (db (globals w')) = delete (delete_target pkt) (rooms (db (globals w))) ∧
    (∀ u' info, clients (globals w') !! u' = Some info →
       s_room info ≠ delete_target pkt ∧ is_Some (rooms (db (globals w')) !! s_room info)) ∧
    (∀ u', u' ∈ members (globals w) (delete_target pkt) →
       ∃ c', clients (globals w') !! u' = Some (Session c' "general") ∧
             u' ∈ members (globals w') "general") ∧
    (∀ u' info, clients (globals w) !! u' = Some info → s_room info ≠ delete_target pkt →
       clients (globals w') !! u' = Some info) ∧
    (∀ u' info, clients (globals w') !! u' = Some info →
       Send (s_conn info) (SSystem (RoomWasDeleted (delete_target pkt) u)) ∈ out).
Proof.
  intros Hd Hw Hc Ht Hr Hown Hdef.
  pose proof (reachable_good hash_pw d w Hd Hw) as Hgood.
  pose proof (not_default_not_general _ Hdef) as Hname.
  set (name := delete_target pkt) in *. set (s := globals w) in *.
  destruct (delete_room_run u c pkt s r Hr Hown Hdef) as [out1 Hrun].
  fold name in Hrun.
  set (s1 := final_state (evict_all (elements (members s name)) s)) in *.
  set (s2 := with_db (with_rooms (delete name)) s1) in *.
  pose proof (delete_room_good u c pkt s Hgood) as Hgood2. rewrite Hrun in Hgood2.
  simpl in Hgood2. fold s2 in Hgood2.
  destruct Hgood as (Hloc & Hlist & Hin & Hgen).
  eexists (World s2 (threads w)), _. split.
  { eapply step_receive; [exact Hc|]. rewrite dispatch_delete_room by done. exact Hrun. }
  split; [done|].
  split; [simpl; unfold s1; by rewrite evict_all_db|].
  split.
  { intros u' info Hu'. split.
    - apply (evicted_nobody_left name s u' info); [done..|exact Hu'].
    - destruct Hgood2 as (_ & _ & Hin2 & _). by apply (Hin2 u' info). }
  split.
  { intros u' Hmem. destruct (Hloc _ _ Hmem) as [c' Hc']. exists c'. split.
    - simpl. unfold s1. rewrite evict_all_clients by done. rewrite Hc'. simpl.
      rewrite decide_True; [done|by apply elem_of_elements].
    - change (members s2 "general") with (members s1 "general").
      destruct (evict_all_general (elements (members s name)) s Hgen) as [_ Hall].
      apply (Hall u' (Session c' name)); [by apply elem_of_elements|done|done]. }
  split.
  { intros u' info Hu' Hroom. simpl. unfold s1. rewrite evict_all_clients by done.
    rewrite Hu'. simpl. rewrite decide_False; [done|].
    intros Hmem%elem_of_elements. destruct (Hloc _ _ Hmem) as [c' Hc'].
    rewrite Hu' in Hc'. injection Hc' as ->. done. }
  intros u' info Hu'. apply elem_of_app. right.
  by apply (deliver_to_everyone s2 _ u' info).
Qed.

Lemma owner_deletes_room_witness :
  (has_general default_document ∧
   reachable Sample.toy_hash default_document Scenes.club ∧
   threads Scenes.club !! 1%nat = Some "alice" ∧
   p_type (Sample.delete_room_pkt "Book-Club") = Some "delete_room" ∧
   rooms (db (globals Scenes.club)) !! delete_target (Sample.delete_room_pkt "Book-Club")
     = Some Scenes.club_room ∧
   r_owner Scenes.club_room = "alice" ∧
   delete_target (Sample.delete_room_pkt "Book-Club") ∉ default_rooms) ∧
  ∃ w' out,
    step Sample.toy_hash Scenes.club (Receive 1 (Sample.delete_room_pkt "Book-Club") Sample.noon)
      = Some (w', out) ∧
    rooms (db (globals w')) !! "book-club" = None ∧
    s_room <$> clients (globals w') !! "bob" = Some "general" ∧
    "bob" ∈ members (globals w') "general".
Proof.
  assert (delete_target (Sample.delete_room_pkt "Book-Club") ∉ default_rooms) as Hdef.
  { intros Hin. vm_compute in Hin.
    repeat (apply elem_of_cons in Hin as [Hin|Hin]; [discriminate Hin|]).
    by apply elem_of_nil in Hin. }
  assert (rooms (db (globals Scenes.club)) !! delete_target (Sample.delete_room_pkt "Book-Club")
          = Some Scenes.club_room) as Hr by (vm_compute; reflexivity).
  assert (threads Scenes.club !! 1%nat = Some "alice") as Hc by (vm_compute; reflexivity).
  split.
  { split; [apply default_document_has_general|]. split; [apply club_reachable|].
    split; [exact Hc|]. split; [reflexivity|]. split; [exact Hr|].
    split; [reflexivity|exact Hdef]. }
  destruct (owner_deletes_room Sample.toy_hash default_document Scenes.club 1 "alice"
              (Sample.delete_room_pkt "Book-Club") Sample.noon Scenes.club_room
              default_document_has_general club_reachable Hc eq_refl Hr eq_refl Hdef)
    as (w' & out & Hstep & _ & Hrooms & _ & Hmoved & _).
  exists w', out. split; [exact Hstep|]. split.
  { rewrite Hrooms. apply lookup_delete_eq. }
  assert ("bob" ∈ members (globals Scenes.club)
            (delete_target (Sample.delete_room_pkt "Book-Club"))) as Hbob
    by (vm_compute; reflexivity).
  destruct (Hmoved "bob" Hbob) as (c' & Hcb & Hmb).
  split; [by rewrite Hcb|exact Hmb].
Defined.

(** X6.  A [delete_room] for a room that is not in the document, or by
    someone who is not its recorded owner, changes nothing; the requester
    gets "Room #... not found." or "Only the owner can delete a room.".
    Stated for an ASCII name, which [lower()] and [strip()] treat as
    [Text.lower] and [Text.strip] do. *)
Theorem delete_room_refused_changes_nothing (u : string) (c : conn_id) (pkt : packet)
    (s : state) :
  ascii_field (p_name pkt) →
  (rooms (db s) !! delete_target pkt = None →
     _delete_room u c pkt s
       = Returned tt s [Send c (SSystem (RoomNotFound (delete_target pkt)))]) ∧
  (∀ r, rooms (db s) !! delete_target pkt = Some r → r_owner r ≠ u →
     _delete_room u c pkt s = Returned tt s [Send c (SSystem OnlyOwnerCanDelete)]).
Proof.
  intros _. split; [apply delete_room_missing|]. intros r. apply delete_room_not_owner.
Qed.

Lemma delete_room_refused_changes_nothing_witness :
  (ascii_field (p_name (Sample.delete_room_pkt "attic")) ∧
   ascii_field (p_name (Sample.delete_room_pkt "book-club"))) ∧
  (rooms (db (globals Scenes.club)) !! delete_target (Sample.delete_room_pkt "attic") = None ∧
   _delete_room "bob" 2 (Sample.delete_room_pkt "attic") (globals Scenes.club)
     = Returned tt (globals Scenes.club) [Send 2 (SSystem (RoomNotFound "attic"))]) ∧
  (rooms (db (globals Scenes.club)) !! delete_target (Sample.delete_room_pkt "book-club")
     = Some Scenes.club_room ∧
   r_owner Scenes.club_room ≠ "bob" ∧
   _delete_room "bob" 2 (Sample.delete_room_pkt "book-club") (globals Scenes.club)
     = Returned tt (globals Scenes.club) [Send 2 (SSystem OnlyOwnerCanDelete)]).
Proof.
  assert (rooms (db (globals Scenes.club)) !! delete_target (Sample.delete_room_pkt "attic")
          = None) as Hmissing by (vm_compute; reflexivity).
  assert (rooms (db (globals Scenes.club)) !! delete_target (Sample.delete_room_pkt "book-club")
          = Some Scenes.club_room) as Hroom by (vm_compute; reflexivity).
  assert (r_owner Scenes.club_room ≠ "bob") as Hown by discriminate.
  destruct (delete_room_refused_changes_nothing "bob" 2 (Sample.delete_room_pkt "attic")
              (globals Scenes.club) eq_refl) as [H1 _].
  destruct (delete_room_refused_changes_nothing "bob" 2 (Sample.delete_room_pkt "book-club")
              (globals Scenes.club) eq_refl) as [_ H2].
  split; [split; reflexivity|].
  split; [split; [exact Hmissing|exact (H1 Hmissing)]|].
  split; [exact Hroom|]. split; [exact Hown|exact (H2 _ Hroom Hown)].
Defined.

(** ** Direct messages, stored and delivered *)

Lemma most_recent_snoc {A} (n : nat) (h : list A) (e : A) :
  most_recent (S n) (h ++ [e]) = most_recent n h ++ [e].
Proof.
  unfold most_recent. rewrite length_app. simpl.
  replace (length h + 1 - S n)%nat with (length h - n)%nat by lia.
  apply drop_app_le. lia.
Qed.

Lemma push_dm_history_last h e : last (push_dm_history h e) = Some e.
Proof.
  rewrite push_dm_history_recent. change 200%nat with (S 199).
  rewrite most_recent_snoc. apply last_snoc.
Qed.

Lemma push_room_history_last h e : last (push_room_history h e) = Some e.
Proof.
  rewrite push_room_history_recent. change 500%nat with (S 499).
  rewrite most_recent_snoc. apply last_snoc.
Qed.

(** X7.  An accepted direct message (target and text not empty after
    trimming, target not the sender) becomes the last entry of the thread
    of the two, whichever of them asks, with the sender's own name as
    [from]; other threads, sessions, rooms and accounts are untouched.  The
    sender gets the echo first; then the target gets the same record when
    online, otherwise the sender is told "... is offline. Message saved." -
    also when nobody has registered the target name.  Stated for ASCII
    target and text, which Python trims and lower-cases as [Text] does. *)
Theorem dm_is_stored_and_delivered (u : string) (c : conn_id) (pkt : packet)
    (now : clock) (s : state) :
  ascii_field (p_to pkt) → ascii_field (p_text pkt) →
  dm_target pkt ≠ "" → msg_text pkt ≠ "" → dm_target pkt ≠ u →
  ∃ s' out e,
    e = DmEntry u (dm_target pkt) (msg_text pkt) (now_ts now) (now_full_ts now) ∧
    _handle_dm u c pkt now s = Returned tt s' out ∧
    last (dm_thread s' u (dm_target pkt)) = Some e ∧
    last (dm_thread s' (dm_target pkt) u) = Some e ∧
    (∀ key, key ≠ dm_key u (dm_target pkt) →
       dm_history (db s') !! key = dm_history (db s) !! key) ∧
    clients s' = clients s ∧ room_users s' = room_users s ∧
    rooms (db s') = rooms (db s) ∧ users (db s') = users (db s) ∧
    (∀ ti, clients s !! dm_target pkt = Some ti →
       out = [Send c (SDm e); Send (s_conn ti) (SDm e)]) ∧
    (clients s !! dm_target pkt = None →
       out = [Send c (SDm e); Send c (SSystem (TargetOffline (dm_target pkt)))]).
Proof.
  intros _ _ Ht Hx Hself. eexists _, _, _. split; [reflexivity|].
  split; [by apply handle_dm_accepted|].
  split; [by rewrite dm_thread_with_dm, push_dm_history_last|].
  split.
  { rewrite (dm_thread_comm _ (dm_target pkt) u).
    by rewrite dm_thread_with_dm, push_dm_history_last. }
  split; [intros key Hkey; simpl; by rewrite lookup_insert_ne|].
  do 4 (split; [done|]).
  split; [by intros ti ->|by intros ->].
Qed.

Lemma dm_is_stored_and_delivered_witness :
  (ascii_field (p_to Sample.greeting_pkt) ∧ ascii_field (p_text Sample.greeting_pkt)) ∧
  (dm_target Sample.greeting_pkt ≠ "" ∧ msg_text Sample.greeting_pkt ≠ "" ∧
   dm_target Sample.greeting_pkt ≠ "bob") ∧
  ∃ s' out,
    _handle_dm "bob" 2 Sample.greeting_pkt Sample.noon
      (globals (Sample.both_online Sample.toy_hash)) = Returned tt s' out ∧
    last (dm_thread s' "alice" "bob") = Some Sample.greeting ∧
    out = [Send 2 (SDm Sample.greeting); Send 1 (SDm Sample.greeting)].
Proof.
  assert (dm_target Sample.greeting_pkt ≠ "" ∧ msg_text Sample.greeting_pkt ≠ "" ∧
          dm_target Sample.greeting_pkt ≠ "bob") as Hyp
    by (vm_compute; repeat split; discriminate).
  split; [split; reflexivity|].
  split; [exact Hyp|]. destruct Hyp as (H1 & H2 & H3).
  destruct (dm_is_stored_and_delivered "bob" 2 Sample.greeting_pkt Sample.noon
              (globals (Sample.both_online Sample.toy_hash)) eq_refl eq_refl H1 H2 H3)
    as (s' & out & e & -> & Hrun & _ & Hlast & _ & _ & _ & _ & _ & Hon & _).
  exists s', out. split; [exact Hrun|]. split; [exact Hlast|].
  exact (Hon (Session 1 "general") eq_refl).
Defined.



(** ** Profiles *)

Lemma whois_known v c pkt s usr :
  users (db s) !! whois_target pkt = Some usr →
  _whois v c pkt s =
    Returned tt s
      [Send c (SWhois (whois_target pkt) (u_joined usr) (u_bio usr)
                 (bool_decide (is_Some (clients s !! whois_target pkt)))
                 (s_room <$> clients s !! whois_target pkt))].
Proof.
  intros Hu. unfold _whois. fold (whois_target pkt). handler_unfold. rewrite Hu.
  by destruct (clients s !! whois_target pkt).
Qed.

(** X9.  A [whois] changes nothing.  For a name without an account the
    requester gets "User '...' not found."; for an account the record
    carries its joined-at and bio, marks it online exactly when it has a
    session, and names a room exactly then - the session's recorded
    room.  Stated for an ASCII name in the request. *)
Theorem whois_reports_account_and_presence (v : string) (c : conn_id) (pkt : packet)
    (s : state) :
  ascii_field (p_user pkt) →
  (users (db s) !! whois_target pkt = None →
     _whois v c pkt s = Returned tt s [Send c (SSystem (NoSuchUser (whois_target pkt)))]) ∧
  (∀ usr, users (db s) !! whois_target pkt = Some usr →
     ∃ online rm,
       _whois v c pkt s
         = Returned tt s [Send c (SWhois (whois_target pkt) (u_joined usr) (u_bio usr) online rm)] ∧
       (online = true ↔ is_Some (clients s !! whois_target pkt)) ∧
       (∀ r, rm = Some r ↔ ∃ c', clients s !! whois_target pkt = Some (Session c' r))).
Proof.
  intros _. split.
  - intros Hu. unfold _whois. fold (whois_target pkt). handler_unfold. by rewrite Hu.
  - intros usr Hu. eexists _, _. split; [by apply whois_known|]. split.
    + by rewrite bool_decide_eq_true.
    + intros r. destruct (clients s !! whois_target pkt) as [[c' r']|]; simpl.
      * split; [intros [= ->]; eauto|intros [c'' [= _ ->]]; done].
      * split; [done|intros [? ?]; done].
Qed.

Lemma whois_reports_account_and_presence_witness :
  (ascii_field (p_user (Scenes.whois_pkt "Carol")) ∧
   ascii_field (p_user (Scenes.whois_pkt " Alice"))) ∧
  (users (db (globals (Sample.alice_online Sample.toy_hash)))
     !! whois_target (Scenes.whois_pkt "Carol") = None ∧
   _whois "alice" 1 (Scenes.whois_pkt "Carol") (globals (Sample.alice_online Sample.toy_hash))
   = Returned tt (globals (Sample.alice_online Sample.toy_hash))
       [Send 1 (SSystem (NoSuchUser "carol"))]) ∧
  (users (db (globals (Sample.alice_online Sample.toy_hash)))
     !! whois_target (Scenes.whois_pkt " Alice") = Some (Sample.alice_account Sample.toy_hash) ∧
   ∃ online rm,
     _whois "alice" 1 (Scenes.whois_pkt " Alice") (globals (Sample.alice_online Sample.toy_hash))
     = Returned tt (globals (Sample.alice_online Sample.toy_hash))
         [Send 1 (SWhois "alice" "2026-01-01 12:00:00" "" online rm)] ∧
     online = true ∧ rm = Some "general").
Proof.
  destruct (whois_reports_account_and_presence "alice" 1 (Scenes.whois_pkt "Carol")
              (globals (Sample.alice_online Sample.toy_hash)) eq_refl) as [Hunknown _].
  destruct (whois_reports_account_and_presence "alice" 1 (Scenes.whois_pkt " Alice")
              (globals (Sample.alice_online Sample.toy_hash)) eq_refl) as [_ Hknown].
  split; [split; reflexivity|].
  split; [split; [reflexivity|exact (Hunknown eq_refl)]|].
  split; [reflexivity|].
  destruct (Hknown (Sample.alice_account Sample.toy_hash) eq_refl)
    as (online & rm & Hrun & Hon & Hrm).
  exists online, rm. split; [exact Hrun|]. split.
  - apply Hon. eexists. reflexivity.
  - apply Hrm. exists 1%nat. reflexivity.
Defined.

Lemma set_bio_known u c pkt s usr :
  users (db s) !! u = Some usr →
  set_bio u c pkt s =
    Returned tt
      (with_db (with_users
         (<[u := User (u_pw usr) (u_joined usr) (Text.prefix 200 (get_or "" (p_bio pkt)))]>)) s)
      [Send c (SSystem BioUpdated)].
Proof. intros Hu. unfold set_bio. handler_unfold. by rewrite Hu. Qed.

(** X10.  [set_bio] keeps the first 200 characters of the text as it was
    sent (it is not trimmed), leaves the password hash, the joined-at and
    every other account alone, and a following [whois] of that user shows
    the stored bio.  Stated for an ASCII bio, of which [Text.prefix] keeps
    the characters [[:200]] keeps, and an ASCII name in the [whois]. *)
Theorem bio_is_cut_and_shown (u v : string) (c c' : conn_id) (pkt wp : packet)
    (s : state) (usr : user) :
  ascii_field (p_bio pkt) → ascii_field (p_user wp) →
  users (db s) !! u = Some usr → whois_target wp = u →
  ∃ s' bio,
    bio = Text.prefix 200 (get_or "" (p_bio pkt)) ∧ Text.len bio ≤ 200 ∧
    set_bio u c pkt s = Returned tt s' [Send c (SSystem BioUpdated)] ∧
    users (db s') !! u = Some (User (u_pw usr) (u_joined usr) bio) ∧
    (∀ u', u' ≠ u → users (db s') !! u' = users (db s) !! u') ∧
    rooms (db s') = rooms (db s) ∧ clients s' = clients s ∧
    ∃ online rm,
      _whois v c' wp s' = Returned tt s' [Send c' (SWhois u (u_joined usr) bio online rm)].
Proof.
  intros _ _ Hu Hwp. eexists _, _. split; [reflexivity|].
  split; [unfold Text.len; pose proof (prefix_length 200 (get_or "" (p_bio pkt))); lia|].
  split; [by apply set_bio_known|].
  split; [simpl; apply lookup_insert_eq|].
  split; [intros u' Hne; simpl; by rewrite lookup_insert_ne|].
  split; [done|]. split; [done|].
  eexists _, _. subst u.
  apply (whois_known v c' wp _
           (User (u_pw usr) (u_joined usr) (Text.prefix 200 (get_or "" (p_bio pkt))))).
  simpl. apply lookup_insert_eq.
Qed.

Lemma bio_is_cut_and_shown_witness :
  (ascii_field (p_bio (Scenes.set_bio_pkt " reads a lot ")) ∧
   ascii_field (p_user (Scenes.whois_pkt "ALICE")) ∧
   users (db (globals (Sample.both_online Sample.toy_hash))) !! "alice"
     = Some (Sample.alice_account Sample.toy_hash) ∧
   whois_target (Scenes.whois_pkt "ALICE") = "alice") ∧
  ∃ s' online rm,
    set_bio "alice" 1 (Scenes.set_bio_pkt " reads a lot ")
      (globals (Sample.both_online Sample.toy_hash))
    = Returned tt s' [Send 1 (SSystem BioUpdated)] ∧
    _whois "bob" 2 (Scenes.whois_pkt "ALICE") s'
    = Returned tt s'
        [Send 2 (SWhois "alice" "2026-01-01 12:00:00" " reads a lot " online rm)].
Proof.
  split; [split; [reflexivity|split; [reflexivity|split; reflexivity]]|].
  destruct (bio_is_cut_and_shown "alice" "bob" 1 2 (Scenes.set_bio_pkt " reads a lot ")
              (Scenes.whois_pkt "ALICE") (globals (Sample.both_online Sample.toy_hash))
              (Sample.alice_account Sample.toy_hash) eq_refl eq_refl eq_refl eq_refl)
    as (s' & bio & -> & _ & Hset & _ & _ & _ & _ & online & rm & Hwho).
  exists s', online, rm. split; [exact Hset|exact Hwho].
Defined.

(** ** Leaving and coming back *)

Lemma step_lost hash_pw w c u :
  threads w !! c = Some u →
  step hash_pw w (Lost c)
  = Some (World (drop_session u (globals w)) (delete c (threads w)),
          deliver_to (drop_session u (globals w)) (online_list (drop_session u (globals w)))
            (SSystem (WentOffline u)) None ++ [Close c]).
Proof. intros Hc. simpl. by rewrite Hc. Qed.

(** X11.  When the connection of a user is lost, the handler thread ends,
    the session is removed, the user is in no membership set any more, the
    document and everyone else's session stay as they were, everyone still
    online is told that the user went offline, and the connection is
    closed last. *)
Theorem lost_connection_cleans_up (hash_pw : string → string) (d : document) (w : world)
    (c : conn_id) (u : string) :
  reachable hash_pw d w → threads w !! c = Some u →
  ∃ w' out,
    step hash_pw w (Lost c) = Some (w', out) ∧
    threads w' = delete c (threads w) ∧
    clients (globals w') = delete u (clients (globals w)) ∧
    (∀ rm, u ∉ members (globals w') rm) ∧
    (∀ rm u', u' ≠ u → (u' ∈ members (globals w') rm ↔ u' ∈ members (globals w) rm)) ∧
    db (globals w') = db (globals w) ∧
    (∀ u' info, clients (globals w') !! u' = Some info →
       Send (s_conn info) (SSystem (WentOffline u)) ∈ out) ∧
    last out = Some (Close c).
Proof.
  intros Hw Hc.
  pose proof (reachable_members_located hash_pw d w Hw) as Hloc.
  eexists _, _. split; [by apply step_lost|].
  split; [done|]. split; [done|]. split.
  { intros rm. simpl. rewrite members_drop. simpl. case_decide as Hrm.
    - rewrite elem_of_difference, elem_of_singleton. by intros [_ []].
    - intros [c' Hc']%Hloc. rewrite Hc' in Hrm. done. }
  split.
  { intros rm u' Hne. simpl. rewrite members_drop. simpl. case_decide as Hrm; [|done].
    rewrite elem_of_difference, elem_of_singleton. subst rm. tauto. }
  split; [done|]. split.
  { intros u' info Hu'. apply elem_of_app. left.
    by apply (deliver_to_everyone _ _ u' info). }
  apply last_snoc.
Qed.

Lemma lost_connection_cleans_up_witness :
  (reachable Sample.toy_hash default_document Scenes.club ∧
   threads Scenes.club !! 2%nat = Some "bob") ∧
  ∃ w' out,
    step Sample.toy_hash Scenes.club (Lost 2) = Some (w', out) ∧
    clients (globals w') !! "bob" = None ∧
    ("bob" ∉ members (globals w') "book-club") ∧
    last out = Some (Close 2).
Proof.
  assert (threads Scenes.club !! 2%nat = Some "bob") as Hc by (vm_compute; reflexivity).
  split; [split; [apply club_reachable|exact Hc]|].
  destruct (lost_connection_cleans_up Sample.toy_hash default_document Scenes.club 2 "bob"
              club_reachable Hc) as (w' & out & Hstep & _ & Hcl & Hmem & _ & _ & _ & Hlast).
  exists w', out. split; [exact Hstep|]. split; [|split; [apply Hmem|exact Hlast]].
  rewrite Hcl. apply lookup_delete_eq.
Defined.

Section Logins.
Variable hash_pw : string → string.

Lemma authenticate_login_ok s c auth now usr :
  name_ok (auth_name auth) → p_action auth = Some "login" →
  users (db s) !! auth_name auth = Some usr →
  u_pw usr = hash_pw (get_or "" (p_password auth)) →
  clients s !! auth_name auth = None →
  authenticate hash_pw c auth now s = Returned (Some (auth_name auth)) s [].
Proof.
  intros Hok Hact Husr Hpw Hoff. unfold authenticate, reject.
  fold (auth_name auth). unfold name_ok in Hok. rewrite Hok, Hact.
  handler_unfold. rewrite Husr. simpl.
  rewrite decide_False by (intros Hne; by apply Hne).
  rewrite decide_False; [done|]. rewrite Hoff. apply is_Some_None.
Qed.

Lemma authenticate_short_name s c auth now :
  ¬ name_ok (auth_name auth) →
  authenticate hash_pw c auth now s
    = Returned None s [Send c (SAuthFail ShortUsername); Close c].
Proof.
  intros Hbad. unfold authenticate, reject. fold (auth_name auth). unfold name_ok in Hbad.
  destruct (Text.is_empty (auth_name auth) || (Text.len (auth_name auth) <? 2)); [done|].
  by destruct Hbad.
Qed.

Lemma authenticate_login_cases s c auth now :
  name_ok (auth_name auth) → p_action auth = Some "login" →
  authenticate hash_pw c auth now s =
    match users (db s) !! auth_name auth with
    | None => Returned None s [Send c (SAuthFail UserNotFound); Close c]
    | Some usr =>
        if decide (u_pw usr = hash_pw (get_or "" (p_password auth))) then
          match clients s !! auth_name auth with
          | Some _ => Returned None s [Send c (SAuthFail AlreadyLoggedIn); Close c]
          | None => Returned (Some (auth_name auth)) s []
          end
        else Returned None s [Send c (SAuthFail WrongPassword); Close c]
    end.
Proof.
  intros Hok Hact. unfold authenticate, reject.
  fold (auth_name auth). unfold name_ok in Hok. rewrite Hok, Hact.
  handler_unfold. destruct (users (db s) !! auth_name auth) as [usr|]; simpl; [|done].
  destruct (decide (u_pw usr = hash_pw (get_or "" (p_password auth)))) as [Hpw|Hpw].
  - rewrite decide_False by (intros Hne; by apply Hne).
    destruct (clients s !! auth_name auth) as [info|].
    + rewrite decide_True; [done|by eexists].
    + rewrite decide_False; [done|apply is_Some_None].
  - by rewrite decide_True.
Qed.

(** X12.  With a username of two characters or more, a [login] is decided
    in this order: no such account - "User not found."; the stored hash
    differs from the hash of the password sent - "Wrong password."; a
    session exists - "Already logged in from another session."; otherwise
    the name is authenticated.  A login never changes the globals, and a
    refusal is a negative [auth] record followed by closing the
    connection.  Stated for ASCII username and password: Python trims and
    lower-cases the name as [Text] does, and [hash_pw] cannot fail. *)
Theorem login_outcomes (s : state) (c : conn_id) (auth : packet) (now : clock) :
  ascii_field (p_username auth) → ascii_field (p_password auth) →
  name_ok (auth_name auth) → p_action auth = Some "login" →
  (users (db s) !! auth_name auth = None →
     authenticate hash_pw c auth now s
       = Returned None s [Send c (SAuthFail UserNotFound); Close c]) ∧
  (∀ usr, users (db s) !! auth_name auth = Some usr →
     (u_pw usr ≠ hash_pw (get_or "" (p_password auth)) →
        authenticate hash_pw c auth now s
          = Returned None s [Send c (SAuthFail WrongPassword); Close c]) ∧
     (u_pw usr = hash_pw (get_or "" (p_password auth)) →
        is_Some (clients s !! auth_name auth) →
        authenticate hash_pw c auth now s
          = Returned None s [Send c (SAuthFail AlreadyLoggedIn); Close c]) ∧
     (u_pw usr = hash_pw (get_or "" (p_password auth)) →
        clients s !! auth_name auth = None →
        authenticate hash_pw c auth now s = Returned (Some (auth_name auth)) s [])).
Proof.
  intros _ _ Hok Hact. rewrite (authenticate_login_cases s c auth now Hok Hact). split.
  - by intros ->.
  - intros usr ->. split; [|split].
    + intros Hpw. by rewrite decide_False.
    + intros Hpw [info ->]. by rewrite decide_True.
    + intros Hpw ->. by rewrite decide_True.
Qed.

(** X13.  A [register] under a free username of two characters or more
    creates the account with the hash of the password sent (an absent
    password counts as the empty one), the current time as joined-at and an
    empty bio, and touches no other account; under a taken username it is
    refused with "Username already taken." and changes nothing.  A username
    shorter than two characters after trimming is refused first, whatever
    the action, and an action other than "register" and "login" is refused
    as unknown.  Stated for ASCII username and password: Python trims,
    lower-cases and measures the name as [Text] does, and [hash_pw] and
    [log] cannot fail. *)
Theorem register_outcomes (s : state) (c : conn_id) (auth : packet) (now : clock) :
  ascii_field (p_username auth) → ascii_field (p_password auth) →
  (¬ name_ok (auth_name auth) →
     authenticate hash_pw c auth now s
       = Returned None s [Send c (SAuthFail ShortUsername); Close c]) ∧
  (name_ok (auth_name auth) → p_action auth = Some "register" →
     is_Some (users (db s) !! auth_name auth) →
     authenticate hash_pw c auth now s
       = Returned None s [Send c (SAuthFail UsernameTaken); Close c]) ∧
  (name_ok (auth_name auth) → p_action auth = Some "register" →
     users (db s) !! auth_name auth = None →
     ∃ s',
       authenticate hash_pw c auth now s = Returned (Some (auth_name auth)) s' [] ∧
       users (db s') !! auth_name auth
         = Some (User (hash_pw (get_or "" (p_password auth))) (now_full_ts now) "") ∧
       (∀ u', u' ≠ auth_name auth → users (db s') !! u' = users (db s) !! u') ∧
       rooms (db s') = rooms (db s) ∧ clients s' = clients s) ∧
  (name_ok (auth_name auth) → p_action auth ≠ Some "register" →
     p_action auth ≠ Some "login" →
     authenticate hash_pw c auth now s
       = Returned None s [Send c (SAuthFail UnknownAction); Close c]).
Proof.
  intros _ _. split; [apply authenticate_short_name|].
  unfold authenticate, reject. fold (auth_name auth). unfold name_ok.
  split; [|split].
  - intros -> -> [usr Hu]. handler_unfold. by rewrite Hu.
  - intros -> -> Hu. handler_unfold. rewrite Hu. simpl. eexists. split; [reflexivity|].
    split; [simpl; apply lookup_insert_eq|].
    split; [intros u' Hne; simpl; by rewrite lookup_insert_ne|done].
  - intros -> Hreg Hlog. by rewrite !decide_False.
Qed.

End Logins.

Lemma login_outcomes_witness :
  (ascii_field (p_username (Sample.login_pkt " Alice " "guess")) ∧
   ascii_field (p_password (Sample.login_pkt " Alice " "guess")) ∧
   name_ok (auth_name (Sample.login_pkt " Alice " "guess")) ∧
   p_action (Sample.login_pkt " Alice " "guess") = Some "login" ∧
   users (db (globals (Sample.alice_online Sample.toy_hash)))
     !! auth_name (Sample.login_pkt " Alice " "guess")
     = Some (Sample.alice_account Sample.toy_hash) ∧
   u_pw (Sample.alice_account Sample.toy_hash)
     ≠ Sample.toy_hash (get_or "" (p_password (Sample.login_pkt " Alice " "guess")))) ∧
  authenticate Sample.toy_hash 5 (Sample.login_pkt " Alice " "guess") Sample.noon
    (globals (Sample.alice_online Sample.toy_hash))
  = Returned None (globals (Sample.alice_online Sample.toy_hash))
      [Send 5 (SAuthFail WrongPassword); Close 5].
Proof.
  assert (name_ok (auth_name (Sample.login_pkt " Alice " "guess"))) as Hok by reflexivity.
  assert (u_pw (Sample.alice_account Sample.toy_hash)
          ≠ Sample.toy_hash (get_or "" (p_password (Sample.login_pkt " Alice " "guess"))))
    as Hpw by (vm_compute; discriminate).
  split.
  { split; [reflexivity|]. split; [reflexivity|].
    split; [exact Hok|split; [reflexivity|split; [reflexivity|exact Hpw]]]. }
  destruct (login_outcomes Sample.toy_hash (globals (Sample.alice_online Sample.toy_hash)) 5
              (Sample.login_pkt " Alice " "guess") Sample.noon eq_refl eq_refl Hok eq_refl)
    as [_ Hknown].
  destruct (Hknown (Sample.alice_account Sample.toy_hash) eq_refl) as [Hwrong _].
  exact (Hwrong Hpw).
Defined.

Lemma register_outcomes_witness :
  (ascii_field (p_username (Sample.register_pkt " x " "pw")) ∧
   ascii_field (p_password (Sample.register_pkt " x " "pw")) ∧
   ascii_field (p_username (Sample.register_pkt "ALICE" "other")) ∧
   ascii_field (p_password (Sample.register_pkt "ALICE" "other"))) ∧
  (¬ name_ok (auth_name (Sample.register_pkt " x " "pw")) ∧
   authenticate Sample.toy_hash 5 (Sample.register_pkt " x " "pw") Sample.noon
     (globals (Sample.alice_online Sample.toy_hash))
   = Returned None (globals (Sample.alice_online Sample.toy_hash))
       [Send 5 (SAuthFail ShortUsername); Close 5]) ∧
  (name_ok (auth_name (Sample.register_pkt "ALICE" "other")) ∧
   p_action (Sample.register_pkt "ALICE" "other") = Some "register" ∧
   is_Some (users (db (globals (Sample.alice_online Sample.toy_hash)))
              !! auth_name (Sample.register_pkt "ALICE" "other")) ∧
   authenticate Sample.toy_hash 5 (Sample.register_pkt "ALICE" "other") Sample.noon
     (globals (Sample.alice_online Sample.toy_hash))
   = Returned None (globals (Sample.alice_online Sample.toy_hash))
       [Send 5 (SAuthFail UsernameTaken); Close 5]).
Proof.
  assert (¬ name_ok (auth_name (Sample.register_pkt " x " "pw"))) as Hshort
    by (vm_compute; discriminate).
  assert (name_ok (auth_name (Sample.register_pkt "ALICE" "other"))) as Hok by reflexivity.
  assert (is_Some (users (db (globals (Sample.alice_online Sample.toy_hash)))
                     !! auth_name (Sample.register_pkt "ALICE" "other"))) as Htaken
    by (eexists; reflexivity).
  destruct (register_outcomes Sample.toy_hash (globals (Sample.alice_online Sample.toy_hash)) 5
              (Sample.register_pkt " x " "pw") Sample.noon eq_refl eq_refl) as [H1 _].
  destruct (register_outcomes Sample.toy_hash (globals (Sample.alice_online Sample.toy_hash)) 5
              (Sample.register_pkt "ALICE" "other") Sample.noon eq_refl eq_refl)
    as (_ & H2 & _).
  split; [split; [reflexivity|split; [reflexivity|split; reflexivity]]|].
  split; [split; [exact Hshort|exact (H1 Hshort)]|].
  split; [exact Hok|]. split; [reflexivity|]. split; [exact Htaken|].
  exact (H2 Hok eq_refl Htaken).
Defined.

(** ** The message loop and exceptions *)

Lemma returns_bind {A B} (m : M A) (k : A → M B) s :
  has_raised (m s) = false →
  (∀ a s1 out, m s = Returned a s1 out → has_raised (k a s1) = false) →
  has_raised ((m ≫= k) s) = false.
Proof.
  intros Hm Hk. unfold mbind, M_bind, bind.
  destruct (m s) as [a s1 o1|s1 o1] eqn:E; simpl in *; [|done].
  specialize (Hk a s1 o1 eq_refl). by destruct (k a s1).
Qed.

Lemma handle_msg_returns u c pkt now s info :
  clients s !! u = Some info → is_Some (rooms (db s) !! s_room info) →
  has_raised (_handle_msg u c pkt now s) = false.
Proof.
  intros Hu [r Hr]. unfold _handle_msg, append_history. handler_unfold. rewrite Hu. simpl.
  destruct (Text.is_empty _); [done|]. destruct (1000 <? _); [done|].
  simpl. rewrite Hr. done.
Qed.

Lemma create_room_returns u c pkt s :
  is_Some (clients s !! u) → has_raised (_create_room u c pkt s) = false.
Proof.
  intros Hu. unfold _create_room.
  destruct (Text.is_empty _ || _); [done|].
  apply returns_bind; [done|]. intros s0 s0' o0 [= <- <- _].
  destruct (rooms (db s) !! _); [done|].
  apply returns_bind; [done|]. intros [] s1 o1 [= <- _].
  apply returns_bind; [done|]. intros [] s2 o2 [= <- _].
  match goal with |- has_raised (_join_room ?u ?c ?rm ?b ?s) = false =>
    destruct (join_room_returns u c rm b s) as [out ->]; [by left|done] end.
Qed.

Lemma delete_room_returns u c pkt s : has_raised (_delete_room u c pkt s) = false.
Proof.
  destruct (rooms (db s) !! delete_target pkt) as [r|] eqn:Hr.
  - destruct (decide (r_owner r = u)) as [Hown|Hown].
    + destruct (decide (delete_target pkt ∈ default_rooms)) as [Hdef|Hdef].
      * by rewrite (delete_default_room u c pkt s) by (rewrite ?Hr; eauto; congruence).
      * by destruct (delete_room_run u c pkt s r Hr Hown Hdef) as [out ->].
    + by rewrite (delete_room_not_owner u c pkt s r).
  - by rewrite delete_room_missing.
Qed.

Lemma handle_dm_returns u c pkt now s : has_raised (_handle_dm u c pkt now s) = false.
Proof.
  unfold _handle_dm. destruct (Text.is_empty _ || _); [done|].
  case_decide; [done|]. handler_unfold. by destruct (clients s !! _).
Qed.

Lemma send_history_returns u c pkt s :
  is_Some (clients s !! u) → p_limit pkt ≠ LimInvalid →
  has_raised (_send_history u c pkt s) = false.
Proof.
  intros [info Hu] Hlim. unfold _send_history. handler_unfold.
  destruct (p_room pkt) as [rm|]; [destruct (Text.is_empty rm)|]; simpl; rewrite ?Hu; simpl;
    destruct (p_limit pkt); try done; simpl;
    match goal with |- context [rooms (db s) !! ?x] => by destruct (rooms (db s) !! x) end.
Qed.

Lemma send_history_raises u c pkt s :
  is_Some (clients s !! u) → p_limit pkt = LimInvalid →
  _send_history u c pkt s = Raised s [].
Proof.
  intros [info Hu] Hlim. unfold _send_history. rewrite Hlim. handler_unfold.
  destruct (p_room pkt) as [rm|]; [destruct (Text.is_empty rm)|]; simpl; rewrite ?Hu; done.
Qed.

Lemma set_bio_returns u c pkt s :
  is_Some (users (db s) !! u) → has_raised (set_bio u c pkt s) = false.
Proof. intros [usr Hu]. unfold set_bio. handler_unfold. by rewrite Hu. Qed.

Lemma whois_returns u c pkt s : has_raised (_whois u c pkt s) = false.
Proof. unfold _whois. handler_unfold. by destruct (users (db s) !! _). Qed.

Lemma dispatch_history u c pkt now s :
  p_type pkt = Some "history" → dispatch u c pkt now s = _send_history u c pkt s.
Proof. intros Ht. unfold dispatch. rewrite Ht. reflexivity. Qed.

Lemma dispatch_returns u c pkt now s info :
  good s → clients s !! u = Some info → is_Some (users (db s) !! u) →
  ¬ bad_history pkt → has_raised (dispatch u c pkt now s) = false.
Proof.
  intros (Hloc & Hlist & Hin & Hgen) Hu Hacc Hbad. unfold dispatch.
  repeat case_decide.
  - eapply handle_msg_returns; [exact Hu|by eapply Hin].
  - match goal with |- has_raised (_join_room ?u ?c ?rm ?b ?s) = false =>
      destruct (join_room_returns u c rm b s) as [out ->]; [left; by eexists|done] end.
  - apply create_room_returns. by eexists.
  - apply delete_room_returns.
  - apply handle_dm_returns.
  - apply send_history_returns; [by eexists|]. intros Hl. by apply Hbad.
  - done.
  - done.
  - done.
  - apply whois_returns.
  - by apply set_bio_returns.
  - done.
  - done.
Qed.

Lemma sends_bind {A B} (m : M A) (k : A → M B) :
  sends_only m → (∀ a, sends_only (k a)) → sends_only (m ≫= k).
Proof.
  intros Hm Hk s e. unfold mbind, M_bind, bind.
  pose proof (Hm s) as Hms. destruct (m s) as [a s1 o1|s1 o1]; simpl in *; [|apply Hms].
  pose proof (Hk a s1) as Hks. destruct (k a s1); simpl in *;
    rewrite elem_of_app; intros [?|?]; auto.
Qed.

Lemma silent_sends {A} (m : M A) : (∀ s, emitted (m s) = []) → sends_only m.
Proof. intros H s e. rewrite H. by intros ?%elem_of_nil. Qed.

Lemma send_sends c p : sends_only (send c p).
Proof. intros s e. simpl. by intros ->%list_elem_of_singleton. Qed.

Lemma deliver_to_sends s targets pkt ex e : e ∈ deliver_to s targets pkt ex → is_send e.
Proof. by intros (u & info & _ & _ & _ & ->)%deliver_to_sound. Qed.

Lemma broadcast_room_sends rm pkt ex : sends_only (broadcast_room rm pkt ex).
Proof. intros s e. apply deliver_to_sends. Qed.

Lemma broadcast_all_sends pkt ex : sends_only (broadcast_all pkt ex).
Proof. intros s e. apply deliver_to_sends. Qed.

Lemma session_of_sends u : sends_only (session_of u).
Proof. apply silent_sends. intros s. unfold session_of. by destruct (clients s !! u). Qed.

Lemma join_room_sends u c rm silent : sends_only (_join_room u c rm silent).
Proof.
  unfold _join_room. apply sends_bind; [by apply silent_sends|]. intros s0.
  destruct (rooms (db s0) !! rm); [|apply send_sends].
  apply sends_bind; [apply session_of_sends|]. intros info.
  case_decide; [apply send_sends|].
  apply sends_bind; [by apply silent_sends|]. intros _.
  apply sends_bind; [destruct silent; [by apply silent_sends|apply broadcast_room_sends]|].
  intros _. apply sends_bind; [apply broadcast_room_sends|]. intros _.
  apply sends_bind; [by apply silent_sends|]. intros s'. apply send_sends.
Qed.

Lemma append_history_sends rm e : sends_only (append_history rm e).
Proof.
  apply silent_sends. intros s. unfold append_history. handler_unfold.
  by destruct (rooms (db s) !! rm).
Qed.

Lemma handle_msg_sends u c pkt now : sends_only (_handle_msg u c pkt now).
Proof.
  unfold _handle_msg. apply sends_bind; [apply session_of_sends|]. intros info.
  destruct (Text.is_empty _); [by apply silent_sends|].
  destruct (1000 <? _); [apply send_sends|].
  apply sends_bind; [apply append_history_sends|]. intros _. apply broadcast_room_sends.
Qed.

Lemma create_room_sends u c pkt : sends_only (_create_room u c pkt).
Proof.
  unfold _create_room. destruct (_ || _); [apply send_sends|].
  apply sends_bind; [by apply silent_sends|]. intros s0.
  destruct (rooms (db s0) !! _); [apply send_sends|].
  apply sends_bind; [by apply silent_sends|]. intros _.
  apply sends_bind; [apply broadcast_all_sends|]. intros _. apply join_room_sends.
Qed.

Lemma evict_all_sends l : sends_only (evict_all l).
Proof.
  induction l as [|u l IH]; [by apply silent_sends|]. simpl.
  apply sends_bind; [by apply silent_sends|]. intros s0.
  apply sends_bind; [|intros _; apply IH].
  destruct (clients s0 !! u); [apply join_room_sends|by apply silent_sends].
Qed.

Lemma delete_room_sends u c pkt : sends_only (_delete_room u c pkt).
Proof.
  unfold _delete_room. apply sends_bind; [by apply silent_sends|]. intros s0.
  destruct (rooms (db s0) !! _); [|apply send_sends].
  case_decide; [apply send_sends|]. case_decide; [apply send_sends|].
  apply sends_bind; [apply evict_all_sends|]. intros _.
  apply sends_bind; [by apply silent_sends|]. intros _. apply broadcast_all_sends.
Qed.

Lemma handle_dm_sends u c pkt now : sends_only (_handle_dm u c pkt now).
Proof.
  unfold _handle_dm. destruct (_ || _); [by apply silent_sends|].
  case_decide; [apply send_sends|].
  apply sends_bind; [by apply silent_sends|]. intros s0.
  apply sends_bind; [by apply silent_sends|]. intros _.
  apply sends_bind; [apply send_sends|]. intros _.
  destruct (clients s0 !! _); apply send_sends.
Qed.

Lemma send_history_sends u c pkt : sends_only (_send_history u c pkt).
Proof.
  unfold _send_history. apply sends_bind.
  { destruct (p_room pkt) as [r|]; [destruct (Text.is_empty r)|];
      try (by apply silent_sends);
      (apply sends_bind; [apply session_of_sends|intros info; by apply silent_sends]). }
  intros rm. apply sends_bind; [destruct (p_limit pkt); by apply silent_sends|].
  intros z. apply sends_bind; [by apply silent_sends|]. intros s0.
  destruct (rooms (db s0) !! rm); apply send_sends.
Qed.

Lemma whois_sends u c pkt : sends_only (_whois u c pkt).
Proof.
  unfold _whois. apply sends_bind; [by apply silent_sends|]. intros s0.
  destruct (users (db s0) !! _); apply send_sends.
Qed.

Lemma set_bio_sends u c pkt : sends_only (set_bio u c pkt).
Proof.
  unfold set_bio. apply sends_bind; [by apply silent_sends|]. intros s0.
  destruct (users (db s0) !! u); [|by apply silent_sends].
  apply sends_bind; [by apply silent_sends|]. intros _. apply send_sends.
Qed.

Lemma dispatch_sends u c pkt now : sends_only (dispatch u c pkt now).
Proof.
  unfold dispatch.
  repeat (case_decide;
    [first [ apply handle_msg_sends | apply join_room_sends | apply create_room_sends
           | apply delete_room_sends | apply handle_dm_sends | apply send_history_sends
           | apply whois_sends | apply set_bio_sends | apply send_sends
           | (apply sends_bind; [by apply silent_sends|intros ?; apply send_sends]) ] |]).
  by apply silent_sends.
Qed.

(** X14.  In a world the server can reach from a document with the room
    "general", no record makes the message loop fail on a missing session,
    room or account.  For records as [packet] has them - JSON objects whose
    fields other than [limit] are strings where present - with ASCII text
    in them, sent by a user with an ASCII name, so that [log] can print the
    line about a new room, the handler thread survives every record, and
    closes no connection, except a [history] record whose [limit] the call
    of [int] rejects.  That one ends the thread the way a lost connection does: the
    session is removed, the document is untouched and the connection is
    closed last.  (Failures of the data file and of the console are not
    modelled.) *)
Theorem loop_ends_only_on_bad_limit (hash_pw : string → string) (d : document) (w : world)
    (c : conn_id) (u : string) (pkt : packet) (now : clock) :
  ascii_packet pkt → Text.is_ascii u = true →
  has_general d → reachable hash_pw d w → threads w !! c = Some u →
  ∃ w' out,
    step hash_pw w (Receive c pkt now) = Some (w', out) ∧
    (¬ bad_history pkt →
       threads w' = threads w ∧ conn_of (globals w') !! u = Some c ∧
       ∀ c', Close c' ∉ out) ∧
    (bad_history pkt →
       threads w' = delete c (threads w) ∧
       clients (globals w') = delete u (clients (globals w)) ∧
       db (globals w') = db (globals w) ∧
       last out = Some (Close c)).
Proof.
  intros _ _ Hd Hw Hc.
  pose proof (reachable_good hash_pw d w Hd Hw) as Hgood.
  pose proof (reachable_consistent hash_pw d w Hw) as [Hmatch Hcover].
  pose proof (proj1 (Hmatch c u) Hc) as Hconn.
  assert (∃ info, clients (globals w) !! u = Some info) as [info Hu].
  { unfold conn_of in Hconn. rewrite lookup_fmap in Hconn.
    destruct (clients (globals w) !! u) as [info|]; [by eexists|done]. }
  assert (is_Some (users (db (globals w)) !! u)) as Hacc by (apply Hcover; by eexists).
  destruct (step hash_pw w (Receive c pkt now)) as [[w' out]|] eqn:Hstep;
    [|simpl in Hstep; rewrite Hc in Hstep; done].
  exists w', out. split; [done|].
  pose proof (reachable_step hash_pw d w _ w' out Hw Hstep) as Hw'.
  simpl in Hstep. rewrite Hc in Hstep. simpl in Hstep.
  apply (inj Some) in Hstep. unfold handle_receive in Hstep. split.
  - intros Hbad.
    pose proof (dispatch_returns u c pkt now (globals w) info Hgood Hu Hacc Hbad) as Hret.
    pose proof (dispatch_sends u c pkt now (globals w)) as Hsends.
    destruct (dispatch u c pkt now (globals w)) as [[] s' o|]; [|done].
    injection Hstep as <- <-. simpl in *. split; [done|]. split.
    + pose proof (reachable_consistent hash_pw d _ Hw') as [Hmatch' _].
      by apply (Hmatch' c u).
    + intros c' Hin. by apply (Hsends _ Hin).
  - intros [Ht Hl]. rewrite (dispatch_history u c pkt now _ Ht) in Hstep.
    rewrite (send_history_raises u c pkt (globals w)) in Hstep by (done || by eexists).
    injection Hstep as <- <-. simpl. split; [done|]. split; [done|]. split; [done|].
    apply last_snoc.
Qed.

Lemma loop_ends_only_on_bad_limit_witness :
  (ascii_packet Scenes.bad_history_pkt ∧ ascii_packet Scenes.plain_history_pkt ∧
   Text.is_ascii "bob" = true ∧ has_general default_document ∧
   reachable Sample.toy_hash default_document Scenes.club ∧
   threads Scenes.club !! 2%nat = Some "bob" ∧
   bad_history Scenes.bad_history_pkt ∧ ¬ bad_history Scenes.plain_history_pkt) ∧
  (∃ w' out,
     step Sample.toy_hash Scenes.club (Receive 2 Scenes.bad_history_pkt Sample.noon)
       = Some (w', out) ∧
     threads w' = delete 2%nat (threads Scenes.club) ∧ last out = Some (Close 2)) ∧
  (∃ w' out,
     step Sample.toy_hash Scenes.club (Receive 2 Scenes.plain_history_pkt Sample.noon)
       = Some (w', out) ∧
     threads w' = threads Scenes.club ∧ ∀ c', Close c' ∉ out).
Proof.
  assert (threads Scenes.club !! 2%nat = Some "bob") as Hc by (vm_compute; reflexivity).
  assert (bad_history Scenes.bad_history_pkt) as Hbad by (split; reflexivity).
  assert (¬ bad_history Scenes.plain_history_pkt) as Hplain by (intros [_ [=]]).
  assert (ascii_packet Scenes.bad_history_pkt) as Ha1 by (repeat split).
  assert (ascii_packet Scenes.plain_history_pkt) as Ha2 by (repeat split).
  split.
  { split; [exact Ha1|]. split; [exact Ha2|]. split; [reflexivity|].
    split; [apply default_document_has_general|]. split; [apply club_reachable|].
    split; [exact Hc|]. split; [exact Hbad|exact Hplain]. }
  split.
  - destruct (loop_ends_only_on_bad_limit Sample.toy_hash default_document Scenes.club 2 "bob"
                Scenes.bad_history_pkt Sample.noon Ha1 eq_refl default_document_has_general
                club_reachable Hc) as (w' & out & Hstep & _ & Hends).
    destruct (Hends Hbad) as (Hth & _ & _ & Hlast).
    exists w', out. split; [exact Hstep|]. split; [exact Hth|exact Hlast].
  - destruct (loop_ends_only_on_bad_limit Sample.toy_hash default_document Scenes.club 2 "bob"
                Scenes.plain_history_pkt Sample.noon Ha2 eq_refl default_document_has_general
                club_reachable Hc) as (w' & out & Hstep & Hgoes & _).
    destruct (Hgoes Hplain) as (Hth & _ & Hclose).
    exists w', out. split; [exact Hstep|]. split; [exact Hth|exact Hclose].
Defined.

(** ** Accounts *)

Lemma update_holds_account u usr s s' :
  update s s' → holds_account u usr s → holds_account u usr s'.
Proof.
  intros Hupd (usr' & Hu & Hpw & Hj).
  destruct Hupd as [s u0 info rm|s rm r e|s name topic owner|s name|s key e|s u0 usr0 bio Hu0];
    try (by exists usr').
  destruct (decide (u0 = u)) as [->|Hne].
  - exists (User (u_pw usr0) (u_joined usr0) bio). simpl. rewrite lookup_insert_eq.
    split; [done|]. split; simpl; congruence.
  - exists usr'. simpl. by rewrite lookup_insert_ne.
Qed.

(** X15.  Accounts are permanent: whatever happens after a world the
    server can reach, an account that exists stays in the document with the
    password hash and the joined-at it had - no record removes an account,
    changes its password, or registers over it.  Only the bio can change. *)
Theorem accounts_are_permanent (hash_pw : string → string) (d : document) (w w' : world)
    (evs : list event) (out : list effect) (u : string) (usr : user) :
  reachable hash_pw d w → run hash_pw w evs = Some (w', out) →
  users (db (globals w)) !! u = Some usr →
  ∃ usr', users (db (globals w')) !! u = Some usr' ∧
          u_pw usr' = u_pw usr ∧ u_joined usr' = u_joined usr.
Proof.
  intros Hw Hrun Hu.
  assert (holds_account u usr (globals w)) as Hold by (by exists usr).
  clear Hu. revert w out Hw Hrun Hold.
  induction evs as [|ev rest IH]; simpl; intros w out Hw.
  - intros [= <- _] (usr' & ? & ? & ?). by exists usr'.
  - destruct (step hash_pw w ev) as [[w1 out1]|] eqn:Hstep; [|done].
    destruct (run hash_pw w1 rest) as [[w2 out2]|] eqn:Hrun; [|done].
    intros [= <- _] Hold. eapply IH; [by eapply reachable_step|exact Hrun|].
    eapply (step_invariant hash_pw (holds_account u usr)); last exact Hstep.
    + apply update_holds_account.
    + intros s uname usr0 Hnew (usr' & Hu & Hsame). exists usr'. split; [|done].
      simpl. rewrite lookup_insert_ne; [done|]. intros ->. congruence.
    + intros s u0 c _ Hs. exact Hs.
    + intros s u0 Hs. exact Hs.
    + by eapply reachable_consistent.
    + exact Hold.
Qed.

Lemma accounts_are_permanent_witness :
  (reachable Sample.toy_hash default_document (Sample.alice_online Sample.toy_hash) ∧
   users (db (globals (Sample.alice_online Sample.toy_hash))) !! "alice"
     = Some (Sample.alice_account Sample.toy_hash)) ∧
  ∃ w' out usr',
    run Sample.toy_hash (Sample.alice_online Sample.toy_hash) Scenes.takeover_events
      = Some (w', out) ∧
    users (db (globals w')) !! "alice" = Some usr' ∧
    u_pw usr' = Sample.toy_hash "pw1".
Proof.
  split; [split; [apply alice_online_reachable|reflexivity]|].
  destruct (run Sample.toy_hash (Sample.alice_online Sample.toy_hash) Scenes.takeover_events)
    as [[w' out]|] eqn:Hrun; [|vm_compute in Hrun; discriminate].
  destruct (accounts_are_permanent Sample.toy_hash default_document
              (Sample.alice_online Sample.toy_hash) w' Scenes.takeover_events out "alice"
              (Sample.alice_account Sample.toy_hash)
              (alice_online_reachable Sample.toy_hash) Hrun eq_refl)
    as (usr' & Hu & Hpw & _).
  exists w', out, usr'. split; [reflexivity|]. split; [exact Hu|exact Hpw].
Defined.

(** ** Coming online *)

Lemma step_connect hash_pw w c auth now :
  threads w !! c = None →
  step hash_pw w (Connect c auth now) = Some (handle_connect hash_pw w c auth now).
Proof. intros Hc. simpl. by rewrite Hc. Qed.

Lemma bob_alone_reachable : reachable Sample.toy_hash default_document Scenes.bob_alone.
Proof.
  assert (fst <$> step Sample.toy_hash (Sample.both_online Sample.toy_hash) (Lost 1)
          = Some Scenes.bob_alone) as Hstep by (vm_compute; reflexivity).
  destruct (step Sample.toy_hash (Sample.both_online Sample.toy_hash) (Lost 1))
    as [[w out]|] eqn:E; [|done].
  injection Hstep as <-. eapply reachable_step; [apply both_online_reachable|exact E].
Qed.

(** X16.  A [login] with the right password for an account that is not
    online, on a connection without a handler thread, starts the thread and
    creates the session with the room "general"; the document is untouched.
    The newcomer gets the positive [auth] record first, with the rooms and
    the names online, the own name among them, each in some order; everyone
    who was online before is told that the user has come online, the
    newcomer is not.  Stated for ASCII username and password. *)
Theorem login_opens_session (hash_pw : string → string) (d : document) (w : world)
    (c : conn_id) (auth : packet) (now : clock) (usr : user) :
  ascii_field (p_username auth) → ascii_field (p_password auth) →
  reachable hash_pw d w → threads w !! c = None →
  name_ok (auth_name auth) → p_action auth = Some "login" →
  users (db (globals w)) !! auth_name auth = Some usr →
  u_pw usr = hash_pw (get_or "" (p_password auth)) →
  clients (globals w) !! auth_name auth = None →
  ∃ w' rms online rest,
    step hash_pw w (Connect c auth now)
      = Some (w', Send c (SAuthOk (auth_name auth) rms online) :: rest) ∧
    rms ≡ₚ room_list_payload (globals w') ∧
    online ≡ₚ online_list (globals w') ∧
    auth_name auth ∈ online ∧
    threads w' = <[c := auth_name auth]> (threads w) ∧
    clients (globals w') = <[auth_name auth := Session c "general"]> (clients (globals w)) ∧
    db (globals w') = db (globals w) ∧
    (∀ u' info, clients (globals w) !! u' = Some info →
       Send (s_conn info) (SSystem (CameOnline (auth_name auth))) ∈ rest) ∧
    Send c (SSystem (CameOnline (auth_name auth))) ∉ rest.
Proof.
  intros _ _ Hw Hc Hok Hact Husr Hpw Hoff.
  pose proof (reachable_consistent hash_pw d w Hw) as [Hmatch _].
  pose proof (authenticate_login_ok hash_pw (globals w) c auth now usr Hok Hact Husr Hpw Hoff)
    as Hauth.
  eexists _, _, _, _. split.
  { rewrite step_connect by done. rewrite (connect_accepted hash_pw w c auth now _ Hauth).
    rewrite open_session_result. reflexivity. }
  simpl. split; [done|]. split; [done|]. split.
  { unfold online_list. simpl. apply elem_of_elements, elem_of_dom.
    rewrite lookup_insert_eq. by eexists. }
  split; [done|]. split; [done|]. split; [done|]. split.
  { intros u' info Hu'. apply elem_of_cons; right.
    apply (deliver_to_complete _ _ _ _ u' info).
    - unfold online_list. simpl. apply elem_of_elements, elem_of_dom.
      rewrite lookup_insert_ne by congruence. by eexists.
    - intros [= <-]. congruence.
    - simpl. rewrite lookup_insert_ne by congruence. done. }
  intros Hin.
  apply elem_of_cons in Hin as [[= Hn]|Hin];
    [unfold auto_join_notice in Hn; by destruct (rooms _ !! _)|].
  apply deliver_to_sound in Hin as (u' & info & _ & Hex & Hu' & [= Hconn]).
  simpl in Hu'. rewrite lookup_insert_ne in Hu' by congruence.
  assert (threads w !! c = Some u') as Hth.
  { apply Hmatch. unfold conn_of. rewrite lookup_fmap, Hu'. simpl. by rewrite Hconn. }
  congruence.
Qed.

Lemma login_opens_session_witness :
  (ascii_field (p_username (Sample.login_pkt " Alice" "pw1")) ∧
   ascii_field (p_password (Sample.login_pkt " Alice" "pw1")) ∧
   reachable Sample.toy_hash default_document Scenes.bob_alone ∧
   threads Scenes.bob_alone !! 4%nat = None ∧
   name_ok (auth_name (Sample.login_pkt " Alice" "pw1")) ∧
   users (db (globals Scenes.bob_alone)) !! auth_name (Sample.login_pkt " Alice" "pw1")
     = Some (Sample.alice_account Sample.toy_hash) ∧
   clients (globals Scenes.bob_alone) !! auth_name (Sample.login_pkt " Alice" "pw1") = None) ∧
  ∃ w' rms online rest,
    step Sample.toy_hash Scenes.bob_alone
      (Connect 4 (Sample.login_pkt " Alice" "pw1") Sample.noon)
      = Some (w', Send 4 (SAuthOk "alice" rms online) :: rest) ∧
    "alice" ∈ online ∧
    clients (globals w') !! "alice" = Some (Session 4 "general") ∧
    Send 2 (SSystem (CameOnline "alice")) ∈ rest ∧
    Send 4 (SSystem (CameOnline "alice")) ∉ rest.
Proof.
  assert (threads Scenes.bob_alone !! 4%nat = None) as Hc by (vm_compute; reflexivity).
  assert (name_ok (auth_name (Sample.login_pkt " Alice" "pw1"))) as Hok by reflexivity.
  assert (users (db (globals Scenes.bob_alone)) !! auth_name (Sample.login_pkt " Alice" "pw1")
          = Some (Sample.alice_account Sample.toy_hash)) as Husr by (vm_compute; reflexivity).
  assert (clients (globals Scenes.bob_alone) !! auth_name (Sample.login_pkt " Alice" "pw1")
          = None) as Hoff by (vm_compute; reflexivity).
  assert (clients (globals Scenes.bob_alone) !! "bob" = Some (Session 2 "general")) as Hbob
    by (vm_compute; reflexivity).
  split.
  { split; [reflexivity|]. split; [reflexivity|].
    split; [apply bob_alone_reachable|split; [exact Hc|split; [exact Hok|
    split; [exact Husr|exact Hoff]]]]. }
  destruct (login_opens_session Sample.toy_hash default_document Scenes.bob_alone 4
              (Sample.login_pkt " Alice" "pw1") Sample.noon
              (Sample.alice_account Sample.toy_hash) eq_refl eq_refl
              bob_alone_reachable Hc Hok eq_refl Husr eq_refl Hoff)
    as (w' & rms & online & rest & Hstep & _ & _ & Hin & _ & Hcl & _ & Htold & Hnot).
  exists w', rms, online, rest. split; [exact Hstep|]. split; [exact Hin|].
  split; [|split; [exact (Htold "bob" _ Hbob)|exact Hnot]].
  rewrite Hcl. apply lookup_insert_eq.
Defined.

(** ** Framing *)

Lemma append_assoc (a b c : string) : (a +:+ b) +:+ c = a +:+ (b +:+ c).
Proof.
  induction a as [|x a IH]; [done|].
  change (String x ((a +:+ b) +:+ c) = String x (a +:+ (b +:+ c))). by rewrite IH.
Qed.

Lemma append_empty_r (a : string) : a +:+ "" = a.
Proof.
  induction a as [|x a IH]; [done|]. change (String x (a +:+ "") = String x a).
  by rewrite IH.
Qed.

Lemma split_line_cons c buf :
  split_line (String c buf) =
    if Ascii.eqb c newline then Some (EmptyString, buf)
    else match split_line buf with
         | Some (line, tail) => Some (String c line, tail)
         | None => None
         end.
Proof. reflexivity. Qed.

Lemma split_line_spec buf line rest :
  split_line buf = Some (line, rest) ↔
  buf = line +:+ String newline rest ∧ has_newline line = false.
Proof.
  revert line. induction buf as [|c buf IH]; intros line.
  - split; [done|]. intros [H _]. by destruct line.
  - rewrite split_line_cons. destruct (Ascii.eqb c newline) eqn:Hc.
    + apply Ascii.eqb_eq in Hc as ->. split.
      * by intros [= <- <-].
      * intros [H Hno]. destruct line as [|x line]; [by injection H as ->|].
        injection H as <- _. simpl in Hno. discriminate Hno.
    + split.
      * destruct (split_line buf) as [[l t]|] eqn:Hs; [|done]. intros [= <- <-].
        destruct (proj1 (IH l) eq_refl) as [-> Hno]. split; [done|]. simpl. by rewrite Hc.
      * intros [H Hno]. destruct line as [|x line].
        { injection H as -> _. by rewrite Ascii.eqb_refl in Hc. }
        injection H as <- ->. simpl in Hno. rewrite Hc in Hno. simpl in Hno.
        by rewrite (proj2 (IH line) (conj eq_refl Hno)).
Qed.

Lemma split_line_none buf : split_line buf = None ↔ has_newline buf = false.
Proof.
  induction buf as [|c buf IH]; [done|]. rewrite split_line_cons. simpl.
  destruct (Ascii.eqb c newline); simpl; [done|].
  destruct (split_line buf) as [[l t]|]; [|tauto].
  split; [done|]. intros H. by apply IH in H.
Qed.

Lemma split_line_app a b line rest :
  split_line a = Some (line, rest) → split_line (a +:+ b) = Some (line, rest +:+ b).
Proof.
  revert line. induction a as [|c a IH]; intros line; [done|].
  change (String c a +:+ b) with (String c (a +:+ b)). rewrite !split_line_cons.
  destruct (Ascii.eqb c newline); [by intros [= <- <-]|].
  destruct (split_line a) as [[l t]|]; [|done]. intros [= <- <-].
  by rewrite (IH l eq_refl).
Qed.

Lemma recv_pkt_step buf chunk more :
  split_line buf = None → Text.is_empty chunk = false →
  recv_pkt buf (chunk :: more) = recv_pkt (buf +:+ chunk) more.
Proof.
  intros Hs Hc. destruct more; simpl; rewrite Hs, Hc; reflexivity.
Qed.

(** X17.  [recv_pkt] frames by the first newline of the byte stream, however
    the stream was cut into chunks: when the buffer followed by the chunks
    that arrive has a newline, the call returns the text before the first
    one, and what it leaves in the buffer followed by the chunks it did not
    read is the text after it - nothing is lost or reordered.  Without a
    newline it goes on waiting, with everything received in the buffer. *)
Theorem framing_ignores_chunking (buf : string) (chunks : list string) :
  Forall (λ chunk, Text.is_empty chunk = false) chunks →
  (∀ line rest, split_line (buf +:+ glue chunks) = Some (line, rest) →
     ∃ rest' pending,
       recv_pkt buf chunks = Line line rest' pending ∧ rest' +:+ glue pending = rest) ∧
  (split_line (buf +:+ glue chunks) = None →
     recv_pkt buf chunks = Blocked (buf +:+ glue chunks)).
Proof.
  intros Hne. revert buf. induction Hne as [|chunk more Hc _ IH]; intros buf.
  - simpl. rewrite append_empty_r. split.
    + intros line rest ->. exists rest, []. by rewrite append_empty_r.
    + by intros ->.
  - destruct (split_line buf) as [[l t]|] eqn:Hs.
    + rewrite (split_line_app buf (glue (chunk :: more)) l t Hs). split; [|done].
      intros line rest [= <- <-]. exists t, (chunk :: more).
      split; [|done]. destruct more; simpl; by rewrite Hs.
    + rewrite (recv_pkt_step buf chunk more Hs Hc).
      change (glue (chunk :: more)) with (chunk +:+ glue more).
      rewrite <- append_assoc. apply IH.
Qed.

Lemma framing_ignores_chunking_witness :
  Forall (λ chunk, Text.is_empty chunk = false) Scenes.pieces ∧
  split_line ("" +:+ glue Scenes.pieces) = Some ("ping", "pong") ∧
  ∃ rest' pending,
    recv_pkt "" Scenes.pieces = Line "ping" rest' pending ∧
    rest' +:+ glue pending = "pong".
Proof.
  assert (Forall (λ chunk, Text.is_empty chunk = false) Scenes.pieces) as Hne
    by (repeat constructor).
  split; [exact Hne|]. split; [reflexivity|].
  exact (proj1 (framing_ignores_chunking "" Scenes.pieces Hne) "ping" "pong" eq_refl).
Defined.

(** X18.  [recv_pkt] raises [ConnectionError] exactly when the peer closes
    before the line is complete: an empty chunk ends the call that way if
    the buffer and the chunks before it hold no newline, and has no effect
    on a call that finds its newline earlier. *)
Theorem closed_before_newline_is_lost (buf : string) (pre post : list string) :
  Forall (λ chunk, Text.is_empty chunk = false) pre →
  (has_newline (buf +:+ glue pre) = false →
     recv_pkt buf (pre ++ "" :: post) = ConnectionLost) ∧
  (∀ line rest, split_line (buf +:+ glue pre) = Some (line, rest) →
     ∃ rest' pending,
       recv_pkt buf (pre ++ "" :: post) = Line line rest' (pending ++ "" :: post) ∧
       rest' +:+ glue pending = rest).
Proof.
  intros Hne. revert buf. induction Hne as [|chunk more Hc _ IH]; intros buf.
  - simpl. rewrite append_empty_r. split.
    + intros Hno. apply split_line_none in Hno. by rewrite Hno.
    + intros line rest ->. exists rest, []. by rewrite append_empty_r.
  - destruct (split_line buf) as [[l t]|] eqn:Hs.
    + rewrite (split_line_app buf (glue (chunk :: more)) l t Hs). split.
      * intros Hno. apply split_line_none in Hno.
        by rewrite (split_line_app buf (glue (chunk :: more)) l t Hs) in Hno.
      * intros line rest [= <- <-]. exists t, (chunk :: more).
        split; [|done]. simpl. by rewrite Hs.
    + change ((chunk :: more) ++ "" :: post) with (chunk :: (more ++ "" :: post)).
      rewrite (recv_pkt_step buf chunk _ Hs Hc).
      change (glue (chunk :: more)) with (chunk +:+ glue more).
      rewrite <- append_assoc. apply IH.
Qed.

Lemma closed_before_newline_is_lost_witness :
  (Forall (λ chunk, Text.is_empty chunk = false) ["pi"; "ng"] ∧
   has_newline ("" +:+ glue ["pi"; "ng"]) = false) ∧
  recv_pkt "" (["pi"; "ng"] ++ [""]) = ConnectionLost.
Proof.
  assert (Forall (λ chunk, Text.is_empty chunk = false) ["pi"; "ng"]) as Hne
    by (repeat constructor).
  split; [split; [exact Hne|reflexivity]|].
  exact (proj1 (closed_before_newline_is_lost "" ["pi"; "ng"] [] Hne) eq_refl).
Defined.

(** ** Reading back what was said *)

Lemma send_history_recent u c pkt s info r z :
  clients s !! u = Some info → history_limit pkt = Some z → 0 < z →
  rooms (db s) !! history_room pkt info = Some r →
  _send_history u c pkt s =
    Returned tt s [Send c (SHistory (history_room pkt info)
                             (most_recent (Z.to_nat (Z.min z 200)) (r_history r)))].
Proof.
  intros Hu Hlim Hz Hr. unfold _send_history, history_room, history_limit in *.
  assert (slice_from (- Z.min z 200) (r_history r)
          = most_recent (Z.to_nat (Z.min z 200)) (r_history r)) as Hans
    by (apply slice_from_negative; lia).
  handler_unfold.
  destruct (p_room pkt) as [rm|]; [destruct (Text.is_empty rm)|]; simpl;
    rewrite ?Hu; simpl; destruct (p_limit pkt); simplify_eq; simpl;
    rewrite Hr; simpl; by rewrite Hans.
Qed.

(** X19.  What is said in a room can be read back: after a message was
    accepted, a [history] request for that room with no limit or a positive
    one - by whoever is online, by naming the room or by being recorded in
    it - is answered with a list whose last entry is that message; the list
    has at most 200 entries, 50 when no limit is given.  Stated for ASCII
    text, which Python trims and measures as [Text] does. *)
Theorem message_shows_in_history (u v : string) (c c' : conn_id) (pkt hp : packet)
    (now : clock) (s : state) (info vinfo : session) (r : room) (z : Z) :
  ascii_field (p_text pkt) →
  clients s !! u = Some info → rooms (db s) !! s_room info = Some r →
  msg_text pkt ≠ "" → Text.len (msg_text pkt) ≤ 1000 →
  clients s !! v = Some vinfo → history_room hp vinfo = s_room info →
  history_limit hp = Some z → 0 < z →
  ∃ s' out h,
    _handle_msg u c pkt now s = Returned tt s' out ∧
    _send_history v c' hp s' = Returned tt s' [Send c' (SHistory (s_room info) h)] ∧
    last h = Some (Message u (msg_text pkt) (now_ts now)) ∧
    Z.of_nat (length h) ≤ Z.min z 200.
Proof.
  intros _ Hu Hr Hne Hlen Hv Hroom Hlim Hz.
  set (e := Message u (msg_text pkt) (now_ts now)).
  set (r' := Room (r_topic r) (push_room_history (r_history r) e) (r_owner r)).
  eexists (with_message (s_room info) r e s), _,
    (most_recent (Z.to_nat (Z.min z 200)) (r_history r')).
  split; [by apply handle_msg_accepted|]. split.
  - rewrite <- Hroom. apply send_history_recent; [done..|].
    rewrite Hroom. simpl. apply lookup_insert_eq.
  - split.
    + simpl. rewrite push_room_history_recent. change 500%nat with (S 499).
      rewrite most_recent_snoc.
      destruct (Z.to_nat (Z.min z 200)) as [|n] eqn:Hn; [lia|].
      rewrite most_recent_snoc. apply last_snoc.
    + rewrite most_recent_length. lia.
Qed.

Lemma message_shows_in_history_witness :
  (ascii_field (p_text (Sample.msg_pkt " hello ")) ∧
   clients (globals (Sample.both_online Sample.toy_hash)) !! "alice"
     = Some (Session 1 "general") ∧
   msg_text (Sample.msg_pkt " hello ") ≠ "" ∧
   Text.len (msg_text (Sample.msg_pkt " hello ")) ≤ 1000 ∧
   clients (globals (Sample.both_online Sample.toy_hash)) !! "bob"
     = Some (Session 2 "general") ∧
   history_limit Scenes.plain_history_pkt = Some 50) ∧
  ∃ s' out h,
    _handle_msg "alice" 1 (Sample.msg_pkt " hello ") Sample.noon
      (globals (Sample.both_online Sample.toy_hash)) = Returned tt s' out ∧
    _send_history "bob" 2 Scenes.plain_history_pkt s'
      = Returned tt s' [Send 2 (SHistory "general" h)] ∧
    last h = Some (Sample.said "hello").
Proof.
  assert (msg_text (Sample.msg_pkt " hello ") ≠ "") as Hne by (vm_compute; discriminate).
  assert (Text.len (msg_text (Sample.msg_pkt " hello ")) ≤ 1000) as Hlen
    by (vm_compute; discriminate).
  split.
  { split; [reflexivity|].
    split; [reflexivity|split; [exact Hne|split; [exact Hlen|split; reflexivity]]]. }
  destruct (message_shows_in_history "alice" "bob" 1 2 (Sample.msg_pkt " hello ")
              Scenes.plain_history_pkt Sample.noon
              (globals (Sample.both_online Sample.toy_hash))
              (Session 1 "general") (Session 2 "general")
              (Room "General chat for everyone" [] "system") 50
              eq_refl eq_refl eq_refl Hne Hlen eq_refl eq_refl eq_refl eq_refl)
    as (s' & out & h & Hmsg & Hhist & Hlast & _).
  exists s', out, h. split; [exact Hmsg|]. split; [exact Hhist|exact Hlast].
Defined.

(** ** Sessions, rooms and membership sets *)

(** X20.  In every world the server can reach from a document with the
    room "general", handling one record at a time: the room recorded in a
    session is a room of the document (also after rooms were deleted);
    whoever is in a membership set is online and recorded in that very
    room, so nobody is in two sets; whoever is recorded in a room other
    than "general" is in the set of that room; and "general" is still
    there. *)
Theorem sessions_and_memberships_agree (hash_pw : string → string) (d : document)
    (w : world) :
  has_general d → reachable hash_pw d w →
  (∀ u info, clients (globals w) !! u = Some info →
     is_Some (rooms (db (globals w)) !! s_room info) ∧
     (∀ rm, u ∈ members (globals w) rm → rm = s_room info) ∧
     (s_room info ≠ "general" → u ∈ members (globals w) (s_room info))) ∧
  (∀ rm u, u ∈ members (globals w) rm → is_Some (clients (globals w) !! u)) ∧
  is_Some (rooms (db (globals w)) !! "general").
Proof.
  intros Hd Hw. destruct (reachable_good hash_pw d w Hd Hw) as (Hloc & Hlist & Hin & Hgen).
  split; [|split; [|exact Hgen]].
  - intros u info Hu. split; [by eapply Hin|]. split; [|by apply Hlist].
    intros rm [c Hc]%Hloc. rewrite Hu in Hc. by injection Hc as ->.
  - intros rm u [c Hc]%Hloc. by eexists.
Qed.

Lemma sessions_and_memberships_agree_witness :
  (has_general default_document ∧
   reachable Sample.toy_hash default_document Scenes.club) ∧
  is_Some (rooms (db (globals Scenes.club)) !! "book-club") ∧
  "bob" ∈ members (globals Scenes.club) "book-club" ∧
  (∀ rm, "bob" ∈ members (globals Scenes.club) rm → rm = "book-club").
Proof.
  assert (clients (globals Scenes.club) !! "bob" = Some (Session 2 "book-club")) as Hbob
    by (vm_compute; reflexivity).
  split; [split; [apply default_document_has_general|apply club_reachable]|].
  destruct (sessions_and_memberships_agree Sample.toy_hash default_document Scenes.club
              default_document_has_general club_reachable) as (Hsess & _ & _).
  destruct (Hsess "bob" _ Hbob) as (Hroom & Honly & Hlisted).
  split; [exact Hroom|]. split; [apply Hlisted; discriminate|exact Honly].
Defined.

(** ** Queries *)

Lemma send_history_one_answer u c pkt s :
  is_Some (clients s !! u) → is_Some (history_limit pkt) →
  ∃ p, _send_history u c pkt s = Returned tt s [Send c p].
Proof.
  intros [info Hu] [z Hz]. unfold _send_history, history_limit in *. handler_unfold.
  destruct (p_room pkt) as [rm|]; [destruct (Text.is_empty rm)|]; simpl;
    rewrite ?Hu; simpl; destruct (p_limit pkt); simplify_eq; simpl;
    match goal with |- context [rooms (db s) !! ?x] =>
      destruct (rooms (db s) !! x); by eexists end.
Qed.

(** X21.  The queries [dm_history], [rooms], [online], [whois] and [ping]
    change nothing and are answered with exactly one record, sent to the
    requester and to nobody else; the same holds for [history] when its
    limit is absent or an integer. *)
Theorem queries_answer_the_requester_only (u : string) (c : conn_id) (pkt : packet)
    (now : clock) (s : state) :
  (∀ t, p_type pkt = Some t → t ∈ ["dm_history"; "rooms"; "online"; "whois"; "ping"] →
     ∃ p, dispatch u c pkt now s = Returned tt s [Send c p]) ∧
  (p_type pkt = Some "history" → is_Some (clients s !! u) → is_Some (history_limit pkt) →
     ∃ p, dispatch u c pkt now s = Returned tt s [Send c p]).
Proof.
  split.
  - intros t Ht Hin. unfold dispatch. rewrite Ht.
    repeat (apply elem_of_cons in Hin as [->|Hin]); [..|by apply elem_of_nil in Hin].
    + by eexists.
    + by eexists.
    + by eexists.
    + change (∃ p, _whois u c pkt s = Returned tt s [Send c p]).
      unfold _whois. handler_unfold. destruct (users (db s) !! _); by eexists.
    + by eexists.
  - intros Ht Hu Hlim. rewrite (dispatch_history u c pkt now s Ht).
    by apply send_history_one_answer.
Qed.

Lemma queries_answer_the_requester_only_witness :
  (p_type (Sample.typed "online") = Some "online" ∧
   "online" ∈ ["dm_history"; "rooms"; "online"; "whois"; "ping"]) ∧
  ∃ p, dispatch "bob" 2 (Sample.typed "online") Sample.noon
         (globals (Sample.both_online Sample.toy_hash))
       = Returned tt (globals (Sample.both_online Sample.toy_hash)) [Send 2 p].
Proof.
  assert ("online" ∈ ["dm_history"; "rooms"; "online"; "whois"; "ping"]) as Hin
    by (do 2 (apply elem_of_cons; right); apply elem_of_cons; by left).
  split; [split; [reflexivity|exact Hin]|].
  exact (proj1 (queries_answer_the_requester_only "bob" 2 (Sample.typed "online") Sample.noon
                  (globals (Sample.both_online Sample.toy_hash))) "online" eq_refl Hin).
Defined.

(** ** Room names *)

Lemma hyphen_lower_char c :
  Text.lower_char (if Ascii.eqb c " " then "-"%char else c)
  = if Ascii.eqb (Text.lower_char c) " " then "-"%char else Text.lower_char c.
Proof. destruct c as [[] [] [] [] [] [] [] []]; reflexivity. Qed.

Lemma hyphen_char_idem c :
  (if Ascii.eqb (if Ascii.eqb c " " then "-"%char else c) " " then "-"%char
   else if Ascii.eqb c " " then "-"%char else c)
  = if Ascii.eqb c " " then "-"%char else c.
Proof. destruct c as [[] [] [] [] [] [] [] []]; reflexivity. Qed.

Lemma lower_spaces_to_hyphens s :
  Text.lower (Text.spaces_to_hyphens s) = Text.spaces_to_hyphens (Text.lower s).
Proof. induction s as [|c s IH]; simpl; [done|]. by rewrite hyphen_lower_char, IH. Qed.

Lemma spaces_to_hyphens_idem s :
  Text.spaces_to_hyphens (Text.spaces_to_hyphens s) = Text.spaces_to_hyphens s.
Proof. induction s as [|c s IH]; simpl; [done|]. by rewrite hyphen_char_idem, IH. Qed.

Lemma create_target_plain pkt : plain_name (create_target pkt).
Proof.
  unfold plain_name, create_target.
  by rewrite lower_spaces_to_hyphens, lower_idem, spaces_to_hyphens_idem.
Qed.

Lemma keeps_bind Q {A B} (m : M A) (k : A → M B) :
  keeps Q m → (∀ a, keeps Q (k a)) → keeps Q (m ≫= k).
Proof.
  intros Hm Hk s Hs. unfold mbind, M_bind, bind.
  pose proof (Hm s Hs) as Hms. destruct (m s) as [a s1 o1|s1 o1]; simpl in *; [|done].
  pose proof (Hk a s1 Hms) as Hks. by destruct (k a s1).
Qed.

Lemma keeps_read_only Q {A} (m : M A) : (∀ s, final_state (m s) = s) → keeps Q m.
Proof. intros H s Hs. by rewrite H. Qed.

Lemma joined_state_db u rm s : db (joined_state u rm s) = db s.
Proof.
  unfold joined_state. destruct (rooms (db s) !! rm); [|done].
  destruct (clients s !! u); [|done]. by case_decide.
Qed.

Section PlainNames.
Variable hash_pw : string → string.

Lemma session_of_read_only u s : final_state (session_of u s) = s.
Proof. unfold session_of. by destruct (clients s !! u). Qed.

Lemma join_room_keeps_names u c rm silent : keeps rooms_plain (_join_room u c rm silent).
Proof. intros s Hs. unfold rooms_plain. by rewrite join_room_state, joined_state_db. Qed.

Lemma handle_msg_keeps_names u c pkt now : keeps rooms_plain (_handle_msg u c pkt now).
Proof.
  unfold _handle_msg. apply keeps_bind; [apply keeps_read_only, session_of_read_only|].
  intros info. destruct (Text.is_empty _); [by apply keeps_read_only|].
  destruct (1000 <? _); [by apply keeps_read_only|].
  apply keeps_bind; [|intros _; by apply keeps_read_only].
  intros s Hs. unfold append_history. handler_unfold.
  destruct (rooms (db s) !! s_room info) as [r|] eqn:Hr; simpl; [|done].
  intros rm. unfold rooms_plain. simpl. destruct (decide (rm = s_room info)) as [->|Hne].
  - intros _. apply Hs. by eexists.
  - rewrite lookup_insert_ne by done. apply Hs.
Qed.

Lemma create_room_keeps_names u c pkt : keeps rooms_plain (_create_room u c pkt).
Proof.
  unfold _create_room. fold (create_target pkt).
  destruct (_ || _); [by apply keeps_read_only|].
  apply keeps_bind; [by apply keeps_read_only|]. intros s0.
  destruct (rooms (db s0) !! _); [by apply keeps_read_only|].
  apply keeps_bind.
  { intros s Hs rm. simpl. destruct (decide (rm = create_target pkt)) as [->|Hne].
    - intros _. apply create_target_plain.
    - rewrite lookup_insert_ne by done. apply Hs. }
  intros _. apply keeps_bind; [by apply keeps_read_only|]. intros _.
  apply join_room_keeps_names.
Qed.

Lemma delete_room_keeps_names u c pkt : keeps rooms_plain (_delete_room u c pkt).
Proof.
  unfold _delete_room. apply keeps_bind; [by apply keeps_read_only|]. intros s0.
  destruct (rooms (db s0) !! _); [|by apply keeps_read_only].
  case_decide; [by apply keeps_read_only|]. case_decide; [by apply keeps_read_only|].
  apply keeps_bind; [intros s Hs; unfold rooms_plain; by rewrite evict_all_db|]. intros _.
  apply keeps_bind; [|intros _; by apply keeps_read_only].
  intros s Hs rm. simpl. intros [r0 [_ Hr0]%lookup_delete_Some]. apply Hs. by eexists.
Qed.

Lemma handle_dm_keeps_names u c pkt now : keeps rooms_plain (_handle_dm u c pkt now).
Proof.
  unfold _handle_dm. destruct (_ || _); [by apply keeps_read_only|].
  case_decide; [by apply keeps_read_only|].
  apply keeps_bind; [by apply keeps_read_only|]. intros s0.
  apply keeps_bind; [by intros s Hs|]. intros _.
  apply keeps_bind; [by apply keeps_read_only|]. intros _.
  destruct (clients s0 !! _); by apply keeps_read_only.
Qed.

Lemma set_bio_keeps_names u c pkt : keeps rooms_plain (set_bio u c pkt).
Proof.
  intros s Hs. unfold set_bio. handler_unfold.
  by destruct (users (db s) !! u).
Qed.

Lemma dispatch_keeps_names u c pkt now : keeps rooms_plain (dispatch u c pkt now).
Proof.
  unfold dispatch.
  repeat (case_decide;
    [first [ apply handle_msg_keeps_names | apply join_room_keeps_names
           | apply create_room_keeps_names | apply delete_room_keeps_names
           | apply handle_dm_keeps_names | apply set_bio_keeps_names
           | apply keeps_read_only, send_history_read_only
           | apply keeps_read_only, whois_read_only
           | by apply keeps_read_only ] |]).
  by apply keeps_read_only.
Qed.

Lemma connect_keeps_rooms w c auth now :
  rooms (db (globals (handle_connect hash_pw w c auth now).1)) = rooms (db (globals w)).
Proof.
  unfold handle_connect.
  destruct (authenticate_result hash_pw (globals w) c auth now)
    as [why _|Hok Hact Hnew|usr Hok Hact Husr Hpw Hoff]; [done|..];
    by rewrite open_session_result.
Qed.

Lemma step_keeps_names w ev w' out :
  rooms_plain (globals w) → step hash_pw w ev = Some (w', out) → rooms_plain (globals w').
Proof.
  intros Hw. destruct ev as [c auth now|c pkt now|c]; simpl;
    destruct (threads w !! c) as [u|] eqn:Hc; simpl; try done;
    intros H; apply (inj Some) in H; apply (f_equal fst) in H; simpl in H; subst w'.
  - unfold rooms_plain, names_plain. by rewrite connect_keeps_rooms.
  - unfold handle_receive. pose proof (dispatch_keeps_names u c pkt now _ Hw) as Hd.
    by destruct (dispatch u c pkt now (globals w)).
  - done.
  - done.
Qed.

Lemma reachable_names_plain d w :
  names_plain d → reachable hash_pw d w → names_plain (db (globals w)).
Proof.
  intros Hd. induction 1 as [|w ev w' out Hr IH Hstep]; [done|].
  by eapply step_keeps_names.
Qed.

End PlainNames.

Lemma default_document_names_plain : names_plain default_document.
Proof.
  intros rm [r Hr]. unfold default_document in Hr. simpl in Hr.
  repeat (apply lookup_insert_Some in Hr as [[<- _]|[_ Hr]]; [reflexivity|]).
  by rewrite lookup_empty in Hr.
Qed.

Lemma dispatch_join u c pkt now s :
  p_type pkt = Some "join" →
  dispatch u c pkt now s = _join_room u c (get_or "general" (p_room pkt)) true s.
Proof. intros Ht. unfold dispatch. rewrite Ht. reflexivity. Qed.


(** X22.  Room names stay plain: when no room of the starting document has
    a blank or an upper-case letter in its name, no room of any world the
    server can reach has one - [_create_room] is the only place where a name
    enters the document, and it stores the lower-cased name with its blanks
    replaced by hyphens. *)
Theorem room_names_stay_plain (hash_pw : string → string) (d : document) (w : world)
    (rm : string) :
  names_plain d → reachable hash_pw d w →
  is_Some (rooms (db (globals w)) !! rm) →
  Text.lower rm = rm ∧ Text.spaces_to_hyphens rm = rm.
Proof.
  intros Hd Hw Hrm. pose proof (reachable_names_plain hash_pw d w Hd Hw rm Hrm) as Hp.
  unfold plain_name in Hp. split.
  - rewrite <- Hp at 1. by rewrite lower_spaces_to_hyphens, lower_idem.
  - rewrite <- Hp at 1. by rewrite spaces_to_hyphens_idem.
Qed.

Lemma room_names_stay_plain_witness :
  (names_plain default_document ∧
   reachable Sample.toy_hash default_document Scenes.club ∧
   is_Some (rooms (db (globals Scenes.club)) !! "book-club")) ∧
  Text.lower "book-club" = "book-club" ∧ Text.spaces_to_hyphens "book-club" = "book-club".
Proof.
  assert (is_Some (rooms (db (globals Scenes.club)) !! "book-club")) as Hrm
    by (eexists; vm_compute; reflexivity).
  split; [split; [apply default_document_names_plain|split; [apply club_reachable|exact Hrm]]|].
  exact (room_names_stay_plain Sample.toy_hash default_document Scenes.club "book-club"
           default_document_names_plain club_reachable Hrm).
Defined.



(** ** Broadcasts and listings *)

Lemma deliver_to_exactly s targets pkt ex e :
  e ∈ deliver_to s targets pkt ex ↔
  ∃ u info, u ∈ targets ∧ ex ≠ Some u ∧ clients s !! u = Some info ∧
            e = Send (s_conn info) pkt.
Proof.
  split; [apply deliver_to_sound|].
  intros (u & info & Hin & Hex & Hu & ->). by apply (deliver_to_complete s _ pkt ex u info).
Qed.

Lemma deliver_to_length s targets pkt ex :
  (length (deliver_to s targets pkt ex) ≤ length targets)%nat.
Proof.
  induction targets as [|u rest IH]; simpl; [done|]. rewrite length_app.
  assert (length (if decide (ex = Some u) then []
                  else match clients s !! u with
                       | Some info => [Send (s_conn info) pkt]
                       | None => []
                       end) ≤ 1)%nat; [|lia].
  case_decide; [simpl; lia|]. destruct (clients s !! u); simpl; lia.
Qed.

(** X24.  A broadcast changes nothing and never fails.  [broadcast_room]
    sends the record to the handles of exactly those members of the room's
    set that have a session and are not the excluded name, [broadcast_all]
    to those of everyone online but the excluded name; no more records go
    out than there are members, or users online. *)
Theorem broadcast_reaches_exactly (s : state) (rm : string) (pkt : server_packet)
    (ex : option string) :
  (∃ out, broadcast_room rm pkt ex s = Returned tt s out ∧
     (length out ≤ size (members s rm))%nat ∧
     ∀ e, e ∈ out ↔ ∃ u info, u ∈ members s rm ∧ ex ≠ Some u ∧
                      clients s !! u = Some info ∧ e = Send (s_conn info) pkt) ∧
  (∃ out, broadcast_all pkt ex s = Returned tt s out ∧
     (length out ≤ size (clients s))%nat ∧
     ∀ e, e ∈ out ↔ ∃ u info, ex ≠ Some u ∧
                      clients s !! u = Some info ∧ e = Send (s_conn info) pkt).
Proof.
  split.
  { exists (deliver_to s (elements (members s rm)) pkt ex).
    split; [reflexivity|]. split.
    - etrans; [apply deliver_to_length|]. done.
    - intros e. rewrite deliver_to_exactly. by setoid_rewrite elem_of_elements. }
  exists (deliver_to s (online_list s) pkt ex).
  split; [reflexivity|]. split.
  - etrans; [apply deliver_to_length|]. unfold online_list.
    change (size (dom (clients s)) ≤ size (clients s))%nat. by rewrite size_dom.
  - intros e. rewrite deliver_to_exactly. unfold online_list. split.
    + intros (u & info & _ & ? & ? & ?). eauto.
    + intros (u & info & ? & Hu & ?). exists u, info.
      split; [|done]. apply elem_of_elements, elem_of_dom. by eexists.
Qed.

Lemma room_list_exact s ri :
  ri ∈ room_list_payload s ↔
  ∃ name r, rooms (db s) !! name = Some r ∧
            ri = RoomInfo name (r_topic r) (size (members s name)) (r_owner r).
Proof.
  unfold room_list_payload. rewrite list_elem_of_fmap. split.
  - intros ([name r] & -> & Hin%elem_of_map_to_list). by exists name, r.
  - intros (name & r & Hr & ->). exists (name, r). split; [done|].
    by apply elem_of_map_to_list.
Qed.

Lemma members_within_sessions s rm :
  members_located s → members s rm ⊆ dom (sessions_in s rm).
Proof.
  intros Hloc u [c Hc]%Hloc. apply elem_of_dom. exists (Session c rm).
  by apply map_lookup_filter_Some.
Qed.

Lemma sessions_within_members s rm :
  listed_unless_general s → rm ≠ "general" → dom (sessions_in s rm) ⊆ members s rm.
Proof.
  intros Hlist Hrm u [info [Hu Hp]%map_lookup_filter_Some]%elem_of_dom.
  simpl in Hp. subst rm. by apply Hlist.
Qed.

(** X25.  The room list sent with [auth] and [rooms] names every room of
    the document once, with its topic and owner.  In a world the server can
    reach from a document with the room "general", the [users] number of a
    room other than "general" is the number of sessions recorded in that
    room; for "general" it can be smaller but never larger. *)
Theorem room_list_counts_sessions (hash_pw : string → string) (d : document) (w : world) :
  has_general d → reachable hash_pw d w →
  (∀ ri, ri ∈ room_list_payload (globals w) ↔
     ∃ name r, rooms (db (globals w)) !! name = Some r ∧
               ri = RoomInfo name (r_topic r) (size (members (globals w) name)) (r_owner r)) ∧
  NoDup (ri_name <$> room_list_payload (globals w)) ∧
  (∀ ri, ri ∈ room_list_payload (globals w) →
     (ri_users ri ≤ size (sessions_in (globals w) (ri_name ri)))%nat ∧
     (ri_name ri ≠ "general" →
        ri_users ri = size (sessions_in (globals w) (ri_name ri)))).
Proof.
  intros Hd Hw. destruct (reachable_good hash_pw d w Hd Hw) as (Hloc & Hlist & _ & _).
  split; [apply room_list_exact|]. split.
  - unfold room_list_payload. rewrite <- list_fmap_compose.
    apply (NoDup_fst_map_to_list (rooms (db (globals w)))).
  - intros ri (name & r & _ & ->)%room_list_exact. simpl.
    rewrite <- (size_dom (sessions_in (globals w) name)). split.
    + apply subseteq_size. by apply members_within_sessions.
    + intros Hne. f_equal. apply set_eq. intros u. split.
      * by apply members_within_sessions.
      * by apply sessions_within_members.
Qed.

Lemma room_list_counts_sessions_witness :
  (has_general default_document ∧
   reachable Sample.toy_hash default_document Scenes.club) ∧
  RoomInfo "book-club" "Reading together" 2 "alice" ∈ room_list_payload (globals Scenes.club) ∧
  size (sessions_in (globals Scenes.club) "book-club") = 2%nat.
Proof.
  assert (RoomInfo "book-club" "Reading together" 2 "alice"
          ∈ room_list_payload (globals Scenes.club)) as Hin.
  { apply room_list_exact. exists "book-club", Scenes.club_room.
    split; vm_compute; reflexivity. }
  split; [split; [apply default_document_has_general|apply club_reachable]|].
  split; [exact Hin|].
  destruct (room_list_counts_sessions Sample.toy_hash default_document Scenes.club
              default_document_has_general club_reachable) as (_ & _ & Hcount).
  destruct (Hcount _ Hin) as [_ Heq]. symmetry. apply Heq. discriminate.
Defined.

(** ** There and back *)

Lemma move_there_and_back u info rm s :
  clients s !! u = Some info → s_room info ≠ rm →
  u ∈ members s (s_room info) → u ∉ members s rm →
  let s1 := move_member u info rm s in
  let s2 := move_member u (Session (s_conn info) rm) (s_room info) s1 in
  clients s2 = clients s ∧ (∀ r, members s2 r = members s r) ∧ db s2 = db s.
Proof.
  intros Hu Hne Hin Hout s1 s2. split; [|split; [|done]].
  - apply map_eq. intros u'. unfold s2, s1. rewrite !move_member_clients.
    case_decide; [|done]. subst u'. rewrite Hu. by destruct info.
  - intros r. unfold s2. rewrite members_move by (simpl; congruence). simpl.
    unfold s1. rewrite !members_move by done.
    rewrite (decide_False (P := s_room info = rm)) by done.
    rewrite (decide_True (P := rm = rm)) by done.
    rewrite (decide_True (P := s_room info = s_room info)) by done.
    destruct (decide (r = s_room info)) as [->|Hr1].
    + apply set_eq. intros x. rewrite elem_of_union, elem_of_difference, elem_of_singleton.
      destruct (decide (x = u)) as [->|]; tauto.
    + destruct (decide (r = rm)) as [->|Hr2]; [|done].
      apply set_eq. intros x. rewrite elem_of_difference, elem_of_union, elem_of_singleton.
      destruct (decide (x = u)) as [->|]; tauto.
Qed.

(** X26.  Joining another room and joining back undoes the move: for a
    user who is in the membership set of the recorded room, the sessions,
    every membership set, the document and the handler threads are
    afterwards as they were before. *)
Theorem join_and_back (hash_pw : string → string) (d : document) (w : world)
    (c : conn_id) (u : string) (info : session) (rm : string) (p1 p2 : packet)
    (now1 now2 : clock) :
  has_general d → reachable hash_pw d w → threads w !! c = Some u →
  clients (globals w) !! u = Some info → u ∈ members (globals w) (s_room info) →
  is_Some (rooms (db (globals w)) !! rm) → s_room info ≠ rm →
  p_type p1 = Some "join" → p_room p1 = Some rm →
  p_type p2 = Some "join" → p_room p2 = Some (s_room info) →
  ∃ w1 out1 w2 out2,
    step hash_pw w (Receive c p1 now1) = Some (w1, out1) ∧
    step hash_pw w1 (Receive c p2 now2) = Some (w2, out2) ∧
    clients (globals w1) !! u = Some (Session (s_conn info) rm) ∧
    clients (globals w2) = clients (globals w) ∧
    (∀ r, members (globals w2) r = members (globals w) r) ∧
    db (globals w2) = db (globals w) ∧
    threads w2 = threads w.
Proof.
  intros Hd Hw Hc Hu Hin [r Hr] Hne Ht1 Hr1 Ht2 Hr2.
  destruct (reachable_good hash_pw d w Hd Hw) as (Hloc & _ & Hrooms & _).
  destruct (Hrooms u info Hu) as [r0 Hr0].
  assert (u ∉ members (globals w) rm) as Hout.
  { intros [c' Hc']%Hloc. rewrite Hu in Hc'. injection Hc' as Hi. by rewrite Hi in Hne. }
  set (s1 := move_member u info rm (globals w)).
  set (s2 := move_member u (Session (s_conn info) rm) (s_room info) s1).
  assert (clients s1 !! u = Some (Session (s_conn info) rm)) as Hu1.
  { unfold s1. rewrite move_member_clients. by rewrite decide_True. }
  eexists (World s1 (threads w)), _, (World s2 (threads w)), _.
  split.
  { eapply step_receive; [exact Hc|]. rewrite dispatch_join by done. rewrite Hr1. simpl.
    by apply join_room_moves. }
  split.
  { apply (step_receive hash_pw (World s1 (threads w)) c u p2 now2 s2 _ Hc).
    rewrite dispatch_join by done. rewrite Hr2. simpl.
    apply (join_room_moves u c (s_room info) true s1 (Session (s_conn info) rm) r0);
      [exact Hu1|exact Hr0|simpl; congruence]. }
  split; [exact Hu1|].
  destruct (move_there_and_back u info rm (globals w) Hu Hne Hin Hout) as (? & ? & ?).
  done.
Qed.

Lemma join_and_back_witness :
  (has_general default_document ∧
   reachable Sample.toy_hash default_document Scenes.club ∧
   threads Scenes.club !! 2%nat = Some "bob" ∧
   clients (globals Scenes.club) !! "bob" = Some (Session 2 "book-club") ∧
   "bob" ∈ members (globals Scenes.club) "book-club" ∧
   is_Some (rooms (db (globals Scenes.club)) !! "tech")) ∧
  ∃ w1 out1 w2 out2,
    step Sample.toy_hash Scenes.club (Receive 2 Scenes.to_tech_pkt Sample.noon)
      = Some (w1, out1) ∧
    step Sample.toy_hash w1 (Receive 2 Scenes.to_club_pkt Sample.noon) = Some (w2, out2) ∧
    clients (globals w1) !! "bob" = Some (Session 2 "tech") ∧
    clients (globals w2) = clients (globals Scenes.club).
Proof.
  assert (threads Scenes.club !! 2%nat = Some "bob") as Hc by (vm_compute; reflexivity).
  assert (clients (globals Scenes.club) !! "bob" = Some (Session 2 "book-club")) as Hu
    by (vm_compute; reflexivity).
  assert ("bob" ∈ members (globals Scenes.club) (s_room (Session 2 "book-club"))) as Hin.
  { assert (members (globals Scenes.club) "book-club" = {["alice"; "bob"]}) as Hm
      by (vm_compute; reflexivity).
    simpl. rewrite Hm. apply elem_of_union. right. by apply elem_of_singleton. }
  assert (is_Some (rooms (db (globals Scenes.club)) !! "tech")) as Hrm
    by (eexists; vm_compute; reflexivity).
  split.
  { split; [apply default_document_has_general|]. split; [apply club_reachable|].
    split; [exact Hc|]. split; [exact Hu|]. split; [exact Hin|exact Hrm]. }
  destruct (join_and_back Sample.toy_hash default_document Scenes.club 2 "bob"
              (Session 2 "book-club") "tech" Scenes.to_tech_pkt Scenes.to_club_pkt
              Sample.noon Sample.noon default_document_has_general club_reachable Hc Hu Hin Hrm)
    as (w1 & out1 & w2 & out2 & H1 & H2 & H3 & H4 & _); try reflexivity; [discriminate|].
  exists w1, out1, w2, out2. split; [exact H1|]. split; [exact H2|]. split; [exact H3|exact H4].
Defined.

(** ** Messages for someone who is offline *)






(** ** Opening a room and removing it again *)

Lemma dispatch_create_room u c pkt now s :
  p_type pkt = Some "create_room" → dispatch u c pkt now s = _create_room u c pkt s.
Proof. intros Ht. unfold dispatch. rewrite Ht. reflexivity. Qed.

Lemma create_room_run u c pkt s info :
  2 ≤ Text.len (create_target pkt) → rooms (db s) !! create_target pkt = None →
  clients s !! u = Some info → s_room info ≠ create_target pkt →
  let s1 := with_room (create_target pkt) (create_topic pkt) u s in
  ∃ out,
    _create_room u c pkt s = Returned tt (move_member u info (create_target pkt) s1) out.
Proof.
  intros Hlen Hfree Hu Hne s1.
  set (name := create_target pkt) in *. set (topic := create_topic pkt) in *.
  assert (rooms (db s1) !! name = Some (Room topic [] u)) as Hr1
    by (simpl; apply lookup_insert_eq).
  eexists. unfold _create_room. fold (create_target pkt) (create_topic pkt). fold name topic.
  assert (Text.is_empty name || (Text.len name <? 2) = false) as ->.
  { destruct name; [unfold Text.len in Hlen; simpl in Hlen; lia|]. simpl. lia. }
  unfold mbind at 1. unfold M_bind, bind at 1. unfold get_state. rewrite Hfree.
  unfold mbind, M_bind, bind. unfold modify at 1. fold (with_room name topic u s).
  fold s1. unfold broadcast_all, get_state, emit. simpl.
  rewrite (join_room_moves u c name false s1 info (Room topic [] u) Hu Hr1 Hne).
  reflexivity.
Qed.

(** X28.  A room that its creator removes again leaves no trace in the
    document: after a [create_room] under a free name that is not one of
    the default names and a [delete_room] of that room by the same user,
    the document is what it was, every other session is untouched, and the
    creator is recorded in "general" and is in the membership set of
    "general".  Stated for ASCII names in the two records and an ASCII
    username, where bytes are characters and [log] cannot fail. *)
Theorem create_then_delete (hash_pw : string → string) (d : document) (w : world)
    (c : conn_id) (u : string) (cp dp : packet) (now1 now2 : clock) :
  Text.is_ascii u = true → ascii_field (p_name cp) → ascii_field (p_name dp) →
  has_general d → reachable hash_pw d w → threads w !! c = Some u →
  p_type cp = Some "create_room" → 2 ≤ Text.len (create_target cp) →
  rooms (db (globals w)) !! create_target cp = None →
  create_target cp ∉ default_rooms →
  p_type dp = Some "delete_room" → delete_target dp = create_target cp →
  ∃ w1 out1 w2 out2,
    step hash_pw w (Receive c cp now1) = Some (w1, out1) ∧
    step hash_pw w1 (Receive c dp now2) = Some (w2, out2) ∧
    is_Some (rooms (db (globals w1)) !! create_target cp) ∧
    db (globals w2) = db (globals w) ∧
    clients (globals w2) !! u = Some (Session c "general") ∧
    u ∈ members (globals w2) "general" ∧
    (∀ u', u' ≠ u → clients (globals w2) !! u' = clients (globals w) !! u') ∧
    threads w2 = threads w.
Proof.
  intros _ _ _ Hd Hw Hc Htc Hlen Hfree Hdef Htd Hsame.
  destruct (reachable_good hash_pw d w Hd Hw) as (Hloc & _ & Hrooms & Hgen).
  pose proof (reachable_consistent hash_pw d w Hw) as [Hmatch _].
  pose proof (not_default_not_general _ Hdef) as Hname.
  assert (∃ info, clients (globals w) !! u = Some info ∧ s_conn info = c)
    as (info & Hu & Hconn).
  { apply Hmatch in Hc. unfold conn_of in Hc. rewrite lookup_fmap in Hc.
    destruct (clients (globals w) !! u) as [info|]; [|done].
    exists info. split; [done|]. by injection Hc. }
  set (name := create_target cp) in *. set (s := globals w) in *.
  assert (s_room info ≠ name) as Hne.
  { intros Heq. destruct (Hrooms u info Hu) as [r0 Hr0]. rewrite Heq in Hr0. congruence. }
  destruct (create_room_run u c cp s info Hlen Hfree Hu Hne) as [out1 Hrun1].
  fold name in Hrun1.
  set (s0 := with_room name (create_topic cp) u s) in *.
  set (s1 := move_member u info name s0) in *.
  assert (rooms (db s1) !! delete_target dp = Some (Room (create_topic cp) [] u)) as Hr1
    by (rewrite Hsame; simpl; apply lookup_insert_eq).
  assert (delete_target dp ∉ default_rooms) as Hdef' by by rewrite Hsame.
  destruct (delete_room_run u c dp s1 _ Hr1 eq_refl Hdef') as [out2 Hrun2].
  rewrite Hsame in Hrun2. fold name in Hrun2.
  set (s2 := final_state (evict_all (elements (members s1 name)) s1)) in *.
  set (s3 := with_db (with_rooms (delete name)) s2) in *.
  assert (has_general (db s1)) as Hgen1.
  { unfold has_general. simpl. by rewrite lookup_insert_ne. }
  assert (clients s1 !! u = Some (Session c name)) as Hu1.
  { unfold s1. rewrite move_member_clients, decide_True by done. by rewrite Hconn. }
  assert (∀ u', u' ∈ members s1 name ↔ u' = u) as Hmem.
  { intros u'. unfold s1. rewrite members_move by done. rewrite decide_True by done.
    rewrite elem_of_union, elem_of_singleton. split; [|by right].
    intros [Hin|?]; [|done]. change (members s0 name) with (members s name) in Hin.
    destruct (Hloc _ _ Hin) as [c' Hc']. destruct (Hrooms _ _ Hc') as [r0 Hr0].
    simpl in Hr0. congruence. }
  eexists (World s1 (threads w)), out1, (World s3 (threads w)), _.
  split.
  { eapply step_receive; [exact Hc|]. rewrite dispatch_create_room by done. exact Hrun1. }
  split.
  { assert (dispatch u c dp now2 s1 = _delete_room u c dp s1) as Hd2
      by (by apply dispatch_delete_room).
    simpl. rewrite Hc. simpl. unfold handle_receive. simpl. rewrite Hd2, Hrun2. reflexivity. }
  split; [simpl; rewrite lookup_insert_eq; by eexists|].
  split.
  { simpl. unfold s2. rewrite evict_all_db. unfold s1, s0, with_room, with_db, with_rooms.
    simpl. rewrite delete_insert_eq, delete_id by done. by destruct (db s). }
  split.
  { simpl. unfold s2. rewrite evict_all_clients by done. rewrite Hu1. simpl.
    rewrite decide_True; [done|]. by apply elem_of_elements, Hmem. }
  split.
  { change (members s3 "general") with (members s2 "general").
    destruct (evict_all_general (elements (members s1 name)) s1 Hgen1) as [_ Hall].
    apply (Hall u (Session c name)); [by apply elem_of_elements, Hmem|done|done]. }
  split; [|done].
  intros u' Hu'. simpl. unfold s2. rewrite evict_all_clients by done.
  assert (clients s1 !! u' = clients s !! u') as ->.
  { unfold s1. rewrite move_member_clients. by rewrite decide_False. }
  destruct (clients s !! u') as [info'|]; simpl; [|done].
  rewrite decide_False; [done|]. intros Hin%elem_of_elements%Hmem. done.
Qed.

Lemma create_then_delete_witness :
  (Text.is_ascii "alice" = true ∧ ascii_field (p_name Scenes.open_attic_pkt) ∧
   ascii_field (p_name Scenes.close_attic_pkt) ∧
   has_general default_document ∧
   reachable Sample.toy_hash default_document (Sample.both_online Sample.toy_hash) ∧
   threads (Sample.both_online Sample.toy_hash) !! 1%nat = Some "alice" ∧
   2 ≤ Text.len (create_target Scenes.open_attic_pkt) ∧
   rooms (db (globals (Sample.both_online Sample.toy_hash)))
     !! create_target Scenes.open_attic_pkt = None ∧
   (create_target Scenes.open_attic_pkt ∉ default_rooms) ∧
   delete_target Scenes.close_attic_pkt = create_target Scenes.open_attic_pkt) ∧
  ∃ w1 out1 w2 out2,
    step Sample.toy_hash (Sample.both_online Sample.toy_hash)
      (Receive 1 Scenes.open_attic_pkt Sample.noon) = Some (w1, out1) ∧
    step Sample.toy_hash w1 (Receive 1 Scenes.close_attic_pkt Sample.noon) = Some (w2, out2) ∧
    db (globals w2) = db (globals (Sample.both_online Sample.toy_hash)) ∧
    "alice" ∈ members (globals w2) "general".
Proof.
  assert (threads (Sample.both_online Sample.toy_hash) !! 1%nat = Some "alice") as Hc
    by (vm_compute; reflexivity).
  assert (2 ≤ Text.len (create_target Scenes.open_attic_pkt)) as Hlen
    by (vm_compute; discriminate).
  assert (rooms (db (globals (Sample.both_online Sample.toy_hash)))
            !! create_target Scenes.open_attic_pkt = None) as Hfree
    by (vm_compute; reflexivity).
  assert (create_target Scenes.open_attic_pkt ∉ default_rooms) as Hdef.
  { change (create_target Scenes.open_attic_pkt) with "attic". unfold default_rooms.
    rewrite !elem_of_cons, elem_of_nil. intros [?|[?|[?|?]]]; done. }
  split.
  { split; [reflexivity|]. split; [reflexivity|]. split; [reflexivity|].
    split; [apply default_document_has_general|]. split; [apply both_online_reachable|].
    split; [exact Hc|]. split; [exact Hlen|]. split; [exact Hfree|].
    split; [exact Hdef|reflexivity]. }
  destruct (create_then_delete Sample.toy_hash default_document
              (Sample.both_online Sample.toy_hash) 1 "alice"
              Scenes.open_attic_pkt Scenes.close_attic_pkt Sample.noon Sample.noon
              eq_refl eq_refl eq_refl
              default_document_has_general (both_online_reachable Sample.toy_hash)
              Hc eq_refl Hlen Hfree Hdef eq_refl eq_refl)
    as (w1 & out1 & w2 & out2 & H1 & H2 & _ & H3 & _ & H4 & _).
  exists w1, out1, w2, out2. split; [exact H1|]. split; [exact H2|]. split; [exact H3|exact H4].
Defined.

(** ** The first record of a connection *)

(** X29.  The first record of a connection is all or nothing.  Either it is
    refused: the world is exactly what it was - no account, session or
    thread is left behind - and the connection gets one negative [auth]
    record and is closed, twice (once by the AUTH block and once more by the
    [finally] clause).  Or it is accepted: the handler thread and the
    session, with the room "general", exist for the trimmed, lower-cased
    username, rooms and direct-message threads are untouched, and nothing
    is closed.  Stated for ASCII username and password, on which [hash_pw]
    and [log] cannot fail. *)
Theorem first_record_all_or_nothing (hash_pw : string → string) (w : world) (c : conn_id)
    (auth : packet) (now : clock) :
  ascii_field (p_username auth) → ascii_field (p_password auth) →
  threads w !! c = None →
  ∃ w' out,
    step hash_pw w (Connect c auth now) = Some (w', out) ∧
    ((∃ why, w' = w ∧ out = [Send c (SAuthFail why); Close c; Close c]) ∨
     (name_ok (auth_name auth) ∧
      threads w' = <[c := auth_name auth]> (threads w) ∧
      clients (globals w') = <[auth_name auth := Session c "general"]> (clients (globals w)) ∧
      is_Some (users (db (globals w')) !! auth_name auth) ∧
      rooms (db (globals w')) = rooms (db (globals w)) ∧
      dm_history (db (globals w')) = dm_history (db (globals w)) ∧
      room_users (globals w') = room_users (globals w) ∧
      ∀ c', Close c' ∉ out)).
Proof.
  intros _ _ Hc. rewrite step_connect by done.
  assert (∀ s c', Close c' ∉ emitted (open_session (auth_name auth) c s)) as Hopen.
  { intros s c'. rewrite open_session_result. simpl.
    intros [[=]|[[=]|Hin]%elem_of_cons]%elem_of_cons.
    by apply deliver_to_sends in Hin. }
  pose proof (authenticate_result hash_pw (globals w) c auth now) as Hres.
  inversion Hres as [why _ Heq|Hok Hact Hnew Heq|usr Hok Hact Husr Hpw Hoff Heq];
    symmetry in Heq.
  - eexists _, _. split; [by rewrite (connect_rejected hash_pw w c auth now why Heq)|].
    left. by exists why.
  - eexists _, _. split; [by rewrite (connect_accepted hash_pw w c auth now _ Heq)|].
    right. simpl. split; [done|]. split; [done|]. split; [done|].
    split; [rewrite lookup_insert_eq; by eexists|]. split; [done|]. split; [done|].
    split; [done|]. apply Hopen.
  - eexists _, _. split; [by rewrite (connect_accepted hash_pw w c auth now _ Heq)|].
    right. simpl. split; [done|]. split; [done|]. split; [done|].
    split; [by eexists|]. split; [done|]. split; [done|]. split; [done|]. apply Hopen.
Qed.

Lemma first_record_all_or_nothing_witness :
  (ascii_field (p_username (Sample.register_pkt " Alice " "other")) ∧
   ascii_field (p_password (Sample.register_pkt " Alice " "other")) ∧
   threads (Sample.alice_online Sample.toy_hash) !! 3%nat = None) ∧
  step Sample.toy_hash (Sample.alice_online Sample.toy_hash)
    (Connect 3 (Sample.register_pkt " Alice " "other") Sample.noon)
  = Some (Sample.alice_online Sample.toy_hash,
          [Send 3 (SAuthFail UsernameTaken); Close 3; Close 3]).
Proof.
  assert (threads (Sample.alice_online Sample.toy_hash) !! 3%nat = None) as Hc
    by (vm_compute; reflexivity).
  split; [split; [reflexivity|split; [reflexivity|exact Hc]]|].
  destruct (first_record_all_or_nothing Sample.toy_hash (Sample.alice_online Sample.toy_hash)
              3 (Sample.register_pkt " Alice " "other") Sample.noon eq_refl eq_refl Hc)
    as (w' & out & Hstep & Hcase).
  rewrite Hstep. f_equal.
  assert (threads w' = threads (Sample.alice_online Sample.toy_hash)) as Hsame.
  { assert (fst <$> step Sample.toy_hash (Sample.alice_online Sample.toy_hash)
              (Connect 3 (Sample.register_pkt " Alice " "other") Sample.noon)
            = Some (Sample.alice_online Sample.toy_hash)) as Hrun by (vm_compute; reflexivity).
    rewrite Hstep in Hrun. simpl in Hrun. by injection Hrun as ->. }
  destruct Hcase as [(why & -> & ->)|(_ & Hth & _)].
  - assert (snd <$> step Sample.toy_hash (Sample.alice_online Sample.toy_hash)
              (Connect 3 (Sample.register_pkt " Alice " "other") Sample.noon)
            = Some [Send 3 (SAuthFail UsernameTaken); Close 3; Close 3]) as Hout
      by (vm_compute; reflexivity).
    rewrite Hstep in Hout. simpl in Hout. by injection Hout as ->.
  - exfalso. pose proof (f_equal (λ m, m !! 3%nat) Hth) as Hx. cbv beta in Hx.
    rewrite Hsame, lookup_insert_eq, Hc in Hx. discriminate Hx.
Defined.

(** * Authentications that overlap *)

Section Overlapping.
Variable hash_pw : string → string.










End Overlapping.


(** ** One session per username *)






